(** * SeeSeaIntelligence: incremental collection, gap detection and rendering

    A shallow embedding of the collection pipeline of the repository:
    - [Calendar]: the calendar arithmetic the code takes from [datetime]
      ([strptime], [strftime], [timedelta(days=1)], [utcnow], [isoformat]);
    - [IMFPortWatchCollector]: [src/collectors/imf_portwatch.py];
    - [DataCollector]: [src/core/collector.py];
    - [BackfillManager]: [src/core/backfill.py];
    - [DataProcessor]: [src/core/processor.py].

    Files on disk are modelled by their contents: a variable's data directory
    is a finite map from file stems to unpickled values, together with the
    optional [_metadata.json]; the rendered CSV is the string of its bytes. *)

From Stdlib Require Import ZArith Lia Ascii String List DecimalString.
From stdpp Require Import base option list gmap strings sorting.

Local Open Scope string_scope.

(** ** Results of fallible code *)

Inductive exn : Type :=
| FileNotFoundError (msg : string)
| ValueError (msg : string)
| KeyError (key : string)
| TypeError (msg : string)
| OSError (msg : string)
| PermissionError (msg : string)
| OverflowError (msg : string)
| RequestException (msg : string).

(** [str(e)] *)
Definition exn_str (e : exn) : string :=
  match e with
  | FileNotFoundError m | ValueError m | TypeError m | OSError m
  | PermissionError m | OverflowError m | RequestException m => m
  | KeyError k => "'" ++ k ++ "'"
  end.

Inductive result (A : Type) : Type :=
| Ok (a : A)
| Raise (e : exn).
Arguments Ok {A} a.
Arguments Raise {A} e.

#[global] Instance result_ret : MRet result := fun A a => Ok a.
#[global] Instance result_bind : MBind result := fun A B k r =>
  match r with
  | Ok a => k a
  | Raise e => Raise e
  end.

Definition is_ok {A : Type} (r : result A) : bool :=
  match r with Ok _ => true | Raise _ => false end.

(** ** String helpers standing for Python's [str] operations *)

Module Str.

(** [old in s] *)
Fixpoint contains (old s : string) : bool :=
  String.prefix old s ||
  match s with
  | EmptyString => false
  | String _ s' => contains old s'
  end.

(** [s.startswith(p)] *)
Definition startswith (p s : string) : bool := String.prefix p s.

(** [s.replace(old, new)] for a non-empty [old]: occurrences are replaced
    from left to right and do not overlap; [skip] counts the characters of
    the occurrence that is being replaced. *)
Fixpoint replace_from (old new : string) (skip : nat) (s : string) : string :=
  match s with
  | EmptyString => EmptyString
  | String c s' =>
      match skip with
      | S k => replace_from old new k s'
      | O =>
          if String.prefix old s
          then new ++ replace_from old new (String.length old - 1) s'
          else String c (replace_from old new O s')
      end
  end.

Definition replace (old new s : string) : string := replace_from old new O s.

(** the last character of a string, as [f.seek(-1, 2); f.read(1)] reads it *)
Fixpoint last_char (s : string) : option ascii :=
  match s with
  | EmptyString => None
  | String c EmptyString => Some c
  | String _ s' => last_char s'
  end.

(** [s.split(sep)] on a single character *)
Fixpoint split_on (sep : ascii) (s : string) : list string :=
  match s with
  | EmptyString => [EmptyString]
  | String c s' =>
      if Ascii.eqb c sep then EmptyString :: split_on sep s'
      else match split_on sep s' with
           | [] => [String c EmptyString]
           | w :: ws => String c w :: ws
           end
  end.

(** [urlparse(url).netloc]: the text between the [//] that follows the
    scheme and the next [/], [?] or [#] *)
Definition is_alpha (c : ascii) : bool :=
  let n := nat_of_ascii c in
  ((65 <=? n) && (n <=? 90) || (97 <=? n) && (n <=? 122))%nat.

Definition is_scheme_char (c : ascii) : bool :=
  let n := nat_of_ascii c in
  is_alpha c || ((48 <=? n) && (n <=? 57))%nat
  || Ascii.eqb c "+" || Ascii.eqb c "-" || Ascii.eqb c ".".

Fixpoint after_scheme (whole s : string) : string :=
  match s with
  | EmptyString => whole
  | String c s' =>
      if Ascii.eqb c ":" then s'
      else if is_scheme_char c then after_scheme whole s' else whole
  end.

Definition strip_scheme (url : string) : string :=
  match url with
  | String c _ => if is_alpha c then after_scheme url url else url
  | EmptyString => url
  end.

Fixpoint until_delim (s : string) : string :=
  match s with
  | EmptyString => EmptyString
  | String c s' =>
      if Ascii.eqb c "/" || Ascii.eqb c "?" || Ascii.eqb c "#" then EmptyString
      else String c (until_delim s')
  end.

Definition netloc (url : string) : string :=
  match strip_scheme url with
  | String "/" (String "/" r) => until_delim r
  | _ => EmptyString
  end.

Definition LF : ascii := ascii_of_nat 10.
Definition CR : ascii := ascii_of_nat 13.
Definition DQUOTE : ascii := ascii_of_nat 34.
Definition COMMA : ascii := ascii_of_nat 44.

End Str.

(** ** Calendar arithmetic

    A naive [datetime] is the number of microseconds since
    0001-01-01T00:00:00; its date is the proleptic Gregorian ordinal
    (0001-01-01 has ordinal 1), as in Python's [date.toordinal]. *)

Module Calendar.
Local Open Scope Z_scope.

Definition US_PER_SECOND : Z := 1000000.
Definition US_PER_DAY : Z := 86400 * US_PER_SECOND.
Definition MAXORDINAL : Z := 3652059.          (* 9999-12-31 *)
Definition EPOCH_ORDINAL : Z := 719163.        (* 1970-01-01 *)
Definition ORDINAL_1000 : Z := 364878.         (* 1000-01-01 *)

Definition is_leap (y : Z) : bool :=
  (y mod 4 =? 0) && (negb (y mod 100 =? 0) || (y mod 400 =? 0)).

Definition days_in_month (y m : Z) : Z :=
  if m =? 2 then (if is_leap y then 29 else 28)
  else if (m =? 4) || (m =? 6) || (m =? 9) || (m =? 11) then 30
  else 31.

Definition days_before_year (y : Z) : Z :=
  let p := y - 1 in p * 365 + p / 4 - p / 100 + p / 400.

(** number of days of the first [k] months of year [y] *)
Fixpoint days_of_months (y : Z) (k : nat) : Z :=
  match k with
  | O => 0
  | S k' => days_of_months y k' + days_in_month y (Z.of_nat k)
  end.

Definition days_before_month (y m : Z) : Z := days_of_months y (Z.to_nat (m - 1)).

Definition ymd2ord (y m d : Z) : Z :=
  days_before_year y + days_before_month y m + d.

(** walk through the months of year [y], [r] days into month [m] *)
Fixpoint month_scan (y m : Z) (fuel : nat) (r : Z) : Z * Z :=
  match fuel with
  | O => (m, r)
  | S f =>
      let dim := days_in_month y m in
      if r <? dim then (m, r) else month_scan y (m + 1) f (r - dim)
  end.

Definition ord2ymd (n : Z) : Z * Z * Z :=
  let n0 := n - 1 in
  let n400 := n0 / 146097 in let r400 := n0 mod 146097 in
  let n100 := r400 / 36524 in let r100 := r400 mod 36524 in
  let n4 := r100 / 1461 in let r4 := r100 mod 1461 in
  let n1 := r4 / 365 in let r1 := r4 mod 365 in
  let year := n400 * 400 + 1 + n100 * 100 + n4 * 4 + n1 in
  if (n1 =? 4) || (n100 =? 4) then (year - 1, 12, 31)
  else let '(m, r) := month_scan year 1 11 r1 in (year, m, r + 1).

(** the date of a datetime, and the datetime at midnight of a date *)
Definition toordinal (t : Z) : Z := t / US_PER_DAY + 1.
Definition midnight (ord : Z) : Z := (ord - 1) * US_PER_DAY.

(** datetimes are limited to the years 1..9999 *)
Definition valid_ordinal (ord : Z) : bool := (1 <=? ord) && (ord <=? MAXORDINAL).
Definition valid_datetime (t : Z) : bool := valid_ordinal (toordinal t).

(** [t + timedelta(days=n)]: an overflow past year 9999 raises *)
Definition add_days (t n : Z) : option Z :=
  let t' := t + n * US_PER_DAY in
  if valid_datetime t' then Some t' else None.

(** decimal digits *)
Definition digit_char (d : Z) : ascii := ascii_of_N (48 + Z.to_N (d mod 10)).

Definition digit_val (c : ascii) : option Z :=
  let n := Z.of_N (N_of_ascii c) in
  if (48 <=? n) && (n <=? 57) then Some (n - 48) else None.

Definition pad2 (v : Z) : string :=
  String (digit_char (v / 10)) (String (digit_char v) EmptyString).

Definition pad4 (v : Z) : string :=
  String (digit_char (v / 1000)) (String (digit_char (v / 100)) (pad2 v)).

Definition pad6 (v : Z) : string :=
  String (digit_char (v / 100000)) (String (digit_char (v / 10000)) (pad4 v)).

(** [%Y] as the C library's [strftime] writes it: the year in decimal,
    without leading zeros, so with fewer than four digits before year 1000 *)
Definition year_digits (y : Z) : string :=
  if y <? 10 then String (digit_char y) EmptyString
  else if y <? 100 then pad2 y
  else if y <? 1000 then String (digit_char (y / 100)) (pad2 y)
  else pad4 y.

(** [d.strftime('%Y-%m-%d')] of the date with ordinal [ord]; the month and
    the day are written with two digits *)
Definition format_ordinal (ord : Z) : string :=
  let '(y, m, d) := ord2ymd ord in
  year_digits y ++ "-" ++ pad2 m ++ "-" ++ pad2 d.

Definition strftime (t : Z) : string := format_ordinal (toordinal t).

(** [date.isoformat()]: the year is always written with four digits *)
Definition iso_date (ord : Z) : string :=
  let '(y, m, d) := ord2ymd ord in
  pad4 y ++ "-" ++ pad2 m ++ "-" ++ pad2 d.

(** [datetime.isoformat()]: the microseconds are left out when they are 0 *)
Definition isoformat (t : Z) : string :=
  let us := t mod US_PER_DAY in
  let secs := us / US_PER_SECOND in
  let frac := us mod US_PER_SECOND in
  iso_date (toordinal t) ++ "T" ++ pad2 (secs / 3600) ++ ":"
    ++ pad2 (secs / 60 mod 60) ++ ":" ++ pad2 (secs mod 60)
    ++ (if frac =? 0 then "" else "." ++ pad6 frac).

(** the fields [strptime] accepts for [%Y], [%m] and [%d]: four digits; one
    or two digits in 1..12; one or two digits, or a space and a digit, in
    1..31 *)
Definition parse_year (s : string) : option Z :=
  match s with
  | String a (String b (String c (String d EmptyString))) =>
      da ← digit_val a; db ← digit_val b; dc ← digit_val c; dd ← digit_val d;
      Some (da * 1000 + db * 100 + dc * 10 + dd)
  | _ => None
  end.

Definition parse_upto (hi : Z) (allow_space : bool) (s : string) : option Z :=
  match s with
  | String a EmptyString =>
      da ← digit_val a; if 1 <=? da then Some da else None
  | String a (String b EmptyString) =>
      if allow_space && Ascii.eqb a " "
      then db ← digit_val b; if 1 <=? db then Some db else None
      else da ← digit_val a; db ← digit_val b;
           let v := da * 10 + db in
           if (1 <=? v) && (v <=? hi) then Some v else None
  | _ => None
  end.

(** [datetime.strptime(s, '%Y-%m-%d')]: [None] stands for the [ValueError] *)
Definition strptime (s : string) : option Z :=
  match Str.split_on "-" s with
  | [ys; ms; ds] =>
      y ← parse_year ys; m ← parse_upto 12 false ms; d ← parse_upto 31 true ds;
      if (1 <=? y) && (d <=? days_in_month y m)
      then Some (midnight (ymd2ord y m d)) else None
  | _ => None
  end.

End Calendar.

(** ** The dictionaries the modules exchange

    A dictionary is a record of the keys the code reads: a key the code
    indexes directly ([d['date']]) is a field, a key it reads through
    [d.get(k, default)] or tests with [k in d] is an optional field. *)

(** one element of [time_series] *)
Record daily_record : Type := mk_daily_record {
  dr_date : string;
  dr_year : option Z;
  dr_month : option Z;
  dr_day : option Z;
  dr_vessel_count : Z;
  dr_container : option Z;
  dr_dry_bulk : option Z;
  dr_general_cargo : option Z;
  dr_roro : option Z;
  dr_tanker : option Z }.

(** the dictionary a collector returns *)
Record collected : Type := mk_collected {
  time_series : option (list daily_record);
  total_records : option Z;
  date_range : option (option string * option string);
  timestamp : string;
  source : string;
  chokepoint : string;
  variable : string;
  status : string;
  note : option string;
  error : option string }.

(** ** src/collectors/imf_portwatch.py *)

Module IMFPortWatchCollector.
Local Open Scope Z_scope.

Definition CHOKEPOINT_MAP : list (string * string) :=
  [ ("bab-el-mandeb", "chokepoint4");
    ("strait-of-hormuz", "chokepoint6");
    ("strait-of-malacca", "chokepoint5");
    ("suez-canal", "chokepoint1");
    ("panama-canal", "chokepoint2");
    ("bosporus-strait", "chokepoint3") ].

Fixpoint dict_get {V : Type} (k : string) (d : list (string * V)) : option V :=
  match d with
  | [] => None
  | (k', v) :: d' => if String.eqb k k' then Some v else dict_get k d'
  end.

(** the [attributes] of an ArcGIS feature, by the keys [collect] reads *)
Record attrs : Type := mk_attrs {
  at_date : option Z;
  at_year : option Z;
  at_month : option Z;
  at_day : option Z;
  at_n_total : option Z;
  at_n_container : option Z;
  at_n_dry_bulk : option Z;
  at_n_general_cargo : option Z;
  at_n_roro : option Z;
  at_n_tanker : option Z }.

Record feature : Type := mk_feature { attributes : option attrs }.

(** what [requests.get(json_url, timeout=30)] and [response.json()] give *)
Inductive http_response : Type :=
| RequestFailed (msg : string)          (* connection error, timeout, HTTP status *)
| InvalidJson (msg : string)            (* the body does not parse *)
| JsonBody (features : option (list feature)).   (* [None]: no 'features' key *)

(** The upstream source: the requests the page issues while it is loaded and
    scrolled ([None] when Playwright fails), and the answer to a query. *)
Record upstream : Type := mk_upstream {
  page_requests : string -> option (list string);
  http_get : string -> http_response }.

(** [handle_request]: the last request for the chokepoint's daily data *)
Definition is_query_for (portid url : string) : bool :=
  Str.contains "Daily_Chokepoints_Data" url && Str.contains "/query" url
  && Str.contains ("portid%3D%27" ++ portid ++ "%27") url.

Definition _extract_api_url (up : upstream) (source_url portid : string)
  : option string :=
  match page_requests up source_url with
  | None => None
  | Some urls => last (filter (fun u => is_query_for portid u = true) urls)
  end.

(** [if start_date:] *)
Definition given (start_date : option string) : bool :=
  match start_date with
  | Some (String _ _) => true
  | _ => false
  end.

(** [int(start_dt.timestamp() * 1000)] for a naive local datetime, in a zone
    [tz] seconds east of UTC *)
Definition epoch_ms (tz t : Z) : Z :=
  Z.quot (t - Calendar.midnight Calendar.EPOCH_ORDINAL
            - tz * Calendar.US_PER_SECOND) 1000.

(** [datetime.fromtimestamp(date_ms / 1000)] *)
Definition fromtimestamp (tz date_ms : Z) : result Z :=
  let t := Calendar.midnight Calendar.EPOCH_ORDINAL + date_ms * 1000
           + tz * Calendar.US_PER_SECOND in
  if Calendar.valid_datetime t then Ok t
  else Raise (ValueError "year is out of range").

(** [start_epoch], computed when a start date is given *)
Definition start_epoch_of (tz : Z) (start_date : option string)
  : result (option Z) :=
  match start_date with
  | Some ((String _ _) as s) =>
      match Calendar.strptime s with
      | Some start_dt => Ok (Some (epoch_ms tz start_dt))
      | None => Raise (ValueError ("time data does not match format: " ++ s))
      end
  | _ => Ok None
  end.

(** the request part of [collect], up to [data = response.json()]: the
    start epoch and the features of the answer *)
Definition fetch (up : upstream) (tz : Z) (source_url chokepoint : string)
    (start_date : option string) : result (option Z * option (list feature)) :=
  match dict_get chokepoint CHOKEPOINT_MAP with
  | None => Raise (ValueError ("Unknown chokepoint: " ++ chokepoint))
  | Some portid =>
      match _extract_api_url up source_url portid with
      | None => Raise (ValueError "Could not extract API URL from page")
      | Some query_url =>
          let json_url := Str.replace "f=pbf" "f=json" query_url in
          let json_url :=
            if Str.contains "orderByFields" json_url then json_url
            else json_url ++ "&orderByFields=date%20DESC" in
          start_epoch ← start_epoch_of tz start_date;
          let json_url :=
            if given start_date then json_url ++ "&resultRecordCount=100"
            else json_url in
          match http_get up json_url with
          | RequestFailed msg => Raise (RequestException msg)
          | InvalidJson msg => Raise (ValueError msg)
          | JsonBody features => Ok (start_epoch, features)
          end
      end
  end.

(** the loop over [data['features']] *)
Fixpoint process_features (tz : Z) (start_epoch : option Z)
    (features : list feature) : result (list daily_record) :=
  match features with
  | [] => Ok []
  | f :: rest =>
      match attributes f with
      | None => Raise (KeyError "attributes")
      | Some a =>
          match at_date a with
          | None => process_features tz start_epoch rest
          | Some date_ms =>
              if date_ms =? 0 then process_features tz start_epoch rest
              else if match start_epoch with
                      | Some e => date_ms <? e
                      | None => false
                      end
              then process_features tz start_epoch rest
              else
                dt ← fromtimestamp tz date_ms;
                more ← process_features tz start_epoch rest;
                Ok ({| dr_date := Calendar.strftime dt;
                       dr_year := at_year a;
                       dr_month := at_month a;
                       dr_day := at_day a;
                       dr_vessel_count := default 0 (at_n_total a);
                       dr_container := Some (default 0 (at_n_container a));
                       dr_dry_bulk := Some (default 0 (at_n_dry_bulk a));
                       dr_general_cargo := Some (default 0 (at_n_general_cargo a));
                       dr_roro := Some (default 0 (at_n_roro a));
                       dr_tanker := Some (default 0 (at_n_tanker a)) |} :: more)
          end
      end
  end.

(** an upstream with nothing new to report for a start date: the query is
    answered with [features] ([None]: no 'features' key) and none of them
    passes the loop, each one being undated or dated before the start date *)
Definition no_new_data (up : upstream) (tz : Z) (source_url chokepoint : string)
    (start_date : option string) (features : option (list feature)) : Prop :=
  exists start_epoch,
    fetch up tz source_url chokepoint start_date = Ok (start_epoch, features)
    /\ process_features tz start_epoch (default [] features) = Ok [].

(** [time_series.sort(key=lambda x: x['date'])]: a stable sort on the date
    strings *)
Fixpoint insert_by_date (r : daily_record) (l : list daily_record)
  : list daily_record :=
  match l with
  | [] => [r]
  | x :: l' =>
      if String.leb (dr_date r) (dr_date x) then r :: l
      else x :: insert_by_date r l'
  end.

Definition sort_by_date (l : list daily_record) : list daily_record :=
  foldr insert_by_date [] l.

(** the order of that sort *)
Definition date_le (a b : daily_record) : Prop :=
  String.le (dr_date a) (dr_date b).

(** the body of the [try] block *)
Definition collect_body (up : upstream) (tz now : Z)
    (source_url chokepoint variable : string) (start_date : option string)
  : result collected :=
'(start_epoch, features) ← fetch up tz source_url chokepoint start_date;
  match features with
  | None | Some [] =>
      Ok {| time_series := Some [];
            total_records := Some 0;
            date_range := Some (None, None);
            timestamp := Calendar.isoformat now ++ "Z";
            source := source_url;
            chokepoint := chokepoint;
            variable := variable;
            status := "success";
            note := Some "No new data available";
            error := None |}
  | Some features =>
      records ← process_features tz start_epoch features;
      let time_series := sort_by_date records in
      Ok {| time_series := Some time_series;
            total_records := Some (Z.of_nat (length time_series));
            date_range := Some (dr_date <$> head time_series,
                                dr_date <$> last time_series);
            timestamp := Calendar.isoformat now ++ "Z";
            source := source_url;
            chokepoint := chokepoint;
            variable := variable;
            status := "success";
            note := None;
            error := None |}
  end.

(** [collect]: every exception of the body is caught and reported in the
    returned dictionary *)
Definition collect (up : upstream) (tz now : Z)
    (source_url chokepoint variable : string) (start_date : option string)
  : collected :=
  match collect_body up tz now source_url chokepoint variable start_date with
  | Ok data => data
  | Raise e =>
      {| time_series := Some [];
         total_records := None;
         date_range := None;
         timestamp := Calendar.isoformat now ++ "Z";
         source := source_url;
         chokepoint := chokepoint;
         variable := variable;
         status := "error";
         note := None;
         error := Some (exn_str e) |}
  end.

End IMFPortWatchCollector.

(** ** The files on disk *)

(** the [breakdown] dictionary of a stored observation *)
Record breakdown : Type := mk_breakdown {
  b_container : option Z;
  b_dry_bulk : option Z;
  b_general_cargo : option Z;
  b_roro : option Z;
  b_tanker : option Z }.

(** an unpickled dictionary, by the keys the processor reads *)
Record stored_dict : Type := mk_stored_dict {
  sd_date : option string;
  sd_vessel_count : option Z;
  sd_breakdown : option breakdown;
  sd_collected_at : option string;
  sd_source : option string;
  sd_chokepoint : option string;
  sd_variable : option string;
  sd_status : option string }.

(** what [pickle.load] gives for a [.pckl] file *)
Inductive pickled : Type :=
| PDict (d : stored_dict)
| PNotDict.

(** [_metadata.json] *)
Record metadata : Type := mk_metadata {
  md_chokepoint : string;
  md_variable : string;
  md_latest_date : string;
  md_last_updated : string }.

(** [data/logistics/chokepoints/<chokepoint>/<variable>/]: the file
    [<stem>.pckl] is the entry [stem] of [files] *)
Record var_dir : Type := mk_var_dir {
  files : gmap string pickled;
  meta : option metadata }.

(** a directory the process may not enter makes [exists], [mkdir] and [open]
    raise [PermissionError] *)
Inductive dir_node : Type :=
| Dir (d : var_dir)
| Denied.

Abbreviation data_fs := (gmap (string * string) dir_node).

Definition empty_dir : var_dir := {| files := ∅; meta := None |}.

(** the stored value for a date, and the stored watermark *)
Definition stored (fs : data_fs) (c v d : string) : option pickled :=
  match fs !! (c, v) with
  | Some (Dir dir) => files dir !! d
  | _ => None
  end.

Definition watermark (fs : data_fs) (c v : string) : option metadata :=
  match fs !! (c, v) with
  | Some (Dir dir) => meta dir
  | _ => None
  end.

(** a file as [save_data] writes it for a day from 1000-01-01 on: a
    dictionary that carries the date of its ten-character name *)
Definition dated_file (p : string * pickled) : Prop :=
  String.length p.1 = 10%nat /\ Str.startswith "_" p.1 = false
  /\ exists sd, p.2 = PDict sd /\ sd_date sd = Some p.1.

(** the files of a variable are all of that kind *)
Definition dated_store (fs : data_fs) (c v : string) : Prop :=
  forall d x, stored fs c v d = Some x -> dated_file (d, x).

(** the day of the watermark's latest date, when that date parses *)
Definition latest_day (fs : data_fs) (c v : string) : option Z :=
  m ← watermark fs c v;
  t ← Calendar.strptime (md_latest_date m);
  Some (Calendar.toordinal t).

(** ** Configuration: src/logistics/chokepoints/<id>/state_variables.json *)

Record var_config : Type := mk_var_config { vc_source : option string }.

Inductive config_file : Type :=
| ConfigInvalid (msg : string)                       (* [json.load] fails *)
| ConfigDict (vars : list (string * var_config)).

(** the chokepoint directories that hold a configuration, in the order
    [iterdir] lists them *)
Abbreviation registry := (list (string * config_file)).

(** ** src/core/collector.py *)

Module DataCollector.
Local Open Scope Z_scope.
Import IMFPortWatchCollector.

Definition load_config (reg : registry) (chokepoint : string)
  : result (list (string * var_config)) :=
  match dict_get chokepoint reg with
  | None => Raise (FileNotFoundError ("Config not found: " ++ chokepoint))
  | Some (ConfigInvalid msg) => Raise (ValueError msg)
  | Some (ConfigDict vars) => Ok vars
  end.

(** the only registered collector is the IMF PortWatch one *)
Definition get_collector (source_url : string) : result unit :=
  let domain := Str.netloc source_url in
  if Str.contains "portwatch.imf.org" domain then Ok tt
  else Raise (ValueError ("No collector found for domain: " ++ domain)).

Definition _get_latest_date (fs : data_fs) (chokepoint variable : string)
  : result (option string) :=
  match fs !! (chokepoint, variable) with
  | Some Denied => Raise (PermissionError "Permission denied")
  | Some (Dir d) => Ok (md_latest_date <$> meta d)
  | None => Ok None
  end.

Definition _update_metadata (now : Z) (chokepoint variable latest_date : string)
  : metadata :=
  {| md_chokepoint := chokepoint;
     md_variable := variable;
     md_latest_date := latest_date;
     md_last_updated := Calendar.isoformat now ++ "Z" |}.

(** what [save_data] did: the stems of the files it wrote, in order, and
    the two counters it prints *)
Record save_report : Type := mk_save_report {
  writes : list string;
  saved_count : nat;
  skipped_count : nat }.

Definition no_writes : save_report :=
  {| writes := []; saved_count := 0; skipped_count := 0 |}.

Definition daily_data (chokepoint variable : string) (data : collected)
    (daily_record : daily_record) : pickled :=
  PDict {| sd_date := Some (dr_date daily_record);
           sd_vessel_count := Some (dr_vessel_count daily_record);
           sd_breakdown := Some
             {| b_container := Some (default 0 (dr_container daily_record));
                b_dry_bulk := Some (default 0 (dr_dry_bulk daily_record));
                b_general_cargo := Some (default 0 (dr_general_cargo daily_record));
                b_roro := Some (default 0 (dr_roro daily_record));
                b_tanker := Some (default 0 (dr_tanker daily_record)) |};
           sd_collected_at := Some (timestamp data);
           sd_source := Some (source data);
           sd_chokepoint := Some chokepoint;
           sd_variable := Some variable;
           sd_status := Some (status data) |}.

(** the collector's dictionary, pickled as it is *)
Definition raw_data (data : collected) : pickled :=
  PDict {| sd_date := None;
           sd_vessel_count := None;
           sd_breakdown := None;
           sd_collected_at := None;
           sd_source := Some (source data);
           sd_chokepoint := Some (chokepoint data);
           sd_variable := Some (variable data);
           sd_status := Some (status data) |}.

(** the loop over [time_series]: a date whose file exists is skipped *)
Fixpoint save_loop (chokepoint variable : string) (data : collected)
    (time_series : list daily_record) (fls : gmap string pickled)
    (rep : save_report) : gmap string pickled * save_report :=
  match time_series with
  | [] => (fls, rep)
  | daily_record :: rest =>
      let date_str := dr_date daily_record in
      match fls !! date_str with
      | Some _ =>
          save_loop chokepoint variable data rest fls
            {| writes := writes rep;
               saved_count := saved_count rep;
               skipped_count := S (skipped_count rep) |}
      | None =>
          save_loop chokepoint variable data rest
            (<[date_str := daily_data chokepoint variable data daily_record]> fls)
            {| writes := writes rep ++ [date_str];
               saved_count := S (saved_count rep);
               skipped_count := skipped_count rep |}
      end
  end.

(** [data_dir.mkdir(parents=True, exist_ok=True)]: the directory the files
    go to, empty when it is new *)
Definition mkdir (fs : data_fs) (chokepoint variable : string) : result var_dir :=
  match fs !! (chokepoint, variable) with
  | Some Denied => Raise (PermissionError "Permission denied")
  | Some (Dir d) => Ok d
  | None => Ok empty_dir
  end.

(** the body of [save_data], on the directory of the variable *)
Definition save_into (d : var_dir) (now : Z) (chokepoint variable : string)
    (data : collected) : var_dir * save_report :=
  match time_series data with
  | Some ((_ :: _) as time_series) =>
      let '(fls, rep) :=
        save_loop chokepoint variable data time_series (files d) no_writes in
      (* if time_series: self._update_metadata(..., time_series[-1]['date']) *)
      let meta' :=
        match last time_series with
        | Some r => Some (_update_metadata now chokepoint variable (dr_date r))
        | None => meta d
        end in
      ({| files := fls; meta := meta' |}, rep)
  | _ =>
      if default 0 (total_records data) =? 0
      then (d, no_writes)
      else
        let date_str := Calendar.strftime now in
        ({| files := <[date_str := raw_data data]> (files d); meta := meta d |},
         {| writes := [date_str]; saved_count := 0; skipped_count := 0 |})
  end.

Definition save_data (fs : data_fs) (now : Z) (chokepoint variable : string)
    (data : collected) : result (data_fs * save_report) :=
  d ← mkdir fs chokepoint variable;
  let '(d', rep) := save_into d now chokepoint variable data in
  Ok (<[(chokepoint, variable) := Dir d']> fs, rep).

(** a batch that takes the per-day branch or the no-new-data branch, never
    the one that pickles the collector's dictionary as it is *)
Definition per_day_only (data : collected) : Prop :=
  match time_series data with
  | Some (_ :: _) => True
  | _ => default 0 (total_records data) = 0
  end.

(** the start date of an incremental collection: the day after the
    watermark *)
Definition start_date_of (fs : data_fs) (chokepoint variable : string)
    (incremental : bool) : result (option string) :=
  if incremental then
    latest_date ← _get_latest_date fs chokepoint variable;
    match latest_date with
    | Some ((String _ _) as latest_date) =>
        match Calendar.strptime latest_date with
        | None =>
            Raise (ValueError ("time data does not match format: " ++ latest_date))
        | Some latest_dt =>
            match Calendar.add_days latest_dt 1 with
            | None => Raise (OverflowError "date value out of range")
            | Some next_day => Ok (Some (Calendar.strftime next_day))
            end
        end
    | _ => Ok None
    end
  else Ok None.

(** the configuration part of [collect]: the variable's source URL *)
Definition resolve (reg : registry) (chokepoint variable : string)
  : result string :=
  config ← load_config reg chokepoint;
  match dict_get variable config with
  | None =>
      Raise (ValueError ("Variable '" ++ variable ++ "' not found in config for "
                         ++ chokepoint))
  | Some variable_config =>
      match vc_source variable_config with
      | None => Raise (KeyError "source")
      | Some source_url => _ ← get_collector source_url; Ok source_url
      end
  end.

(** [collect]: [t_fetch] and [t_save] are the clock readings of the
    collector and of [save_data]. An exception leaves the files as they
    were: each one is raised before the first write. *)
Definition collect (reg : registry) (up : upstream) (tz t_fetch t_save : Z)
    (fs : data_fs) (chokepoint variable : string) (incremental : bool)
  : result (data_fs * collected * save_report) :=
  source_url ← resolve reg chokepoint variable;
  start_date ← start_date_of fs chokepoint variable incremental;
  let data :=
    IMFPortWatchCollector.collect up tz t_fetch source_url chokepoint variable
      start_date in
  '(fs', rep) ← save_data fs t_save chokepoint variable data;
  Ok (fs', data, rep).

End DataCollector.

(** ** src/core/backfill.py *)

Module BackfillManager.
Local Open Scope Z_scope.

(** [while current <= end: all_dates.append(...); current += timedelta(days=1)];
    the loop leaves through its test, [fuel] only bounds the recursion *)
Fixpoint date_loop (fuel : nat) (current end_ : Z) : result (list string) :=
  match fuel with
  | O => Ok []
  | S fuel' =>
      if current <=? end_ then
        match Calendar.add_days current 1 with
        | None => Raise (OverflowError "date value out of range")
        | Some next =>
            more ← date_loop fuel' next end_;
            Ok (Calendar.strftime current :: more)
        end
      else Ok []
  end.

Definition all_dates (start end_ : Z) : result (list string) :=
  date_loop (Z.to_nat ((end_ - start) / Calendar.US_PER_DAY + 1)) start end_.

(** [now] is the reading of [datetime.utcnow()] *)
Definition get_missing_dates (fs : data_fs) (now : Z)
    (chokepoint variable : string) (start_date : option string)
  : result (list string) :=
  start ← match start_date with
          | None =>
              match Calendar.add_days now (-30) with
              | Some start => Ok start
              | None => Raise (OverflowError "date value out of range")
              end
          | Some s =>
              match Calendar.strptime s with
              | Some start => Ok start
              | None => Raise (ValueError ("time data does not match format: " ++ s))
              end
          end;
  let end_ := now in
  all_dates ← all_dates start end_;
  match fs !! (chokepoint, variable) with
  | Some Denied => Raise (PermissionError "Permission denied")
  | None => Ok all_dates
  | Some (Dir d) =>
      Ok (filter (fun date_str => files d !! date_str = None) all_dates)
  end.

(** the loop over [config.keys()]: what was found before an exception stays
    in [missing_data] *)
Fixpoint scan_variables (fs : data_fs) (now : Z) (chokepoint_id : string)
    (variables : list string) (missing_data : gmap (string * string) (list string))
  : gmap (string * string) (list string) * option exn :=
  match variables with
  | [] => (missing_data, None)
  | variable_name :: rest =>
      match get_missing_dates fs now chokepoint_id variable_name None with
      | Raise e => (missing_data, Some e)
      | Ok missing =>
          scan_variables fs now chokepoint_id rest
            (match missing with
             | [] => missing_data
             | _ :: _ => <[(chokepoint_id, variable_name) := missing]> missing_data
             end)
      end
  end.

(** the [try] block of one chokepoint directory; the second component is the
    chokepoint whose error is printed, if any *)
Definition scan_chokepoint (fs : data_fs) (now : Z)
    (entry : string * config_file)
    (missing_data : gmap (string * string) (list string))
  : gmap (string * string) (list string) * list string :=
  let '(chokepoint_id, config) := entry in
  match config with
  | ConfigInvalid _ => (missing_data, [chokepoint_id])
  | ConfigDict vars =>
      match scan_variables fs now chokepoint_id vars.*1 missing_data with
      | (missing_data', None) => (missing_data', [])
      | (missing_data', Some _) => (missing_data', [chokepoint_id])
      end
  end.

Fixpoint scan_all (fs : data_fs) (now : Z) (reg : registry)
    (missing_data : gmap (string * string) (list string))
  : gmap (string * string) (list string) * list string :=
  match reg with
  | [] => (missing_data, [])
  | entry :: rest =>
      let '(missing_data', errs) := scan_chokepoint fs now entry missing_data in
      let '(missing_data'', errs') := scan_all fs now rest missing_data' in
      (missing_data'', (errs ++ errs')%list)
  end.

(** the mapping returned, and the chokepoints for which an error was
    printed *)
Definition get_all_missing_dates (reg : registry) (fs : data_fs) (now : Z)
  : gmap (string * string) (list string) * list string :=
  scan_all fs now reg ∅.

Definition needs_backfill (fs : data_fs) (now : Z) (chokepoint variable : string)
  : result bool :=
  missing ← get_missing_dates fs now chokepoint variable None;
  Ok (bool_decide (0 < length missing)%nat).

End BackfillManager.

(** ** The [csv] module, as far as the processor uses it *)

Module Csv.

Definition CRLF : string := String Str.CR (String Str.LF EmptyString).

Fixpoint needs_quote (s : string) : bool :=
  match s with
  | EmptyString => false
  | String c s' =>
      Ascii.eqb c Str.COMMA || Ascii.eqb c Str.DQUOTE || Ascii.eqb c Str.CR
      || Ascii.eqb c Str.LF || needs_quote s'
  end.

Fixpoint double_quotes (s : string) : string :=
  match s with
  | EmptyString => EmptyString
  | String c s' =>
      if Ascii.eqb c Str.DQUOTE
      then String c (String c (double_quotes s'))
      else String c (double_quotes s')
  end.

(** a field under [QUOTE_MINIMAL] *)
Definition field (s : string) : string :=
  if needs_quote s
  then String Str.DQUOTE (double_quotes s) ++ String Str.DQUOTE EmptyString
  else s.

(** [writer.writerow]: the line terminator is [\r\n] *)
Definition writerow (fields : list string) : string :=
  String.concat "," (field <$> fields) ++ CRLF.

(** [str(n)] *)
Definition str_int (n : Z) : string := NilZero.string_of_int (Z.to_int n).

(** reading in text mode: [\r\n] and [\r] become [\n] *)
Fixpoint universal_newlines (s : string) : string :=
  match s with
  | EmptyString => EmptyString
  | String c s' =>
      if Ascii.eqb c Str.CR then
        match s' with
        | String c' s'' =>
            if Ascii.eqb c' Str.LF then universal_newlines s'
            else String Str.LF (universal_newlines s')
        | EmptyString => String Str.LF EmptyString
        end
      else String c (universal_newlines s')
  end.

Inductive state : Type :=
| StartRecord | StartField | InField | InQuoted | QuoteInQuoted.

Definition snoc_char (s : string) (c : ascii) : string :=
  s ++ String c EmptyString.

(** [csv.reader]: the rows of the text, an empty line being an empty row *)
Fixpoint parse (st : state) (fld : string) (row : list string) (s : string)
  : list (list string) :=
  match s with
  | EmptyString =>
      match st with
      | StartRecord => []
      | _ => [(row ++ [fld])%list]
      end
  | String c s' =>
      if Ascii.eqb c Str.LF then
        match st with
        | StartRecord => [] :: parse StartRecord EmptyString [] s'
        | InQuoted => parse InQuoted (snoc_char fld c) row s'
        | _ => (row ++ [fld])%list :: parse StartRecord EmptyString [] s'
        end
      else if Ascii.eqb c Str.COMMA then
        match st with
        | InQuoted => parse InQuoted (snoc_char fld c) row s'
        | _ => parse StartField EmptyString (row ++ [fld])%list s'
        end
      else if Ascii.eqb c Str.DQUOTE then
        match st with
        | StartRecord | StartField => parse InQuoted fld row s'
        | InField => parse InField (snoc_char fld c) row s'
        | InQuoted => parse QuoteInQuoted fld row s'
        | QuoteInQuoted => parse InQuoted (snoc_char fld c) row s'
        end
      else
        match st with
        | InQuoted => parse InQuoted (snoc_char fld c) row s'
        | _ => parse InField (snoc_char fld c) row s'
        end
  end.

Definition reader (text : string) : list (list string) :=
  parse StartRecord EmptyString [] (universal_newlines text).

(** the position of a key of [dict(zip(fieldnames, row))]: the last column
    with that name *)
Fixpoint last_index (k : string) (fieldnames : list string) (i : nat)
  : option nat :=
  match fieldnames with
  | [] => None
  | f :: rest =>
      match last_index k rest (S i) with
      | Some j => Some j
      | None => if String.eqb f k then Some i else None
      end
  end.

End Csv.

(** ** src/core/processor.py *)

Module DataProcessor.
Local Open Scope Z_scope.

(** a flat row of the CSV; its keys, in order, are the field names *)
Record row : Type := mk_row {
  r_date : string;
  r_vessel_count : Z;
  r_container : Z;
  r_dry_bulk : Z;
  r_general_cargo : Z;
  r_roro : Z;
  r_tanker : Z;
  r_collected_at : string;
  r_chokepoint : string;
  r_variable : string }.

Definition fieldnames : list string :=
  ["date"; "vessel_count"; "container"; "dry_bulk"; "general_cargo"; "roro";
   "tanker"; "collected_at"; "chokepoint"; "variable"].

Definition row_values (r : row) : list string :=
  [r_date r; Csv.str_int (r_vessel_count r); Csv.str_int (r_container r);
   Csv.str_int (r_dry_bulk r); Csv.str_int (r_general_cargo r);
   Csv.str_int (r_roro r); Csv.str_int (r_tanker r); r_collected_at r;
   r_chokepoint r; r_variable r].

(** [writer.writeheader()] and [writer.writerows(all_data)] *)
Definition writeheader : string := Csv.writerow fieldnames.

Definition writerows (all_data : list row) : string :=
  String.concat "" (Csv.writerow <$> (row_values <$> all_data)).

(** [sorted(raw_dir.glob('*.pckl'))]: the files in the order of their names *)
Definition name_le (a b : string * pickled) : Prop :=
  String.le (a.1 ++ ".pckl") (b.1 ++ ".pckl").

#[global] Instance name_le_dec : RelDecision name_le.
Proof. intros a b. unfold name_le. apply _. Defined.

Definition pickle_files (d : var_dir) : list (string * pickled) :=
  merge_sort name_le (map_to_list (files d)).

Definition _get_processed_dates_from_csv (csv : string) : result (gset string) :=
  match Csv.reader csv with
  | [] => Ok ∅
  | header :: rows =>
      match filter (fun r => r ≠ []) rows with
      | [] => Ok ∅
      | rows =>
          match Csv.last_index "date" header O with
          | None => Raise (KeyError "date")
          | Some i => Ok (list_to_set (omap (fun r : list string => r !! i) rows))
          end
      end
  end.

(** the flat row of the first loop: missing keys take their defaults *)
Definition lenient_row (chokepoint variable date : string) (data : stored_dict)
  : row :=
  let b := default (mk_breakdown None None None None None) (sd_breakdown data) in
  {| r_date := date;
     r_vessel_count := default 0 (sd_vessel_count data);
     r_container := default 0 (b_container b);
     r_dry_bulk := default 0 (b_dry_bulk b);
     r_general_cargo := default 0 (b_general_cargo b);
     r_roro := default 0 (b_roro b);
     r_tanker := default 0 (b_tanker b);
     r_collected_at := default "" (sd_collected_at data);
     r_chokepoint := default chokepoint (sd_chokepoint data);
     r_variable := default variable (sd_variable data) |}.

(** the first loop: the rows of the new files and the names of the files
    skipped with a warning *)
Fixpoint new_rows (chokepoint variable : string) (processed_dates : gset string)
    (pickle_files : list (string * pickled)) : list row * list string :=
  match pickle_files with
  | [] => ([], [])
  | (date_str, data) :: rest =>
      let '(all_data, warnings) :=
        new_rows chokepoint variable processed_dates rest in
      if Str.startswith "_" date_str then (all_data, warnings)
      else if bool_decide (date_str ∈ processed_dates) then (all_data, warnings)
      else
        match data with
        | PDict d =>
            match sd_date d with
            | Some date =>
                (lenient_row chokepoint variable date d :: all_data, warnings)
            | None => (all_data, (date_str ++ ".pckl") :: warnings)
            end
        | PNotDict => (all_data, (date_str ++ ".pckl") :: warnings)
        end
  end.

(** [data[key]] *)
Definition item {A : Type} (key : string) (o : option A) : result A :=
  match o with
  | Some a => Ok a
  | None => Raise (KeyError key)
  end.

Definition as_dict (data : pickled) : result stored_dict :=
  match data with
  | PDict d => Ok d
  | PNotDict => Raise (TypeError "object is not subscriptable")
  end.

(** the row of the second loop: every key is indexed *)
Definition strict_row (data : pickled) : result row :=
  d ← as_dict data;
  date ← item "date" (sd_date d);
  vessel_count ← item "vessel_count" (sd_vessel_count d);
  b ← item "breakdown" (sd_breakdown d);
  container ← item "container" (b_container b);
  dry_bulk ← item "dry_bulk" (b_dry_bulk b);
  general_cargo ← item "general_cargo" (b_general_cargo b);
  roro ← item "roro" (b_roro b);
  tanker ← item "tanker" (b_tanker b);
  collected_at ← item "collected_at" (sd_collected_at d);
  chokepoint ← item "chokepoint" (sd_chokepoint d);
  variable ← item "variable" (sd_variable d);
  Ok {| r_date := date; r_vessel_count := vessel_count;
        r_container := container; r_dry_bulk := dry_bulk;
        r_general_cargo := general_cargo; r_roro := roro; r_tanker := tanker;
        r_collected_at := collected_at; r_chokepoint := chokepoint;
        r_variable := variable |}.

Fixpoint all_rows (pickle_files : list (string * pickled)) : result (list row) :=
  match pickle_files with
  | [] => Ok []
  | (date_str, data) :: rest =>
      if Str.startswith "_" date_str then all_rows rest
      else r ← strict_row data; more ← all_rows rest; Ok (r :: more)
  end.

(** the raw directory and its sorted pickle files *)
Definition raw_files (fs : data_fs) (chokepoint variable : string)
  : result (list (string * pickled)) :=
  match fs !! (chokepoint, variable) with
  | Some Denied => Raise (PermissionError "Permission denied")
  | None => Raise (FileNotFoundError "Raw data directory not found")
  | Some (Dir d) =>
      match pickle_files d with
      | [] => Raise (FileNotFoundError "No pickle files found")
      | fls => Ok fls
      end
  end.


(** what [process_to_csv] leaves: the CSV file, the record count of the
    processing metadata and the files skipped with a warning *)
Record csv_outcome : Type := mk_csv_outcome {
  csv_file : option string;
  record_count : nat;
  skipped : list string }.

(** [csv] is the content of the CSV file before the call, if it exists *)
Definition process_to_csv (fs : data_fs) (csv : option string)
    (chokepoint variable : string) (incremental : bool) : result csv_outcome :=
  pickle_files ← raw_files fs chokepoint variable;
  processed_dates ←
    match csv with
    | Some text => if incremental then _get_processed_dates_from_csv text else Ok ∅
    | None => Ok ∅
    end;
  let '(all_data, warnings) :=
    new_rows chokepoint variable processed_dates pickle_files in
  let new_count := length all_data in
  match csv with
  | Some text =>
      if incremental && bool_decide (0 < new_count)%nat then
        (* f.seek(-1, 2); last_char = f.read(1) *)
        match Str.last_char text with
        | None => Raise (OSError "[Errno 22] Invalid argument")
        | Some last_char =>
            let needs_newline := negb (Ascii.eqb last_char Str.LF) in
            Ok {| csv_file :=
                    Some (text
                          ++ (if needs_newline then String Str.LF EmptyString
                              else EmptyString)
                          ++ writerows all_data);
                  record_count := length all_data;
                  skipped := warnings |}
        end
      else
        match all_data with
        | _ :: _ =>
            if negb incremental then
              all_data ← all_rows pickle_files;
              Ok {| csv_file :=
                      Some (match all_data with
                            | [] => EmptyString
                            | _ :: _ => writeheader ++ writerows all_data
                            end);
                    record_count := length all_data;
                    skipped := warnings |}
            else
              Ok {| csv_file := Some (writeheader ++ writerows all_data);
                    record_count := length all_data;
                    skipped := warnings |}
        | [] =>
            Ok {| csv_file := csv; record_count := 0; skipped := warnings |}
        end
  | None =>
      match all_data with
      | _ :: _ =>
          all_data ← all_rows pickle_files;
          Ok {| csv_file :=
                  Some (match all_data with
                        | [] => EmptyString
                        | _ :: _ => writeheader ++ writerows all_data
                        end);
                record_count := length all_data;
                skipped := warnings |}
      | [] => Ok {| csv_file := None; record_count := 0; skipped := warnings |}
      end
  end.

(** one entry of the JSON output *)
Record json_record : Type := mk_json_record {
  j_date : string;
  j_vessel_count : Z;
  j_breakdown : breakdown;
  j_collected_at : string }.

Inductive json_output : Type :=
| Records (total_records : nat) (date_range : option string * option string)
          (data : list json_record)
| Timeseries (total_records : nat) (timeseries : gmap string json_record).

(** the entry of the records format: the keys of the dictionary display are
    read in the order they are written, [date] first *)
Definition json_entry (data : pickled) : result json_record :=
  d ← as_dict data;
  date ← item "date" (sd_date d);
  vessel_count ← item "vessel_count" (sd_vessel_count d);
  b ← item "breakdown" (sd_breakdown d);
  collected_at ← item "collected_at" (sd_collected_at d);
  Ok {| j_date := date; j_vessel_count := vessel_count; j_breakdown := b;
        j_collected_at := collected_at |}.

Fixpoint json_entries (pickle_files : list (string * pickled))
  : result (list json_record) :=
  match pickle_files with
  | [] => Ok []
  | (date_str, data) :: rest =>
      if Str.startswith "_" date_str then json_entries rest
      else e ← json_entry data; more ← json_entries rest; Ok (e :: more)
  end.

(** the entry of the timeseries format, under its key [j_date]: in
    [timeseries[data['date']] = {...}] the dictionary on the right is
    evaluated before the subscript [data['date']] on the left *)
Definition timeseries_entry (data : pickled) : result json_record :=
  d ← as_dict data;
  vessel_count ← item "vessel_count" (sd_vessel_count d);
  b ← item "breakdown" (sd_breakdown d);
  collected_at ← item "collected_at" (sd_collected_at d);
  date ← item "date" (sd_date d);
  Ok {| j_date := date; j_vessel_count := vessel_count; j_breakdown := b;
        j_collected_at := collected_at |}.

(** the loop of the timeseries format: a later file of the same date
    replaces the entry *)
Fixpoint timeseries_entries (pickle_files : list (string * pickled))
    (timeseries : gmap string json_record) : result (gmap string json_record) :=
  match pickle_files with
  | [] => Ok timeseries
  | (date_str, data) :: rest =>
      if Str.startswith "_" date_str then timeseries_entries rest timeseries
      else
        e ← timeseries_entry data;
        timeseries_entries rest (<[j_date e := e]> timeseries)
  end.

(** the object written to the JSON file and the record count of the
    processing metadata *)
Definition process_to_json (fs : data_fs) (chokepoint variable format : string)
  : result (json_output * nat) :=
  pickle_files ← raw_files fs chokepoint variable;
  if String.eqb format "records" then
    all_data ← json_entries pickle_files;
    Ok (Records (length all_data)
          (j_date <$> head all_data, j_date <$> last all_data) all_data,
        length pickle_files)
  else
    timeseries ← timeseries_entries pickle_files ∅;
    Ok (Timeseries (size timeseries) timeseries, length pickle_files).

End DataProcessor.

(** ** Runs of [collect] *)

(** one invocation of [collect]: the upstream it meets, its clock readings
    and its arguments *)
Record call : Type := mk_call {
  call_up : IMFPortWatchCollector.upstream;
  call_t_fetch : Z;
  call_t_save : Z;
  call_chokepoint : string;
  call_variable : string;
  call_incremental : bool }.

(** A run threads the files through successive calls and records every
    file written as (chokepoint, variable, date); a call that raises leaves
    the files as they were. *)
Definition run_step (reg : registry) (tz : Z)
    (st : data_fs * list (string * string * string)) (c : call)
  : data_fs * list (string * string * string) :=
  match DataCollector.collect reg (call_up c) tz (call_t_fetch c) (call_t_save c)
          st.1 (call_chokepoint c) (call_variable c) (call_incremental c) with
  | Ok (fs', _, rep) =>
      (fs', (st.2 ++ ((fun d => (call_chokepoint c, call_variable c, d))
                        <$> DataCollector.writes rep))%list)
  | Raise _ => st
  end.

Definition run_collects (reg : registry) (tz : Z) (fs : data_fs)
    (calls : list call) : data_fs * list (string * string * string) :=
  foldl (run_step reg tz) (fs, []) calls.

(** ** src/core/collector.py: reading a stored file back *)

(** [load_data]: the file of the given date or, without a date, the first
    of [sorted(data_dir.glob('*.pckl'), reverse=True)]; the names of a
    directory are distinct, so that order is the ascending one reversed *)
Definition load_data (fs : data_fs) (chokepoint variable : string)
    (date : option string) : result pickled :=
  match fs !! (chokepoint, variable) with
  | Some Denied => Raise (PermissionError "Permission denied")
  | None => Raise (FileNotFoundError "Data directory not found")
  | Some (Dir d) =>
      match date with
      | None =>
          match reverse (DataProcessor.pickle_files d) with
          | [] => Raise (FileNotFoundError "No data files found")
          | (_, data) :: _ => Ok data
          end
      | Some date =>
          match files d !! date with
          | None => Raise (FileNotFoundError "Data file not found")
          | Some data => Ok data
          end
      end
  end.

(** [key in d] *)
Definition has {A : Type} (o : option A) : bool :=
  match o with Some _ => true | None => false end.

(** an unpickled dictionary that has every key the processor indexes *)
Definition complete (data : stored_dict) : bool :=
  has (sd_date data) && has (sd_vessel_count data)
  && match sd_breakdown data with
     | Some b =>
         has (b_container b) && has (b_dry_bulk b) && has (b_general_cargo b)
         && has (b_roro b) && has (b_tanker b)
     | None => false
     end
  && has (sd_collected_at data) && has (sd_chokepoint data)
  && has (sd_variable data).

(** a file as the per-day branch of [save_data] writes it for a record of
    the collector: named by a formatted date, with every key *)
Definition observation_file (p : string * pickled) : Prop :=
  (exists t, p.1 = Calendar.strftime t)
  /\ exists sd, p.2 = PDict sd /\ sd_date sd = Some p.1 /\ complete sd = true.

Definition observation_store (fs : data_fs) (c v : string) : Prop :=
  forall d x, stored fs c v d = Some x -> observation_file (d, x).

(** ** processed/logistics/chokepoints/<chokepoint>/<variable>/ *)

(** one entry of [_processing_metadata.json] *)
Record processing_entry : Type := mk_processing_entry {
  pe_last_processed : string;
  pe_record_count : nat }.

(** [_processing_metadata.json]: a file [json.load] or the item assignment
    fails on, or a dictionary from formats to entries *)
Inductive metadata_file : Type :=
| MetadataUnusable (e : exn)
| MetadataDict (m : gmap string processing_entry).

(** the files of the directory: [<variable>.csv], [<variable>.json] and the
    processing metadata *)
Record processed_dir : Type := mk_processed_dir {
  csv_path : option string;
  json_path : option DataProcessor.json_output;
  metadata_path : option metadata_file }.

Abbreviation processed_fs := (gmap (string * string) processed_dir).

Definition no_output : processed_dir :=
  {| csv_path := None; json_path := None; metadata_path := None |}.

(** the directory of a variable, as [mkdir(parents=True, exist_ok=True)]
    leaves it *)
Definition output_of (out : processed_fs) (c v : string) : processed_dir :=
  default no_output (out !! (c, v)).

(** the CSV holds the header and one row for each stored file *)
Definition in_sync (fs : data_fs) (c v : string) (csv : option string) : Prop :=
  match csv with
  | None => True
  | Some text =>
      exists rows,
        text = DataProcessor.writeheader ++ DataProcessor.writerows rows
        /\ NoDup (DataProcessor.r_date <$> rows)
        /\ forall r, r ∈ rows <->
             exists sd, stored fs c v (DataProcessor.r_date r) = Some (PDict sd)
                        /\ r = DataProcessor.lenient_row c v (DataProcessor.r_date r) sd
  end.

(** ** src/core/processor.py on the files of the processed directory *)

Module Processed.

(** [now] is the reading of [datetime.utcnow()] *)
Definition _update_processing_metadata (now : Z) (existing : option metadata_file)
    (format : string) (record_count : nat) : result metadata_file :=
  metadata ← match existing with
             | Some (MetadataUnusable e) => Raise e
             | Some (MetadataDict m) => Ok m
             | None => Ok ∅
             end;
  Ok (MetadataDict
        (<[format := {| pe_last_processed := Calendar.isoformat now ++ "Z";
                        pe_record_count := record_count |}]> metadata)).

(** [process_to_csv]: the CSV is written before the metadata is updated, an
    exception of the rendering leaves every file as it was *)
Definition process_to_csv (now : Z) (fs : data_fs) (p : processed_dir)
    (chokepoint variable : string) (incremental : bool)
  : processed_dir * result DataProcessor.csv_outcome :=
  match DataProcessor.process_to_csv fs (csv_path p) chokepoint variable
          incremental with
  | Raise e => (p, Raise e)
  | Ok out =>
      let p' := {| csv_path := DataProcessor.csv_file out;
                   json_path := json_path p;
                   metadata_path := metadata_path p |} in
      match _update_processing_metadata now (metadata_path p) "csv"
              (DataProcessor.record_count out) with
      | Raise e => (p', Raise e)
      | Ok metadata =>
          ({| csv_path := DataProcessor.csv_file out;
              json_path := json_path p;
              metadata_path := Some metadata |}, Ok out)
      end
  end.

Definition process_to_json (now : Z) (fs : data_fs) (p : processed_dir)
    (chokepoint variable format : string)
  : processed_dir * result DataProcessor.json_output :=
  match DataProcessor.process_to_json fs chokepoint variable format with
  | Raise e => (p, Raise e)
  | Ok (output, record_count) =>
      let p' := {| csv_path := csv_path p;
                   json_path := Some output;
                   metadata_path := metadata_path p |} in
      match _update_processing_metadata now (metadata_path p) "json"
              record_count with
      | Raise e => (p', Raise e)
      | Ok metadata =>
          ({| csv_path := csv_path p;
              json_path := Some output;
              metadata_path := Some metadata |}, Ok output)
      end
  end.

End Processed.

(** ** src/scheduler.py *)

(** the raw and the processed files *)
Record world : Type := mk_world {
  raw : data_fs;
  processed : processed_fs }.

(** every stored file is an observation and every CSV that exists is in
    step with the files of its variable *)
Definition consistent (w : world) : Prop :=
  forall c v,
    observation_store (raw w) c v
    /\ in_sync (raw w) c v (csv_path (output_of (processed w) c v)).

(** what a job meets when it runs: the upstream and the clock readings of
    the collector, of [save_data] and of the processor *)
Record job_env : Type := mk_job_env {
  env_up : IMFPortWatchCollector.upstream;
  env_t_fetch : Z;
  env_t_save : Z;
  env_t_process : Z }.

Module CollectionScheduler.

(** [load_all_configs]: a configuration that cannot be loaded is reported
    and left out *)
Definition load_all_configs (reg : registry)
  : list (string * string * var_config) :=
  reg ≫= (fun '(chokepoint_id, config) =>
            match config with
            | ConfigInvalid _ => []
            | ConfigDict vars =>
                (fun '(variable_name, variable_config) =>
                   (chokepoint_id, variable_name, variable_config)) <$> vars
            end).

(** [collect_data]: collect, then render to CSV, both with their default
    [incremental=True]; every exception is caught and printed *)
Definition collect_data (reg : registry) (tz : Z) (env : job_env) (w : world)
    (chokepoint variable : string) : world :=
  match DataCollector.collect reg (env_up env) tz (env_t_fetch env)
          (env_t_save env) (raw w) chokepoint variable true with
  | Raise _ => w
  | Ok (fs', _, _) =>
      let '(p', _) :=
        Processed.process_to_csv (env_t_process env) fs'
          (output_of (processed w) chokepoint variable) chokepoint variable true in
      {| raw := fs';
         processed := <[(chokepoint, variable) := p']> (processed w) |}
  end.

(** [run_once_now]: the configurations are loaded once, then every job
    runs; [env] gives what the job of a variable meets *)
Definition run_once_now (reg : registry) (tz : Z)
    (env : string -> string -> job_env) (w : world) : world :=
  foldl (fun w '(chokepoint, variable, _) =>
           collect_data reg tz (env chokepoint variable) w chokepoint variable)
        w (load_all_configs reg).

End CollectionScheduler.

(** ** src/main.py *)

Module Main.

(** [main]: the files after the call and the exit status *)
Definition main (reg : registry) (up : IMFPortWatchCollector.upstream)
    (tz t_fetch t_save : Z) (fs : data_fs) (chokepoint variable : string)
  : data_fs * Z :=
  match DataCollector.collect reg up tz t_fetch t_save fs chokepoint variable
          true with
  | Ok (fs', _, _) => (fs', 0%Z)
  | Raise _ => (fs, 1%Z)
  end.

End Main.

(** ** src/process_data.py *)

Module ProcessData.

(** [--format] *)
Inductive output_format : Type := csv | json | both.

Record args : Type := mk_args {
  arg_chokepoint : string;
  arg_variable : string;
  arg_format : output_format;
  arg_incremental : bool;
  arg_full : bool }.

(** [main]: the processed files after the call and the exit status;
    [t_csv] and [t_json] are the clock readings of the two renderings *)
Definition main (t_csv t_json : Z) (fs : data_fs) (p : processed_dir)
    (a : args) : processed_dir * Z :=
  let '(p1, r1) :=
    match arg_format a with
    | csv | both =>
        let incremental := arg_incremental a && negb (arg_full a) in
        let '(p1, r) :=
          Processed.process_to_csv t_csv fs p (arg_chokepoint a)
            (arg_variable a) incremental in
        (p1, _ ← r; Ok tt)
    | json => (p, Ok tt)
    end in
  match r1 with
  | Raise _ => (p1, 1%Z)
  | Ok _ =>
      match arg_format a with
      | json | both =>
          let '(p2, r) :=
            Processed.process_to_json t_json fs p1 (arg_chokepoint a)
              (arg_variable a) "records" in
          (p2, match r with Ok _ => 0%Z | Raise _ => 1%Z end)
      | csv => (p1, 0%Z)
      end
  end.

End ProcessData.

(** ** Concrete inputs used in the examples below *)

Module Scenario.
Local Open Scope Z_scope.

Definition cp : string := "suez-canal".
Definition var : string := "vessel_arrivals".
Definition url : string := "https://portwatch.imf.org/pages/suez-canal".

Definition reg : registry :=
  [(cp, ConfigDict [(var, {| vc_source := Some url |})])].

(** a record of a batch and the observation stored for it *)
Definition record (date : string) (n : Z) : daily_record :=
  {| dr_date := date; dr_year := None; dr_month := None; dr_day := None;
     dr_vessel_count := n; dr_container := Some 0; dr_dry_bulk := Some 0;
     dr_general_cargo := Some 0; dr_roro := Some 0; dr_tanker := Some n |}.

Definition batch (records : list daily_record) : collected :=
  {| time_series := Some records;
     total_records := Some (Z.of_nat (length records));
     date_range := Some (dr_date <$> head records, dr_date <$> last records);
     timestamp := "2024-01-07T06:00:00Z";
     source := url; chokepoint := cp; variable := var;
     status := "success"; note := None; error := None |}.

Definition observation (date : string) (n : Z) : pickled :=
  DataCollector.daily_data cp var (batch []) (record date n).

Definition dir_of (dates : list (string * Z)) (latest : option string) : var_dir :=
  {| files := list_to_map ((fun '(d, n) => (d, observation d n)) <$> dates);
     meta := (fun d => {| md_chokepoint := cp; md_variable := var;
                          md_latest_date := d;
                          md_last_updated := "2024-01-07T06:00:00Z" |}) <$> latest |}.

Definition fs_of (dates : list (string * Z)) (latest : option string) : data_fs :=
  {[ (cp, var) := Dir (dir_of dates latest) ]}.

(** the query the page issues for the chokepoint *)
Definition query_url : string :=
  "https://services9.arcgis.com/Daily_Chokepoints_Data/FeatureServer/0/query?f=pbf&where=portid%3D%27chokepoint1%27".

(** an upstream that answers with the given features, one that has nothing
    to report and one whose query times out *)
Definition upstream_with (features : list IMFPortWatchCollector.feature)
  : IMFPortWatchCollector.upstream :=
  {| IMFPortWatchCollector.page_requests := fun _ => Some [query_url];
     IMFPortWatchCollector.http_get :=
       fun _ => IMFPortWatchCollector.JsonBody (Some features) |}.

Definition quiet_upstream : IMFPortWatchCollector.upstream := upstream_with [].

Definition timeout_upstream : IMFPortWatchCollector.upstream :=
  {| IMFPortWatchCollector.page_requests := fun _ => Some [query_url];
     IMFPortWatchCollector.http_get :=
       fun _ => IMFPortWatchCollector.RequestFailed "Read timed out." |}.

(** the feature of a day, given by its ordinal, at midnight UTC *)
Definition feature_on (ord n : Z) : IMFPortWatchCollector.feature :=
  {| IMFPortWatchCollector.attributes :=
       Some {| IMFPortWatchCollector.at_date :=
                 Some ((ord - Calendar.EPOCH_ORDINAL) * 86400000);
               IMFPortWatchCollector.at_year := None;
               IMFPortWatchCollector.at_month := None;
               IMFPortWatchCollector.at_day := None;
               IMFPortWatchCollector.at_n_total := Some n;
               IMFPortWatchCollector.at_n_container := None;
               IMFPortWatchCollector.at_n_dry_bulk := None;
               IMFPortWatchCollector.at_n_general_cargo := None;
               IMFPortWatchCollector.at_n_roro := None;
               IMFPortWatchCollector.at_n_tanker := Some n |} |}.

(** a collector's dictionary that reports a total but no series: [save_data]
    pickles it as it is, under the date of the day *)
Definition summary_only : collected :=
  {| time_series := Some [];
     total_records := Some 12;
     date_range := None;
     timestamp := "2024-01-08T06:00:00Z";
     source := url; chokepoint := cp; variable := var;
     status := "success"; note := None; error := None |}.

(** 2024-01-03T06:00:00 *)
Definition jan3 : Z := Calendar.midnight 738888 + 6 * 3600 * Calendar.US_PER_SECOND.

(** 2024-01-08T06:00:00 *)
Definition jan8 : Z := Calendar.midnight 738893 + 6 * 3600 * Calendar.US_PER_SECOND.

(** two chokepoints, the first with three variables; the directory of its
    second variable cannot be entered *)
Definition reg3 : registry :=
  [(cp, ConfigDict [(var, {| vc_source := Some url |});
                    ("transit_status", {| vc_source := Some url |});
                    ("wait_time", {| vc_source := Some url |})]);
   ("panama-canal", ConfigDict [(var, {| vc_source := Some url |})])].

Definition fs_denied : data_fs := {[ (cp, "transit_status") := Denied ]}.

(** the 31 dates from 2023-12-09 to 2024-01-08 *)
Definition last_31_days : list string :=
  Eval vm_compute in
    match BackfillManager.all_dates (Calendar.midnight 738863 + 6 * 3600 * 1000000)
            (Calendar.midnight 738893 + 6 * 3600 * 1000000) with
    | Ok l => l
    | Raise _ => []
    end.

(** the files after one good day has been stored and [summary_only] has
    been saved on 2024-01-08 *)
Definition fs_with_raw : data_fs :=
  match DataCollector.save_data (fs_of [("2024-01-05", 3)] (Some "2024-01-05"))
          jan8 cp var summary_only with
  | Ok (fs', _) => fs'
  | Raise _ => ∅
  end.

(** the row the processor renders for a stored observation *)
Definition row_of (date : string) (n : Z) : DataProcessor.row :=
  {| DataProcessor.r_date := date; DataProcessor.r_vessel_count := n;
     DataProcessor.r_container := 0; DataProcessor.r_dry_bulk := 0;
     DataProcessor.r_general_cargo := 0; DataProcessor.r_roro := 0;
     DataProcessor.r_tanker := n;
     DataProcessor.r_collected_at := "2024-01-07T06:00:00Z";
     DataProcessor.r_chokepoint := cp; DataProcessor.r_variable := var |}.

(** a CSV that holds the row of 2024-01-05 *)
Definition csv_jan5 : string :=
  DataProcessor.writeheader
  ++ DataProcessor.writerows
       [DataProcessor.lenient_row cp var "2024-01-05"
          {| sd_date := Some "2024-01-05"; sd_vessel_count := Some 3;
             sd_breakdown := None; sd_collected_at := Some "2024-01-07T06:00:00Z";
             sd_source := None; sd_chokepoint := None; sd_variable := None;
             sd_status := None |}].


(** a world without files, and what a job meets on 2024-01-08 when the
    upstream answers with the given features *)
Definition fresh : world := {| raw := ∅; processed := ∅ |}.

Definition env_with (features : list IMFPortWatchCollector.feature) : job_env :=
  {| env_up := upstream_with features;
     env_t_fetch := jan8; env_t_save := jan8; env_t_process := jan8 |}.

End Scenario.

(** * Properties *)

(** ** The calendar *)

Section CalendarFacts.
Import Calendar.
Local Open Scope Z_scope.

Lemma days_before_year_cycles a b c e :
  0 <= b -> 0 <= c -> 0 <= e <= 3 -> 4 * c + e <= 99 -> 100 * b + 4 * c + e <= 399 ->
  days_before_year (400 * a + 100 * b + 4 * c + e + 1)
  = 146097 * a + 36524 * b + 1461 * c + 365 * e.
Proof.
  intros. unfold days_before_year. cbv zeta.
  replace (400 * a + 100 * b + 4 * c + e + 1 - 1) with (400 * a + 100 * b + 4 * c + e) by lia.
  Z.div_mod_to_equations. lia.
Qed.

Lemma days_in_month_range y m : 28 <= days_in_month y m <= 31.
Proof.
  unfold days_in_month.
  destruct (m =? 2); [destruct (is_leap y); lia|].
  destruct ((m =? 4) || (m =? 6) || (m =? 9) || (m =? 11)); lia.
Qed.

Lemma days_before_month_succ y m :
  1 <= m -> days_before_month y (m + 1) = days_before_month y m + days_in_month y m.
Proof.
  intros Hm. unfold days_before_month.
  replace (Z.to_nat (m + 1 - 1)) with (S (Z.to_nat (m - 1))) by lia.
  cbn [days_of_months]. do 2 f_equal. lia.
Qed.

Lemma month_scan_spec y fuel : forall m r m' r',
  1 <= m -> 0 <= r ->
  r < days_before_month y (m + Z.of_nat fuel + 1) - days_before_month y m ->
  month_scan y m fuel r = (m', r') ->
  m <= m' <= m + Z.of_nat fuel /\ 0 <= r' < days_in_month y m'
  /\ days_before_month y m' + r' = days_before_month y m + r.
Proof.
  induction fuel as [|fuel IH]; intros m r m' r' Hm Hr Hlt; cbn [month_scan].
  - intros [= <- <-]. replace (m + Z.of_nat 0 + 1) with (m + 1) in Hlt by lia.
    rewrite days_before_month_succ in Hlt by lia. lia.
  - cbv zeta. destruct (Z.ltb_spec r (days_in_month y m)) as [Hin|Hout].
    + intros [= <- <-]. lia.
    + intros Hscan.
      assert (Hlt' : r - days_in_month y m
                     < days_before_month y (m + 1 + Z.of_nat fuel + 1)
                       - days_before_month y (m + 1)).
      { rewrite (days_before_month_succ y m) by lia.
        replace (m + 1 + Z.of_nat fuel + 1) with (m + Z.of_nat (S fuel) + 1) by lia.
        lia. }
      pose proof (IH (m + 1) (r - days_in_month y m) m' r' ltac:(lia) ltac:(lia) Hlt' Hscan) as (? & ? & Heq).
      rewrite days_before_month_succ in Heq by lia. lia.
Qed.

Lemma year_length y :
  days_before_month y 13 = if is_leap y then 366 else 365.
Proof.
  unfold days_before_month. change (Z.to_nat (13 - 1)) with 12%nat.
  cbn [days_of_months]. unfold days_in_month.
  destruct (is_leap y); reflexivity.
Qed.

Lemma is_leap_cycles a b c e :
  0 <= b <= 3 -> 0 <= c <= 24 -> 0 <= e <= 3 ->
  is_leap (400 * a + 100 * b + 4 * c + e + 1)
  = (e =? 3) && (negb (c =? 24) || (b =? 3)).
Proof.
  intros. unfold is_leap.
  repeat match goal with
         | |- context [?x =? ?y] => destruct (Z.eqb_spec x y)
         end; cbn; try reflexivity; exfalso; Z.div_mod_to_equations; lia.
Qed.

Lemma ord2ymd_spec n y m d :
  1 <= n <= MAXORDINAL -> ord2ymd n = (y, m, d) ->
  1 <= y <= 9999 /\ 1 <= m <= 12 /\ 1 <= d <= days_in_month y m
  /\ ymd2ord y m d = n.
Proof.
  unfold MAXORDINAL, ord2ymd. cbv zeta. intros Hn.
  pose proof (Z.div_mod (n - 1) 146097 ltac:(lia)) as E400.
  pose proof (Z.mod_pos_bound (n - 1) 146097 ltac:(lia)) as B400.
  set (n400 := (n - 1) / 146097) in *. set (r400 := (n - 1) mod 146097) in *.
  pose proof (Z.div_mod r400 36524 ltac:(lia)) as E100.
  pose proof (Z.mod_pos_bound r400 36524 ltac:(lia)) as B100.
  set (n100 := r400 / 36524) in *. set (r100 := r400 mod 36524) in *.
  pose proof (Z.div_mod r100 1461 ltac:(lia)) as E4.
  pose proof (Z.mod_pos_bound r100 1461 ltac:(lia)) as B4.
  set (n4 := r100 / 1461) in *. set (r4 := r100 mod 1461) in *.
  pose proof (Z.div_mod r4 365 ltac:(lia)) as E1.
  pose proof (Z.mod_pos_bound r4 365 ltac:(lia)) as B1.
  set (n1 := r4 / 365) in *. set (r1 := r4 mod 365) in *.
  clearbody n400 r400 n100 r100 n4 r4 n1 r1.
  assert (0 <= n400 <= 24) by lia.
  assert (0 <= n100 <= 4) by lia.
  assert (0 <= n4 <= 24) by lia.
  assert (0 <= n1 <= 4) by lia.
  destruct (Z.eqb_spec n1 4) as [Hn1|Hn1]; [|destruct (Z.eqb_spec n100 4) as [Hn100|Hn100]];
    cbn [orb].
  - intros [= <- <- <-].
    assert (n100 <= 3 /\ n4 <= 23) as [? ?] by lia.
    replace (n400 * 400 + 1 + n100 * 100 + n4 * 4 + n1 - 1)
      with (400 * n400 + 100 * n100 + 4 * n4 + 3 + 1) by lia.
    unfold ymd2ord. rewrite days_before_year_cycles by lia.
    assert (Hdim : days_in_month (400 * n400 + 100 * n100 + 4 * n4 + 3 + 1) 12 = 31)
      by reflexivity.
    pose proof (days_before_month_succ (400 * n400 + 100 * n100 + 4 * n4 + 3 + 1) 12
                  ltac:(lia)) as Hs.
    change (12 + 1) with 13 in Hs. rewrite year_length, Hdim in Hs.
    rewrite is_leap_cycles in Hs by lia.
    replace (3 =? 3) with true in Hs by reflexivity.
    destruct (Z.eqb_spec n4 24); [lia|]. cbn in Hs. rewrite Hdim. lia.
  - intros [= <- <- <-].
    assert (n4 = 0 /\ n1 = 0 /\ r1 = 0) as (-> & -> & ->) by lia. subst n100.
    replace (n400 * 400 + 1 + 4 * 100 + 0 * 4 + 0 - 1)
      with (400 * n400 + 100 * 3 + 4 * 24 + 3 + 1) by lia.
    unfold ymd2ord. rewrite days_before_year_cycles by lia.
    assert (Hdim : days_in_month (400 * n400 + 100 * 3 + 4 * 24 + 3 + 1) 12 = 31)
      by reflexivity.
    pose proof (days_before_month_succ (400 * n400 + 100 * 3 + 4 * 24 + 3 + 1) 12
                  ltac:(lia)) as Hs.
    change (12 + 1) with 13 in Hs. rewrite year_length, Hdim in Hs.
    rewrite is_leap_cycles in Hs by lia. cbn in Hs. rewrite Hdim. lia.
  - replace (n400 * 400 + 1 + n100 * 100 + n4 * 4 + n1)
      with (400 * n400 + 100 * n100 + 4 * n4 + n1 + 1) by lia.
    pose proof (days_before_year_cycles n400 n100 n4 n1 ltac:(lia) ltac:(lia)
                  ltac:(lia) ltac:(lia) ltac:(lia)) as Hy.
    set (year := 400 * n400 + 100 * n100 + 4 * n4 + n1 + 1) in *.
    destruct (month_scan year 1 11 r1) as [m0 r0] eqn:Hscan.
    intros [= <- <- <-].
    assert (Hlen : r1 < days_before_month year (1 + Z.of_nat 11 + 1)
                        - days_before_month year 1).
    { change (1 + Z.of_nat 11 + 1) with 13. rewrite year_length.
      change (days_before_month year 1) with 0. destruct (is_leap year); lia. }
    pose proof (month_scan_spec year 11 1 r1 m0 r0 ltac:(lia) ltac:(lia) Hlen Hscan)
      as (Hm & Hr & Heq).
    change (days_before_month year 1) with 0 in Heq.
    unfold ymd2ord. rewrite Hy. unfold year in *. lia.
Qed.

Lemma digit_cases d :
  let k := d mod 10 in
  k = 0 \/ k = 1 \/ k = 2 \/ k = 3 \/ k = 4 \/ k = 5 \/ k = 6 \/ k = 7 \/ k = 8 \/ k = 9.
Proof. cbv zeta. pose proof (Z.mod_pos_bound d 10 ltac:(lia)). lia. Qed.

Lemma digit_val_char d : digit_val (digit_char d) = Some (d mod 10).
Proof.
  unfold digit_char. pose proof (digit_cases d) as H. cbv zeta in H.
  repeat destruct H as [H|H]; rewrite H; reflexivity.
Qed.

Lemma digit_char_not_sep d (c : ascii) :
  c = "-"%char \/ c = " "%char -> Ascii.eqb (digit_char d) c = false.
Proof.
  unfold digit_char. pose proof (digit_cases d) as H. cbv zeta in H.
  intros [-> | ->]; repeat destruct H as [H|H]; rewrite H; reflexivity.
Qed.

Lemma parse_year_pad4 y : 0 <= y <= 9999 -> parse_year (pad4 y) = Some y.
Proof.
  intros Hy. unfold pad4, pad2, parse_year. rewrite !digit_val_char. cbn.
  f_equal. Z.div_mod_to_equations. lia.
Qed.

Lemma parse_upto_pad2 hi sp v :
  1 <= v <= hi -> hi <= 99 -> parse_upto hi sp (pad2 v) = Some v.
Proof.
  intros Hv Hhi. unfold pad2, parse_upto.
  rewrite digit_char_not_sep by auto. rewrite andb_false_r.
  rewrite !digit_val_char. cbn.
  replace ((v / 10) `mod` 10 * 10 + v `mod` 10) with v
    by (Z.div_mod_to_equations; lia).
  destruct (Z.leb_spec 1 v); [|lia]. destruct (Z.leb_spec v hi); [|lia]. reflexivity.
Qed.

Lemma split_on_date y m d :
  Str.split_on "-" (pad4 y ++ "-" ++ pad2 m ++ "-" ++ pad2 d)
  = [pad4 y; pad2 m; pad2 d].
Proof.
  unfold pad4, pad2. cbv [String.append]. cbn [Str.split_on].
  rewrite !digit_char_not_sep by auto. reflexivity.
Qed.

Lemma days_before_year_mono a b :
  a <= b -> days_before_year a <= days_before_year b.
Proof.
  intros Hab. unfold days_before_year. cbv zeta.
  pose proof (Z.div_le_mono (a - 1) (b - 1) 4 ltac:(lia) ltac:(lia)).
  pose proof (Z.div_le_mono (a - 1) (b - 1) 400 ltac:(lia) ltac:(lia)).
  assert ((b - 1) / 100 <= (a - 1) / 100 + (b - a)); [|lia].
  Z.div_mod_to_equations. lia.
Qed.

Lemma days_before_year_succ y :
  days_before_year (y + 1) = days_before_year y + if is_leap y then 366 else 365.
Proof.
  unfold days_before_year, is_leap. cbv zeta.
  replace (y + 1 - 1) with y by lia.
  assert (Hstep : forall k, 0 < k ->
            y / k = (y - 1) / k + if y mod k =? 0 then 1 else 0).
  { intros k Hk. destruct (Z.eqb_spec (y mod k) 0); Z.div_mod_to_equations; nia. }
  rewrite (Hstep 4), (Hstep 100), (Hstep 400) by lia.
  pose proof (Z.div_mod y 4 ltac:(lia)). pose proof (Z.div_mod y 100 ltac:(lia)).
  pose proof (Z.div_mod y 400 ltac:(lia)).
  pose proof (Z.mod_pos_bound y 4 ltac:(lia)).
  pose proof (Z.mod_pos_bound y 100 ltac:(lia)).
  pose proof (Z.mod_pos_bound y 400 ltac:(lia)).
  destruct (Z.eqb_spec (y mod 4) 0), (Z.eqb_spec (y mod 100) 0),
    (Z.eqb_spec (y mod 400) 0); cbn [andb orb negb]; lia.
Qed.

Lemma day_of_year_range y m d :
  1 <= m <= 12 -> 1 <= d <= days_in_month y m ->
  1 <= days_before_month y m + d <= if is_leap y then 366 else 365.
Proof.
  intros Hm Hd.
  assert (m = 1 \/ m = 2 \/ m = 3 \/ m = 4 \/ m = 5 \/ m = 6 \/ m = 7 \/ m = 8
          \/ m = 9 \/ m = 10 \/ m = 11 \/ m = 12) as Hcases by lia.
  assert (Hsucc : forall k, 1 <= k ->
            0 <= days_before_month y k ->
            0 <= days_before_month y k + 28 <= days_before_month y (k + 1)).
  { intros k Hk Hpos. rewrite days_before_month_succ by done.
    pose proof (days_in_month_range y k). lia. }
  assert (H1 : days_before_month y 1 = 0) by reflexivity.
  pose proof (Hsucc 1 ltac:(lia) ltac:(lia)) as H2. change (1 + 1) with 2 in H2.
  pose proof (Hsucc 2 ltac:(lia) ltac:(lia)) as H3. change (2 + 1) with 3 in H3.
  pose proof (Hsucc 3 ltac:(lia) ltac:(lia)) as H4. change (3 + 1) with 4 in H4.
  pose proof (Hsucc 4 ltac:(lia) ltac:(lia)) as H5. change (4 + 1) with 5 in H5.
  pose proof (Hsucc 5 ltac:(lia) ltac:(lia)) as H6. change (5 + 1) with 6 in H6.
  pose proof (Hsucc 6 ltac:(lia) ltac:(lia)) as H7. change (6 + 1) with 7 in H7.
  pose proof (Hsucc 7 ltac:(lia) ltac:(lia)) as H8. change (7 + 1) with 8 in H8.
  pose proof (Hsucc 8 ltac:(lia) ltac:(lia)) as H9. change (8 + 1) with 9 in H9.
  pose proof (Hsucc 9 ltac:(lia) ltac:(lia)) as H10. change (9 + 1) with 10 in H10.
  pose proof (Hsucc 10 ltac:(lia) ltac:(lia)) as H11. change (10 + 1) with 11 in H11.
  pose proof (Hsucc 11 ltac:(lia) ltac:(lia)) as H12. change (11 + 1) with 12 in H12.
  pose proof (Hsucc 12 ltac:(lia) ltac:(lia)) as H13. change (12 + 1) with 13 in H13.
  pose proof (days_before_month_succ y m ltac:(lia)) as Hnext.
  rewrite <- (year_length y).
  repeat destruct Hcases as [->|Hcases]; try subst m;
    match type of Hnext with
    | context [?a + 1] => let k := eval vm_compute in (a + 1) in
                          change (a + 1) with k in Hnext
    end; lia.
Qed.

(** the dates from 1000-01-01 on are those of the years with four digits *)
Lemma ord2ymd_year_1000 n y m d :
  1 <= n <= MAXORDINAL -> ord2ymd n = (y, m, d) ->
  1000 <= y <-> ORDINAL_1000 <= n.
Proof.
  intros Hn E.
  destruct (ord2ymd_spec n y m d Hn E) as (Hy & Hm & Hd & Hord).
  pose proof (day_of_year_range y m d Hm Hd) as Hday.
  unfold ymd2ord in Hord. unfold ORDINAL_1000.
  assert (H1000 : days_before_year 1000 = 364877) by reflexivity.
  split.
  - intros Hge. pose proof (days_before_year_mono 1000 y Hge). lia.
  - intros Hge. destruct (Z.le_gt_cases 1000 y) as [|Hlt]; [done|].
    pose proof (days_before_year_mono (y + 1) 1000 ltac:(lia)) as Hmono.
    rewrite days_before_year_succ in Hmono. lia.
Qed.

Lemma year_digits_pad4 y : 1000 <= y -> year_digits y = pad4 y.
Proof.
  intros Hy. unfold year_digits.
  destruct (Z.ltb_spec y 10); [lia|]. destruct (Z.ltb_spec y 100); [lia|].
  destruct (Z.ltb_spec y 1000); [lia|]. done.
Qed.

Lemma strptime_format_ordinal n :
  valid_ordinal n = true -> ORDINAL_1000 <= n ->
  strptime (format_ordinal n) = Some (midnight n).
Proof.
  unfold valid_ordinal. intros Hn H1000.
  apply andb_true_iff in Hn as [H1 H2]. apply Z.leb_le in H1, H2.
  unfold format_ordinal. destruct (ord2ymd n) as [[y m] d] eqn:E.
  destruct (ord2ymd_spec n y m d ltac:(lia) E) as (Hy & Hm & Hd & Hord).
  apply (ord2ymd_year_1000 n y m d ltac:(lia) E) in H1000.
  pose proof (days_in_month_range y m).
  unfold strptime. rewrite year_digits_pad4, split_on_date by done.
  rewrite parse_year_pad4 by lia. rewrite !parse_upto_pad2 by lia. cbn.
  destruct (Z.leb_spec 1 y); [|lia].
  destruct (Z.leb_spec d (days_in_month y m)); [|lia].
  cbn. by rewrite Hord.
Qed.

(** a date before year 1000 is formatted with fewer than four digits of
    year, which [strptime] does not accept *)
Lemma strptime_format_ordinal_short n :
  valid_ordinal n = true -> n < ORDINAL_1000 -> strptime (format_ordinal n) = None.
Proof.
  unfold valid_ordinal. intros Hn H1000.
  apply andb_true_iff in Hn as [H1 H2]. apply Z.leb_le in H1, H2.
  unfold format_ordinal. destruct (ord2ymd n) as [[y m] d] eqn:E.
  assert (Hy : y < 1000).
  { destruct (Z.lt_ge_cases y 1000) as [|Hge]; [done|].
    apply (ord2ymd_year_1000 n y m d ltac:(lia) E) in Hge. lia. }
  unfold strptime, year_digits.
  destruct (Z.ltb_spec y 10); [|destruct (Z.ltb_spec y 100);
                                 [|destruct (Z.ltb_spec y 1000); [|lia]]];
    unfold pad2; cbv [String.append]; cbn [Str.split_on];
    rewrite !digit_char_not_sep by auto; reflexivity.
Qed.

Lemma toordinal_midnight n : toordinal (midnight n) = n.
Proof.
  unfold toordinal, midnight, US_PER_DAY, US_PER_SECOND.
  Z.div_mod_to_equations. lia.
Qed.

Lemma strptime_strftime t :
  valid_datetime t = true -> ORDINAL_1000 <= toordinal t ->
  strptime (strftime t) = Some (midnight (toordinal t)).
Proof. apply strptime_format_ordinal. Qed.

End CalendarFacts.

(** ** The persist phase *)

Section PersistFacts.
Import IMFPortWatchCollector DataCollector.

Lemma save_loop_spec c v data ts : forall fls rep fls' rep',
  save_loop c v data ts fls rep = (fls', rep') ->
  exists w,
    writes rep' = (writes rep ++ w)%list /\ NoDup w
    /\ (forall d, d ∈ w -> fls !! d = None /\ is_Some (fls' !! d))
    /\ (forall d x, fls !! d = Some x -> fls' !! d = Some x)
    /\ (forall d, is_Some (fls' !! d) -> is_Some (fls !! d) \/ d ∈ w)
    /\ saved_count rep' = (saved_count rep + length w)%nat
    /\ (skipped_count rep' + length w = skipped_count rep + length ts)%nat.
Proof.
  induction ts as [|r ts IH]; intros fls rep fls' rep'; cbn [save_loop].
  - intros [= <- <-]. exists []. rewrite app_nil_r.
    split_and!; auto using NoDup_nil_2; cbn; try lia.
    all: intros d Hd; first [by apply elem_of_nil in Hd | by left].
  - destruct (fls !! dr_date r) as [old|] eqn:Hlook; intros Hloop.
    + apply IH in Hloop as (w & Hw & Hnd & Hnew & Hkeep & Hdom & Hsaved & Hskip).
      exists w. cbn in *. split_and!; auto; lia.
    + apply IH in Hloop as (w & Hw & Hnd & Hnew & Hkeep & Hdom & Hsaved & Hskip).
      cbn in *. exists (dr_date r :: w).
      assert (Hfresh : dr_date r ∉ w).
      { intros Hin. apply Hnew in Hin as [Hnone _]. by rewrite lookup_insert_eq in Hnone. }
      split_and!.
      * rewrite Hw, <- app_assoc. reflexivity.
      * by constructor.
      * intros d [-> | Hin]%elem_of_cons.
        -- split; [done|]. exists (daily_data c v data r).
           apply Hkeep, lookup_insert_eq.
        -- destruct (Hnew d Hin) as [Hnone Hsome]. split; [|done].
           destruct (decide (dr_date r = d)) as [<-|Hne]; [done|].
           by rewrite lookup_insert_ne in Hnone.
      * intros d x Hd. apply Hkeep. rewrite lookup_insert_ne; [done|]. congruence.
      * intros d Hd. apply Hdom in Hd as [Hd|Hd]; [|right; by right].
        destruct (decide (dr_date r = d)) as [<-|Hne]; [right; by left|].
        left. by rewrite lookup_insert_ne in Hd.
      * cbn. lia.
      * cbn. lia.
Qed.


Lemma save_into_spec d now c v data d' rep :
  save_into d now c v data = (d', rep) ->
  per_day_only data ->
  NoDup (writes rep)
  /\ (forall k, k ∈ writes rep -> files d !! k = None /\ is_Some (files d' !! k))
  /\ (forall k x, files d !! k = Some x -> files d' !! k = Some x)
  /\ (forall k, is_Some (files d' !! k) -> is_Some (files d !! k) \/ k ∈ writes rep)
  /\ saved_count rep = length (writes rep).
Proof.
  unfold save_into, per_day_only.
  destruct (time_series data) as [[|r ts]|] eqn:Hts.
  1,3: intros Hsave Hpd; rewrite Hpd in Hsave; cbn in Hsave;
       injection Hsave as <- <-; cbn;
       split_and!; auto using NoDup_nil_2; intros k Hk;
       first [by apply elem_of_nil in Hk | by left].
  destruct (save_loop c v data (r :: ts) (files d) no_writes) as [fls rep0] eqn:Hloop.
  intros [= <- <-] _.
  apply save_loop_spec in Hloop as (w & Hw & Hnd & Hnew & Hkeep & Hdom & Hsaved & _).
  cbn in Hw, Hsaved. subst w. cbn [files]. split_and!; auto.
Qed.

Lemma stored_insert fs c v dir c' v' k :
  stored (<[(c, v) := Dir dir]> fs) c' v' k
  = if decide ((c, v) = (c', v')) then files dir !! k else stored fs c' v' k.
Proof.
  unfold stored. rewrite lookup_insert. by destruct (decide ((c, v) = (c', v'))).
Qed.

Lemma mkdir_stored fs c v d k :
  mkdir fs c v = Ok d -> files d !! k = stored fs c v k.
Proof.
  unfold mkdir, stored. destruct (fs !! (c, v)) as [[?|]|]; intros [= <-]; done.
Qed.

Lemma mkdir_watermark fs c v d :
  mkdir fs c v = Ok d -> meta d = watermark fs c v.
Proof.
  unfold mkdir, watermark. destruct (fs !! (c, v)) as [[?|]|]; intros [= <-]; done.
Qed.

Lemma save_data_inv fs now c v data fs' rep :
  save_data fs now c v data = Ok (fs', rep) ->
  exists d d', mkdir fs c v = Ok d /\ save_into d now c v data = (d', rep)
               /\ fs' = <[(c, v) := Dir d']> fs.
Proof.
  unfold save_data. destruct (mkdir fs c v) as [d|e]; [|done]. cbn.
  destruct (save_into d now c v data) as [d' rep0] eqn:Hinto.
  intros [= <- <-]. by exists d, d'.
Qed.

Lemma save_data_spec fs now c v data fs' rep :
  save_data fs now c v data = Ok (fs', rep) ->
  per_day_only data ->
  NoDup (writes rep)
  /\ (forall k, k ∈ writes rep -> stored fs c v k = None /\ is_Some (stored fs' c v k))
  /\ (forall c' v' k x, stored fs c' v' k = Some x -> stored fs' c' v' k = Some x)
  /\ (forall c' v' k, is_Some (stored fs' c' v' k) ->
        is_Some (stored fs c' v' k) \/ (c' = c /\ v' = v /\ k ∈ writes rep))
  /\ saved_count rep = length (writes rep).
Proof.
  intros (d & d' & Hmk & Hinto & ->)%save_data_inv Hpd.
  destruct (save_into_spec _ _ _ _ _ _ _ Hinto Hpd) as (Hnd & Hnew & Hkeep & Hdom & Hcnt).
  split_and!; auto.
  - intros k Hk. rewrite stored_insert, decide_True by done.
    rewrite <- (mkdir_stored _ _ _ _ _ Hmk). auto.
  - intros c' v' k x Hx. rewrite stored_insert. case_decide as Heq; [|done].
    injection Heq as <- <-. apply Hkeep. by rewrite (mkdir_stored _ _ _ _ _ Hmk).
  - intros c' v' k. rewrite stored_insert. case_decide as Heq; [|by left].
    injection Heq as <- <-. intros [Hs|Hw]%Hdom; [left|by right].
    by rewrite <- (mkdir_stored _ _ _ _ _ Hmk).
Qed.

(** the collector's dictionary always carries [time_series], and its
    [total_records] is the number of records when present *)
Lemma collect_per_day_only up tz now url c v sd :
  per_day_only (IMFPortWatchCollector.collect up tz now url c v sd).
Proof.
  unfold IMFPortWatchCollector.collect, collect_body, per_day_only.
  destruct (fetch up tz url c sd) as [[se [[|f fs]|]]|e];
    cbn -[process_features]; try done.
  destruct (process_features tz se (f :: fs)) as [rs|e]; cbn; [|done].
  destruct (sort_by_date rs); done.
Qed.

Lemma collect_inv reg up tz t1 t2 fs c v incr fs' data rep :
  DataCollector.collect reg up tz t1 t2 fs c v incr = Ok (fs', data, rep) ->
  exists url sd,
    resolve reg c v = Ok url /\ start_date_of fs c v incr = Ok sd
    /\ data = IMFPortWatchCollector.collect up tz t1 url c v sd
    /\ save_data fs t2 c v data = Ok (fs', rep).
Proof.
  unfold DataCollector.collect.
  destruct (resolve reg c v) as [url|]; [|done]. cbn.
  destruct (start_date_of fs c v incr) as [sd|]; [|done]. cbn.
  destruct (save_data _ _ _ _ _) as [[fs1 rep1]|] eqn:Hs; [|done]. cbn.
  intros [= <- <- <-]. eauto 10.
Qed.


Lemma run_step_invariant reg tz fs0 st c :
  (NoDup st.2
   /\ (forall c v k, (c, v, k) ∈ st.2 ->
         stored fs0 c v k = None /\ is_Some (stored st.1 c v k))
   /\ (forall c v k x, stored fs0 c v k = Some x -> stored st.1 c v k = Some x)) ->
  let st' := run_step reg tz st c in
  NoDup st'.2
  /\ (forall c v k, (c, v, k) ∈ st'.2 ->
        stored fs0 c v k = None /\ is_Some (stored st'.1 c v k))
  /\ (forall c v k x, stored fs0 c v k = Some x -> stored st'.1 c v k = Some x).
Proof.
  destruct st as [fs trace]. cbn [fst snd]. intros (Hnd & Htr & Hkeep).
  unfold run_step. cbn [fst snd].
  destruct (DataCollector.collect _ _ _ _ _ _ _ _ _) as [[[fs' data] rep]|e] eqn:Hc;
    cbn [fst snd]; [|done].
  apply collect_inv in Hc as (url & sd & _ & _ & -> & Hsave).
  destruct (save_data_spec _ _ _ _ _ _ _ Hsave (collect_per_day_only _ _ _ _ _ _ _))
    as (Hnd' & Hnew & Hkeep' & _ & _).
  set (cc := call_chokepoint c) in *. set (cv := call_variable c) in *.
  split_and!.
  - apply NoDup_app. split_and!; [done| |].
    + intros [[c1 v1] k] Hin (k' & [= -> -> ->] & Hk')%list_elem_of_fmap.
      destruct (Htr _ _ _ Hin) as [_ [x Hx]].
      destruct (Hnew _ Hk') as [Hnone _]. congruence.
    + apply NoDup_fmap_2_strong; [|done]. by intros k1 k2 _ _ [= ->].
  - intros c1 v1 k [Hin|Hin]%elem_of_app.
    + destruct (Htr _ _ _ Hin) as [Hnone [x Hx]]. split; [done|].
      exists x. by apply Hkeep'.
    + apply list_elem_of_fmap in Hin as (k' & [= -> -> ->] & Hk').
      destruct (Hnew _ Hk') as [Hnone Hsome]. split; [|done].
      destruct (stored fs0 cc cv k') as [x|] eqn:Hx; [|done].
      apply Hkeep in Hx. congruence.
  - intros c1 v1 k x Hx. by apply Hkeep', Hkeep.
Qed.

Lemma run_invariant reg tz fs0 calls : forall st,
  (NoDup st.2
   /\ (forall c v k, (c, v, k) ∈ st.2 ->
         stored fs0 c v k = None /\ is_Some (stored st.1 c v k))
   /\ (forall c v k x, stored fs0 c v k = Some x -> stored st.1 c v k = Some x)) ->
  let st' := foldl (run_step reg tz) st calls in
  NoDup st'.2
  /\ (forall c v k, (c, v, k) ∈ st'.2 ->
        stored fs0 c v k = None /\ is_Some (stored st'.1 c v k))
  /\ (forall c v k x, stored fs0 c v k = Some x -> stored st'.1 c v k = Some x).
Proof.
  induction calls as [|c calls IH]; intros st Hst; cbn [foldl]; [done|].
  apply IH. by apply run_step_invariant.
Qed.

Lemma pickle_files_NoDup (dir : var_dir) :
  NoDup (DataProcessor.pickle_files dir).*1.
Proof.
  unfold DataProcessor.pickle_files.
  rewrite merge_sort_Permutation. apply NoDup_fst_map_to_list.
Qed.

End PersistFacts.

(** C1. After any sequence of [collect] calls, whatever the upstream
    returns (overlapping windows, re-runs, duplicate dates in one batch):
    no (chokepoint, variable, date) file is written twice, a file is only
    written for a date that had none, a stored observation is never
    replaced, and the files of a variable carry pairwise distinct dates. *)
Theorem C1_no_duplicate_observation (reg : registry) (tz : Z) (fs : data_fs)
    (calls : list call) :
  let fs' := (run_collects reg tz fs calls).1 in
  let trace := (run_collects reg tz fs calls).2 in
  NoDup trace
  /\ (forall c v d, (c, v, d) ∈ trace ->
        stored fs c v d = None /\ is_Some (stored fs' c v d))
  /\ (forall c v d x, stored fs c v d = Some x -> stored fs' c v d = Some x)
  /\ (forall c v dir, fs' !! (c, v) = Some (Dir dir) ->
        NoDup (DataProcessor.pickle_files dir).*1).
Proof.
  cbv zeta. unfold run_collects.
  destruct (run_invariant reg tz fs calls (fs, [])) as (Hnd & Htr & Hkeep).
  { cbn. split_and!; [constructor| |done].
    intros c v k Hin. by apply elem_of_nil in Hin. }
  split_and!; auto using pickle_files_NoDup.
Qed.

(** ** The watermark *)

Section SortFacts.
Import IMFPortWatchCollector.


Lemma insert_by_date_perm r l : insert_by_date r l ≡ₚ r :: l.
Proof.
  induction l as [|x l IH]; cbn; [done|].
  destruct (String.leb _ _); [done|]. rewrite IH. apply Permutation_swap.
Qed.

Lemma sort_by_date_perm l : sort_by_date l ≡ₚ l.
Proof.
  induction l as [|x l IH]; cbn; [done|].
  fold (sort_by_date l). by rewrite insert_by_date_perm, IH.
Qed.

Lemma insert_by_date_sorted r l :
  StronglySorted date_le l -> StronglySorted date_le (insert_by_date r l).
Proof.
  induction 1 as [|x l Hs IH Hall]; cbn.
  - repeat constructor.
  - destruct (String.leb (dr_date r) (dr_date x)) eqn:Hle.
    + constructor; [by constructor|]. constructor.
      * unfold date_le, String.le. by rewrite Hle.
      * eapply Forall_impl; [exact Hall|]. intros y Hy. unfold date_le in *.
        etrans; [|exact Hy]. unfold String.le. by rewrite Hle.
    + constructor; [done|]. rewrite insert_by_date_perm. constructor; [|done].
      unfold date_le. destruct (total String.le (dr_date x) (dr_date r)) as [?|Hrx]; [done|].
      unfold String.le in Hrx. by rewrite Hle in Hrx.
Qed.

Lemma sort_by_date_sorted l : StronglySorted date_le (sort_by_date l).
Proof.
  induction l as [|x l IH]; cbn; [constructor|].
  by apply insert_by_date_sorted.
Qed.

Lemma sorted_last_max l r x :
  StronglySorted date_le l -> last l = Some r -> x ∈ l -> date_le x r.
Proof.
  induction 1 as [|y l Hs IH Hall]; [done|].
  destruct l as [|z l].
  - cbn. intros [= <-] ->%list_elem_of_singleton. unfold date_le. done.
  - change (last (y :: z :: l)) with (last (z :: l)). intros Hlast Hin.
    apply elem_of_cons in Hin as [->|Hin]; [|by apply IH].
    rewrite Forall_forall in Hall. apply Hall.
    by eapply last_Some_elem_of.
Qed.

End SortFacts.

Section WatermarkFacts.
Import IMFPortWatchCollector DataCollector.

Lemma collect_time_series_sorted up tz now url c v sd :
  exists ts,
    time_series (IMFPortWatchCollector.collect up tz now url c v sd) = Some ts
    /\ StronglySorted date_le ts.
Proof.
  unfold IMFPortWatchCollector.collect, collect_body.
  destruct (fetch up tz url c sd) as [[se [[|f fs]|]]|e];
    cbn -[process_features]; try (exists []; split; [done|constructor]).
  destruct (process_features tz se (f :: fs)) as [rs|e]; cbn.
  - eexists. split; [done|]. apply sort_by_date_sorted.
  - exists []. split; [done|constructor].
Qed.

Lemma save_into_meta d now c v data :
  meta (save_into d now c v data).1
  = match last (default [] (time_series data)) with
    | Some r => Some (_update_metadata now c v (dr_date r))
    | None => meta d
    end.
Proof.
  unfold save_into. destruct (time_series data) as [[|r ts]|]; cbn [default].
  - cbn. by destruct (_ =? _)%Z.
  - by destruct (save_loop _ _ _ _ _ _).
  - cbn. by destruct (_ =? _)%Z.
Qed.

Lemma watermark_insert fs c v dir :
  watermark (<[(c, v) := Dir dir]> fs) c v = meta dir.
Proof. unfold watermark. by rewrite lookup_insert_eq. Qed.

End WatermarkFacts.

(** C2 (as the code has it). The persist phase succeeds on every directory
    the process may enter. When the batch holds at least one record, written
    or skipped, the watermark is set: [latest_date] to the date of the last
    record of the batch and [last_updated] to now; for the date-sorted batch
    the collector returns that date is the largest of the batch. When the
    batch holds no record the watermark is left as it was. *)
Theorem C2_watermark_follows_batch (fs : data_fs) (now : Z) (c v : string)
    (data : collected) :
  fs !! (c, v) <> Some Denied ->
  exists fs' rep,
    DataCollector.save_data fs now c v data = Ok (fs', rep)
    /\ watermark fs' c v
       = match last (default [] (time_series data)) with
         | Some r => Some (DataCollector._update_metadata now c v (dr_date r))
         | None => watermark fs c v
         end
    /\ (forall up tz t url sd r x,
          data = IMFPortWatchCollector.collect up tz t url c v sd ->
          last (default [] (time_series data)) = Some r ->
          x ∈ default [] (time_series data) ->
          String.le (dr_date x) (dr_date r)).
Proof.
  intros Hdir.
  assert (exists d, DataCollector.mkdir fs c v = Ok d) as [d Hmk].
  { unfold DataCollector.mkdir. destruct (fs !! (c, v)) as [[?|]|]; by eauto. }
  unfold DataCollector.save_data. rewrite Hmk. cbn.
  pose proof (save_into_meta d now c v data) as Hmeta.
  destruct (DataCollector.save_into d now c v data) as [d' rep]. cbn in Hmeta.
  exists (<[(c, v) := Dir d']> fs), rep. split_and!; [done| |].
  - rewrite watermark_insert, Hmeta.
    by rewrite (mkdir_watermark _ _ _ _ Hmk).
  - intros up tz t url sd r x -> Hlast Hx.
    destruct (collect_time_series_sorted up tz t url c v sd) as (ts & Hts & Hsorted).
    rewrite Hts in Hlast, Hx. cbn in Hlast, Hx.
    by apply (sorted_last_max ts r x).
Qed.

Lemma C2_watermark_follows_batch_witness :
  Scenario.fs_of [("2024-01-05", 3%Z)] (Some "2024-01-05")
    !! (Scenario.cp, Scenario.var) <> Some Denied
  /\ exists fs' rep,
    DataCollector.save_data (Scenario.fs_of [("2024-01-05", 3%Z)] (Some "2024-01-05"))
      Scenario.jan8 Scenario.cp Scenario.var
      (Scenario.batch [Scenario.record "2024-01-06" 4; Scenario.record "2024-01-07" 5])
    = Ok (fs', rep)
    /\ watermark fs' Scenario.cp Scenario.var
       = Some (DataCollector._update_metadata Scenario.jan8 Scenario.cp Scenario.var
                 "2024-01-07").
Proof.
  split; [vm_compute; discriminate|].
  destruct (C2_watermark_follows_batch
              (Scenario.fs_of [("2024-01-05", 3%Z)] (Some "2024-01-05"))
              Scenario.jan8 Scenario.cp Scenario.var
              (Scenario.batch [Scenario.record "2024-01-06" 4;
                               Scenario.record "2024-01-07" 5]))
    as (fs' & rep & Hsave & Hwm & _).
  - vm_compute; discriminate.
  - exists fs', rep. split; [exact Hsave|exact Hwm].
Defined.

(** C2 as stated fails: a batch whose only record is already stored writes
    nothing, yet the watermark is rewritten, here even to an earlier date. *)
Lemma C2_counterexample :
  match DataCollector.save_data
          (Scenario.fs_of [("2024-01-05", 3%Z); ("2024-01-06", 4%Z)]
             (Some "2024-01-06"))
          Scenario.jan8 Scenario.cp Scenario.var
          (Scenario.batch [Scenario.record "2024-01-05" 3]) with
  | Ok (fs', rep) =>
      DataCollector.writes rep = [] /\ DataCollector.saved_count rep = 0%nat
      /\ md_latest_date <$> watermark
           (Scenario.fs_of [("2024-01-05", 3%Z); ("2024-01-06", 4%Z)]
              (Some "2024-01-06"))
           Scenario.cp Scenario.var = Some "2024-01-06"
      /\ md_latest_date <$> watermark fs' Scenario.cp Scenario.var
         = Some "2024-01-05"
  | Raise _ => False
  end.
Proof. vm_compute. repeat split. Qed.

(** ** Collecting *)

Section CollectFacts.
Import IMFPortWatchCollector DataCollector.

Lemma strftime_nonempty t : exists a s, Calendar.strftime t = String a s.
Proof.
  unfold Calendar.strftime, Calendar.format_ordinal.
  destruct (Calendar.ord2ymd _) as [[y m] d]. unfold Calendar.year_digits.
  destruct (_ <? 10)%Z; [|destruct (_ <? 100)%Z; [|destruct (_ <? 1000)%Z]];
    unfold Calendar.pad4, Calendar.pad2; cbn; eauto.
Qed.

Lemma add_days_valid t n t' :
  Calendar.add_days t n = Some t' -> Calendar.valid_datetime t' = true.
Proof.
  unfold Calendar.add_days. destruct (Calendar.valid_datetime _) eqn:E; [|done].
  by intros [= <-].
Qed.

(** the start date [collect] passes on is one the collector can parse *)
Lemma start_date_of_shape fs c v incr sd :
  start_date_of fs c v incr = Ok sd ->
  sd = None
  \/ exists t, sd = Some (Calendar.strftime t) /\ Calendar.valid_datetime t = true.
Proof.
  unfold start_date_of. destruct incr; [|intros [= <-]; by left].
  destruct (_get_latest_date fs c v) as [[[|a s]|]|]; cbn; try done;
    try (intros [= <-]; by left).
  destruct (Calendar.strptime (String a s)) as [t|]; [|done].
  destruct (Calendar.add_days t 1) as [t'|] eqn:E; [|done].
  intros [= <-]. right. exists t'. split; [done|]. by eapply add_days_valid.
Qed.

(** without new data the collector reports success with an empty series;
    the note is there when the answer holds no feature at all *)
Lemma collect_no_new_data up tz now url c v sd features :
  no_new_data up tz url c sd features ->
  IMFPortWatchCollector.collect up tz now url c v sd
  = {| time_series := Some [];
       total_records := Some 0%Z;
       date_range := Some (None, None);
       timestamp := Calendar.isoformat now ++ "Z";
       source := url; chokepoint := c; variable := v;
       status := "success";
       note := match features with
               | Some (_ :: _) => None
               | _ => Some "No new data available"
               end;
       error := None |}.
Proof.
  intros (se & Hf & Hp). unfold IMFPortWatchCollector.collect, collect_body.
  rewrite Hf. cbn [mbind result_bind].
  destruct features as [[|f features]|]; [done| |done].
  change (process_features tz se (f :: features) = Ok []) in Hp. by rewrite Hp.
Qed.

(** saving a batch without records changes neither files nor watermark *)
Lemma save_data_empty fs now c v data d :
  mkdir fs c v = Ok d ->
  default [] (time_series data) = [] -> default 0%Z (total_records data) = 0%Z ->
  save_data fs now c v data = Ok (<[(c, v) := Dir d]> fs, no_writes).
Proof.
  intros Hmk Hts Htot. unfold save_data, save_into. rewrite Hmk. cbn.
  destruct (time_series data) as [[|? ?]|]; try done; by rewrite Htot.
Qed.

Lemma mkdir_ok fs c v :
  fs !! (c, v) <> Some Denied -> exists d, mkdir fs c v = Ok d.
Proof. unfold mkdir. destruct (fs !! (c, v)) as [[?|]|]; by eauto. Qed.

Lemma mkdir_insert fs c v d : mkdir (<[(c, v) := Dir d]> fs) c v = Ok d.
Proof. unfold mkdir. by rewrite lookup_insert_eq. Qed.

Lemma stored_mkdir fs c v d c' v' k :
  mkdir fs c v = Ok d ->
  stored (<[(c, v) := Dir d]> fs) c' v' k = stored fs c' v' k.
Proof.
  intros Hmk. rewrite stored_insert. case_decide as Heq; [|done].
  injection Heq as <- <-. by apply mkdir_stored.
Qed.

Lemma watermark_mkdir fs c v d c' v' :
  mkdir fs c v = Ok d ->
  watermark (<[(c, v) := Dir d]> fs) c' v' = watermark fs c' v'.
Proof.
  intros Hmk. unfold watermark at 1. rewrite lookup_insert.
  case_decide as Heq; [|done]. injection Heq as <- <-. by apply mkdir_watermark.
Qed.

Lemma start_date_of_mkdir fs c v d incr :
  mkdir fs c v = Ok d ->
  start_date_of (<[(c, v) := Dir d]> fs) c v incr = start_date_of fs c v incr.
Proof.
  intros Hmk. unfold start_date_of, _get_latest_date. rewrite lookup_insert_eq.
  unfold mkdir in Hmk. destruct (fs !! (c, v)) as [[?|]|]; by simplify_eq.
Qed.

End CollectFacts.

(** C3 (as the code has it). Two calls of [collect] in a row, each meeting
    an upstream without new data, both return the success dictionary with no
    records, write nothing ([saved_count] is 0), and leave every stored file
    and every watermark as it was. The dictionary carries the no-new-data
    note when the answer holds no feature at all; when it holds features
    that are all filtered out, the dictionary has no note. *)
Theorem C3_idempotent_without_new_data (reg : registry)
    (up1 up2 : IMFPortWatchCollector.upstream) (tz t1 s1 t2 s2 : Z)
    (fs : data_fs) (c v : string) (incr : bool) (url : string)
    (sd : option string)
    (features1 features2 : option (list IMFPortWatchCollector.feature)) :
  DataCollector.resolve reg c v = Ok url ->
  DataCollector.start_date_of fs c v incr = Ok sd ->
  fs !! (c, v) <> Some Denied ->
  IMFPortWatchCollector.no_new_data up1 tz url c sd features1 ->
  IMFPortWatchCollector.no_new_data up2 tz url c sd features2 ->
  exists fs1 d1 fs2 d2,
    DataCollector.collect reg up1 tz t1 s1 fs c v incr
    = Ok (fs1, d1, DataCollector.no_writes)
    /\ DataCollector.collect reg up2 tz t2 s2 fs1 c v incr
       = Ok (fs2, d2, DataCollector.no_writes)
    /\ (status d1 = "success" /\ time_series d1 = Some [] /\ error d1 = None
        /\ note d1 = match features1 with
                     | Some (_ :: _) => None
                     | _ => Some "No new data available"
                     end)
    /\ (status d2 = "success" /\ time_series d2 = Some [] /\ error d2 = None
        /\ note d2 = match features2 with
                     | Some (_ :: _) => None
                     | _ => Some "No new data available"
                     end)
    /\ (forall c' v', watermark fs1 c' v' = watermark fs c' v'
                      /\ watermark fs2 c' v' = watermark fs c' v')
    /\ (forall c' v' k, stored fs1 c' v' k = stored fs c' v' k
                        /\ stored fs2 c' v' k = stored fs c' v' k).
Proof.
  intros Hres Esd Hdir Hup1 Hup2.
  destruct (mkdir_ok _ _ _ Hdir) as [d Hmk].
  set (fs1 := <[(c, v) := Dir d]> fs).
  assert (Hc1 : forall up t s features,
            IMFPortWatchCollector.no_new_data up tz url c sd features ->
            DataCollector.collect reg up tz t s fs c v incr
            = Ok (fs1, IMFPortWatchCollector.collect up tz t url c v sd,
                  DataCollector.no_writes)).
  { intros up t s features Hup. unfold DataCollector.collect. rewrite Hres, Esd. cbn.
    rewrite (save_data_empty _ _ _ _ _ d Hmk);
      by rewrite ?(collect_no_new_data _ _ _ _ _ _ _ features Hup). }
  assert (Hc2 : forall up t s features,
            IMFPortWatchCollector.no_new_data up tz url c sd features ->
            DataCollector.collect reg up tz t s fs1 c v incr
            = Ok (<[(c, v) := Dir d]> fs1,
                  IMFPortWatchCollector.collect up tz t url c v sd,
                  DataCollector.no_writes)).
  { intros up t s features Hup. unfold DataCollector.collect.
    unfold fs1 at 1. rewrite Hres, (start_date_of_mkdir _ _ _ _ _ Hmk), Esd. cbn.
    rewrite (save_data_empty _ _ _ _ _ d (mkdir_insert _ _ _ _));
      by rewrite ?(collect_no_new_data _ _ _ _ _ _ _ features Hup). }
  exists fs1, (IMFPortWatchCollector.collect up1 tz t1 url c v sd),
    (<[(c, v) := Dir d]> fs1), (IMFPortWatchCollector.collect up2 tz t2 url c v sd).
  split_and!; eauto;
    try (by rewrite (collect_no_new_data _ _ _ _ _ _ _ features1) by done);
    try (by rewrite (collect_no_new_data _ _ _ _ _ _ _ features2) by done).
  - intros c' v'. split.
    + by apply watermark_mkdir.
    + rewrite (watermark_mkdir fs1) by apply mkdir_insert. by apply watermark_mkdir.
  - intros c' v' k. split.
    + by apply stored_mkdir.
    + rewrite (stored_mkdir fs1) by apply mkdir_insert. by apply stored_mkdir.
Qed.

(** the watermark is on 2024-01-05 and the upstream still returns the
    record of that day only: both calls succeed without records and
    without note, and the watermark stays *)
Lemma C3_idempotent_without_new_data_witness :
  exists fs1 d1 fs2 d2,
    DataCollector.collect Scenario.reg
      (Scenario.upstream_with [Scenario.feature_on 738890 3]) 0 Scenario.jan8
      Scenario.jan8 (Scenario.fs_of [("2024-01-05", 3%Z)] (Some "2024-01-05"))
      Scenario.cp Scenario.var true
    = Ok (fs1, d1, DataCollector.no_writes)
    /\ DataCollector.collect Scenario.reg Scenario.quiet_upstream 0 Scenario.jan8
         Scenario.jan8 fs1 Scenario.cp Scenario.var true
       = Ok (fs2, d2, DataCollector.no_writes)
    /\ note d1 = None /\ note d2 = Some "No new data available"
    /\ md_latest_date <$> watermark fs2 Scenario.cp Scenario.var = Some "2024-01-05".
Proof.
  destruct (C3_idempotent_without_new_data Scenario.reg
              (Scenario.upstream_with [Scenario.feature_on 738890 3])
              Scenario.quiet_upstream 0 Scenario.jan8 Scenario.jan8 Scenario.jan8
              Scenario.jan8 (Scenario.fs_of [("2024-01-05", 3%Z)] (Some "2024-01-05"))
              Scenario.cp Scenario.var true Scenario.url (Some "2024-01-06")
              (Some [Scenario.feature_on 738890 3]) (Some []))
    as (fs1 & d1 & fs2 & d2 & H1 & H2 & (_ & _ & _ & Hn1) & (_ & _ & _ & Hn2)
        & Hwm & _).
  - reflexivity.
  - vm_compute. reflexivity.
  - vm_compute. discriminate.
  - eexists. split; vm_compute; reflexivity.
  - eexists. split; vm_compute; reflexivity.
  - exists fs1, d1, fs2, d2. split; [exact H1|]. split; [exact H2|].
    split; [exact Hn1|]. split; [exact Hn2|].
    destruct (Hwm Scenario.cp Scenario.var) as [_ ->]. vm_compute. reflexivity.
Defined.

(** C3 as stated fails on the note: the watermark is on 2024-01-05 and the
    upstream returns the record of that day, which the filter on the start
    date 2024-01-06 drops; the call succeeds with no record, writes nothing
    and keeps the watermark, but the dictionary it returns has no note. *)
Lemma C3_counterexample :
  match DataCollector.collect Scenario.reg
          (Scenario.upstream_with [Scenario.feature_on 738890 3]) 0
          Scenario.jan8 Scenario.jan8
          (Scenario.fs_of [("2024-01-05", 3%Z)] (Some "2024-01-05"))
          Scenario.cp Scenario.var true with
  | Ok (fs', data, rep) =>
      status data = "success" /\ time_series data = Some []
      /\ total_records data = Some 0%Z /\ error data = None
      /\ DataCollector.saved_count rep = 0%nat
      /\ md_latest_date <$> watermark fs' Scenario.cp Scenario.var
         = Some "2024-01-05"
      /\ note data = None
  | Raise _ => False
  end.
Proof. vm_compute. repeat split. Qed.

(** the named failures of the fetcher all raise inside the [try] block *)
Lemma collect_body_failures up tz now url c v sd :
  (IMFPortWatchCollector.dict_get c IMFPortWatchCollector.CHOKEPOINT_MAP = None ->
   is_ok (IMFPortWatchCollector.collect_body up tz now url c v sd) = false)
  /\ (forall portid,
        IMFPortWatchCollector.dict_get c IMFPortWatchCollector.CHOKEPOINT_MAP
        = Some portid ->
        IMFPortWatchCollector._extract_api_url up url portid = None ->
        is_ok (IMFPortWatchCollector.collect_body up tz now url c v sd) = false)
  /\ ((forall u, exists msg,
         IMFPortWatchCollector.http_get up u = IMFPortWatchCollector.RequestFailed msg
         \/ IMFPortWatchCollector.http_get up u = IMFPortWatchCollector.InvalidJson msg) ->
      is_ok (IMFPortWatchCollector.collect_body up tz now url c v sd) = false).
Proof.
  unfold IMFPortWatchCollector.collect_body, IMFPortWatchCollector.fetch.
  split_and!.
  - by intros ->.
  - by intros portid -> ->.
  - intros Hget. destruct (IMFPortWatchCollector.dict_get _ _); [|done].
    destruct (IMFPortWatchCollector._extract_api_url _ _ _); [|done].
    destruct (IMFPortWatchCollector.start_epoch_of tz sd); [|done]. cbn.
    match goal with
    | |- context [IMFPortWatchCollector.http_get up ?u] =>
        destruct (Hget u) as [msg [-> | ->]]
    end; done.
Qed.

(** C4. When the fetcher fails, whatever the cause, [collect] does not
    raise: it returns the dictionary with status error, no records and the
    message of the failure; nothing is written, every stored file and every
    watermark is as before, and the next call starts from the same date. *)
Theorem C4_fetch_failure_is_reported (reg : registry)
    (up : IMFPortWatchCollector.upstream) (tz t1 t2 : Z) (fs : data_fs)
    (c v : string) (incr : bool) (url : string) (sd : option string) (e : exn) :
  DataCollector.resolve reg c v = Ok url ->
  DataCollector.start_date_of fs c v incr = Ok sd ->
  fs !! (c, v) <> Some Denied ->
  IMFPortWatchCollector.collect_body up tz t1 url c v sd = Raise e ->
  exists fs' data,
    DataCollector.collect reg up tz t1 t2 fs c v incr
    = Ok (fs', data, DataCollector.no_writes)
    /\ status data = "error" /\ time_series data = Some []
    /\ error data = Some (exn_str e)
    /\ (forall c' v' k, stored fs' c' v' k = stored fs c' v' k)
    /\ (forall c' v', watermark fs' c' v' = watermark fs c' v')
    /\ DataCollector.start_date_of fs' c v incr = Ok sd.
Proof.
  intros Hres Hsd Hdir Hraise.
  destruct (mkdir_ok _ _ _ Hdir) as [d Hmk].
  exists (<[(c, v) := Dir d]> fs), (IMFPortWatchCollector.collect up tz t1 url c v sd).
  unfold DataCollector.collect. rewrite Hres, Hsd. cbn.
  unfold IMFPortWatchCollector.collect. rewrite Hraise.
  rewrite (save_data_empty _ _ _ _ _ d Hmk) by done. cbn.
  split_and!; auto.
  - intros c' v' k. by apply stored_mkdir.
  - intros c' v'. by apply watermark_mkdir.
  - by rewrite (start_date_of_mkdir _ _ _ _ _ Hmk).
Qed.

Lemma C4_fetch_failure_is_reported_witness :
  exists fs' data,
    DataCollector.collect Scenario.reg Scenario.timeout_upstream 0 Scenario.jan8
      Scenario.jan8 (Scenario.fs_of [("2024-01-05", 3%Z)] (Some "2024-01-05"))
      Scenario.cp Scenario.var true
    = Ok (fs', data, DataCollector.no_writes)
    /\ status data = "error" /\ time_series data = Some []
    /\ error data = Some "Read timed out."
    /\ md_latest_date <$> watermark fs' Scenario.cp Scenario.var = Some "2024-01-05".
Proof.
  destruct (C4_fetch_failure_is_reported Scenario.reg Scenario.timeout_upstream 0
              Scenario.jan8 Scenario.jan8
              (Scenario.fs_of [("2024-01-05", 3%Z)] (Some "2024-01-05"))
              Scenario.cp Scenario.var true Scenario.url (Some "2024-01-06")
              (RequestException "Read timed out."))
    as (fs' & data & Hc & Hst & Hts & Herr & _ & Hwm & _).
  - reflexivity.
  - vm_compute. reflexivity.
  - vm_compute. discriminate.
  - vm_compute. reflexivity.
  - exists fs', data.
    split; [exact Hc|]. split; [exact Hst|]. split; [exact Hts|].
    split; [exact Herr|]. rewrite Hwm. vm_compute. reflexivity.
Defined.

(** ** Rendering *)

(** C10. With an existing but empty CSV and at least one new row, the
    incremental call raises the [OSError] of [f.seek(-1, 2)] and appends
    nothing; an incremental call on an existing CSV that returns with rows
    to append was given a non-empty CSV. *)
Theorem C10_empty_csv_aborts_append (fs : data_fs) (c v : string) :
  (forall fls,
     DataProcessor.raw_files fs c v = Ok fls ->
     (DataProcessor.new_rows c v ∅ fls).1 <> [] ->
     DataProcessor.process_to_csv fs (Some "") c v true
     = Raise (OSError "[Errno 22] Invalid argument"))
  /\ (forall text out,
        DataProcessor.process_to_csv fs (Some text) c v true = Ok out ->
        (0 < DataProcessor.record_count out)%nat ->
        text <> "").
Proof.
  split.
  - intros fls Hraw Hnew. unfold DataProcessor.process_to_csv.
    rewrite Hraw. cbn.
    destruct (DataProcessor.new_rows c v ∅ fls) as [[|r rows] warnings]; [done|].
    reflexivity.
  - intros text out Hout Hcount ->. revert Hout.
    unfold DataProcessor.process_to_csv.
    destruct (DataProcessor.raw_files fs c v) as [fls|]; [|done]. cbn.
    destruct (DataProcessor.new_rows c v ∅ fls) as [[|r rows] warnings].
    + cbn. intros [= <-]. cbn in Hcount. lia.
    + done.
Qed.

Lemma C10_empty_csv_aborts_append_witness :
  DataProcessor.process_to_csv
    (Scenario.fs_of [("2024-01-05", 3%Z)] (Some "2024-01-05")) (Some "")
    Scenario.cp Scenario.var true
  = Raise (OSError "[Errno 22] Invalid argument").
Proof.
  apply (proj1 (C10_empty_csv_aborts_append _ _ _)
           [("2024-01-05", Scenario.observation "2024-01-05" 3)]).
  - vm_compute. reflexivity.
  - vm_compute. discriminate.
Defined.

(** C8 fails on the code. The files hold one good observation and the
    dictionary [save_data] pickled as it was (neither a [date] nor a
    [vessel_count] key). The incremental append skips that file with a
    warning and returns; the full CSV rewrite, the first CSV build and the
    JSON build of the records format raise [KeyError] on its [date], the
    JSON build of the timeseries format raises [KeyError] on its
    [vessel_count], which it reads first, and all four render nothing. *)
Theorem C8_malformed_record_aborts_render :
  DataProcessor.process_to_csv Scenario.fs_with_raw None
    Scenario.cp Scenario.var true = Raise (KeyError "date")
  /\ DataProcessor.process_to_csv Scenario.fs_with_raw (Some Scenario.csv_jan5)
       Scenario.cp Scenario.var false = Raise (KeyError "date")
  /\ DataProcessor.process_to_json Scenario.fs_with_raw
       Scenario.cp Scenario.var "records" = Raise (KeyError "date")
  /\ DataProcessor.process_to_json Scenario.fs_with_raw
       Scenario.cp Scenario.var "timeseries" = Raise (KeyError "vessel_count")
  /\ DataProcessor.process_to_csv Scenario.fs_with_raw (Some Scenario.csv_jan5)
       Scenario.cp Scenario.var true
     = Ok {| DataProcessor.csv_file := Some Scenario.csv_jan5;
             DataProcessor.record_count := 0;
             DataProcessor.skipped := ["2024-01-08.pckl"] |}.
Proof. split_and!; vm_compute; reflexivity. Qed.

(** ** Scanning all variables for gaps *)

Section ScanFacts.
Import BackfillManager.
Context (fs : data_fs) (now : Z).

(** a scan adds its findings to what was found before *)
Lemma scan_variables_union cid vars : forall m,
  scan_variables fs now cid vars m
  = ((scan_variables fs now cid vars ∅).1 ∪ m, (scan_variables fs now cid vars ∅).2).
Proof.
  induction vars as [|x vars IH]; intros m; cbn [scan_variables].
  - cbn. by rewrite (left_id_L ∅ (∪)).
  - destruct (get_missing_dates fs now cid x None) as [[|d l]|e]; cbn [fst snd].
    + apply IH.
    + rewrite IH, (IH (<[_:=_]> ∅)). cbn [fst snd]. f_equal.
      rewrite <- (assoc_L (∪)). f_equal.
      by rewrite insert_empty, <- insert_union_singleton_l.
    + by rewrite (left_id_L ∅ (∪)).
Qed.

(** the findings of a chokepoint are filed under that chokepoint *)
Lemma scan_variables_keys cid vars c v :
  c <> cid -> (scan_variables fs now cid vars ∅).1 !! (c, v) = None.
Proof.
  intros Hne. induction vars as [|x vars IH]; cbn [scan_variables]; [done|].
  destruct (get_missing_dates fs now cid x None) as [[|d l]|e]; cbn [fst snd];
    [done| |done].
  rewrite scan_variables_union. cbn [fst].
  rewrite lookup_union, IH, lookup_insert_ne by congruence. done.
Qed.

Lemma scan_chokepoint_union entry m :
  (scan_chokepoint fs now entry m).1 = (scan_chokepoint fs now entry ∅).1 ∪ m.
Proof.
  destruct entry as [cid [msg|vars]]; cbn.
  - by rewrite (left_id_L ∅ (∪)).
  - rewrite (scan_variables_union _ _ m).
    by destruct (scan_variables fs now cid vars.*1 ∅) as [m' [e|]].
Qed.

Lemma scan_chokepoint_keys entry c v :
  c <> entry.1 -> (scan_chokepoint fs now entry ∅).1 !! (c, v) = None.
Proof.
  destruct entry as [cid [msg|vars]]; cbn; [done|]. intros Hne.
  pose proof (scan_variables_keys cid vars.*1 c v Hne) as Hk.
  by destruct (scan_variables fs now cid vars.*1 ∅) as [m' [e|]].
Qed.

Lemma scan_all_other reg c v : forall m,
  c ∉ reg.*1 -> (scan_all fs now reg m).1 !! (c, v) = m !! (c, v).
Proof.
  induction reg as [|entry reg IH]; intros m Hc; cbn [scan_all]; [done|].
  apply not_elem_of_cons in Hc as [Hne Hc].
  destruct (scan_chokepoint fs now entry m) as [m1 errs] eqn:E1.
  specialize (IH m1 Hc).
  destruct (scan_all fs now reg m1) as [m2 errs2]. cbn [fst] in *.
  rewrite IH. change m1 with (m1, errs).1. rewrite <- E1, scan_chokepoint_union.
  by rewrite lookup_union, scan_chokepoint_keys, (left_id_L None union).
Qed.

(** the part of the result filed under a chokepoint is what the scan of
    that chokepoint alone finds *)
Lemma scan_all_chokepoint reg cid config v : forall m,
  NoDup reg.*1 -> (cid, config) ∈ reg ->
  (scan_all fs now reg m).1 !! (cid, v)
  = ((scan_chokepoint fs now (cid, config) ∅).1 ∪ m) !! (cid, v).
Proof.
  induction reg as [|entry reg IH]; intros m Hnd Hin; [by apply elem_of_nil in Hin|].
  cbn [scan_all]. cbn in Hnd. apply NoDup_cons in Hnd as [Hfresh Hnd].
  destruct (scan_chokepoint fs now entry m) as [m1 errs] eqn:E1.
  assert (Hm1 : m1 = (scan_chokepoint fs now entry ∅).1 ∪ m).
  { change m1 with (m1, errs).1. by rewrite <- E1, scan_chokepoint_union. }
  apply elem_of_cons in Hin as [<-|Hin].
  - pose proof (scan_all_other reg cid v m1 Hfresh) as Ho.
    destruct (scan_all fs now reg m1) as [m2 errs2]. cbn [fst] in *.
    by rewrite Ho, Hm1.
  - specialize (IH m1 Hnd Hin).
    destruct (scan_all fs now reg m1) as [m2 errs2]. cbn [fst] in *.
    rewrite IH, Hm1, !lookup_union.
    rewrite (scan_chokepoint_keys entry cid v); [by rewrite (left_id_L None union)|].
    intros ->. apply Hfresh. apply list_elem_of_fmap. by exists (entry.1, config).
Qed.

Lemma scan_variables_not_scanned cid vars v :
  v ∉ vars -> (scan_variables fs now cid vars ∅).1 !! (cid, v) = None.
Proof.
  induction vars as [|y vars IH]; cbn [scan_variables]; [done|].
  intros [Hne Hv']%not_elem_of_cons.
  destruct (get_missing_dates fs now cid y None) as [[|d l]|e]; cbn [fst];
    [by apply IH| |done].
  rewrite scan_variables_union. cbn [fst].
  rewrite lookup_union, (IH Hv'), lookup_insert_ne by congruence. done.
Qed.

Lemma scan_chokepoint_errors entry m :
  (scan_chokepoint fs now entry m).2 = (scan_chokepoint fs now entry ∅).2.
Proof.
  destruct entry as [cid [msg|vars]]; cbn; [done|].
  rewrite (scan_variables_union _ _ m).
  by destruct (scan_variables fs now cid vars.*1 ∅) as [m' [e|]].
Qed.

Lemma scan_all_errors reg entry : forall m,
  entry ∈ reg -> (scan_chokepoint fs now entry ∅).2 = [entry.1] ->
  entry.1 ∈ (scan_all fs now reg m).2.
Proof.
  induction reg as [|e reg IH]; intros m Hin Herr; [by apply elem_of_nil in Hin|].
  cbn [scan_all].
  destruct (scan_chokepoint fs now e m) as [m1 errs] eqn:E1.
  assert (Herrs : errs = (scan_chokepoint fs now e ∅).2).
  { change errs with (m1, errs).2. by rewrite <- E1, scan_chokepoint_errors. }
  specialize (IH m1).
  destruct (scan_all fs now reg m1) as [m2 errs2]. cbn [snd] in *.
  apply elem_of_app. apply elem_of_cons in Hin as [<-|Hin].
  - left. rewrite Herrs, Herr. by left.
  - right. by apply IH.
Qed.

(** a scan that meets no failure reports every variable with missing dates *)
Lemma scan_variables_complete cid vars v l :
  (forall x, x ∈ vars -> is_ok (get_missing_dates fs now cid x None) = true) ->
  v ∈ vars -> get_missing_dates fs now cid v None = Ok l -> l <> [] ->
  (scan_variables fs now cid vars ∅).1 !! (cid, v) = Some l
  /\ (scan_variables fs now cid vars ∅).2 = None.
Proof.
  intros Hok. revert Hok.
  induction vars as [|x vars IH]; intros Hok Hin Hv Hl; [by apply elem_of_nil in Hin|].
  cbn [scan_variables].
  assert (Hokx := Hok x ltac:(by left)).
  assert (Hok' : forall y, y ∈ vars ->
                   is_ok (get_missing_dates fs now cid y None) = true).
  { intros y Hy. apply Hok. by right. }
  destruct (decide (v ∈ vars)) as [Hv'|Hv'].
  - destruct (IH Hok' Hv' Hv Hl) as [Hfound Hnone].
    destruct (get_missing_dates fs now cid x None) as [[|d l']|e]; [done| |done].
    rewrite scan_variables_union. cbn [fst snd].
    by rewrite lookup_union, Hfound, union_Some_l.
  - apply elem_of_cons in Hin as [->|Hin]; [|done].
    rewrite Hv. destruct l as [|d l]; [done|].
    rewrite scan_variables_union. cbn [fst snd]. split.
    + by rewrite lookup_union, (scan_variables_not_scanned _ _ _ Hv'),
        lookup_insert_eq.
    + clear -Hok'. induction vars as [|y vars IH]; cbn [scan_variables]; [done|].
      assert (Hy := Hok' y ltac:(by left)).
      destruct (get_missing_dates fs now cid y None) as [[|d l]|e]; [| |done].
      * apply IH. intros z Hz. apply Hok'. by right.
      * rewrite scan_variables_union. cbn [snd].
        apply IH. intros z Hz. apply Hok'. by right.
Qed.

(** a failure ends the scan of the chokepoint: the result is that of the
    variables before it *)
Lemma scan_variables_failure cid pre bad post m :
  (forall x, x ∈ pre -> is_ok (get_missing_dates fs now cid x None) = true) ->
  is_ok (get_missing_dates fs now cid bad None) = false ->
  (scan_variables fs now cid (pre ++ bad :: post) m).1
  = (scan_variables fs now cid pre m).1
  /\ is_Some (scan_variables fs now cid (pre ++ bad :: post) m).2.
Proof.
  intros Hok Hbad. revert m.
  induction pre as [|x pre IH]; intros m; cbn [app scan_variables].
  - destruct (get_missing_dates fs now cid bad None); [done|]. by eauto.
  - assert (Hokx := Hok x ltac:(by left)).
    destruct (get_missing_dates fs now cid x None) as [l|e]; [|done].
    apply IH. intros y Hy. apply Hok. by right.
Qed.

End ScanFacts.

(** C9 (as the code has it). The [try] block covers one chokepoint: the
    configuration and the loop over its variables. For a chokepoint whose
    variables all scan, every variable with missing dates is in the mapping,
    whatever fails in other chokepoints. When the scan of a variable fails,
    the error of its chokepoint is printed, the variables scanned before it
    are in the mapping, and no other variable of that chokepoint is. *)
Theorem C9_failure_isolated_per_chokepoint (reg : registry) (fs : data_fs)
    (now : Z) (cid : string) (vars : list (string * var_config)) :
  NoDup reg.*1 -> (cid, ConfigDict vars) ∈ reg ->
  let scan := BackfillManager.get_all_missing_dates reg fs now in
  let missing v := BackfillManager.get_missing_dates fs now cid v None in
  ((forall x, x ∈ vars.*1 -> is_ok (missing x) = true) ->
   forall v l, v ∈ vars.*1 -> missing v = Ok l -> l <> [] ->
               scan.1 !! (cid, v) = Some l)
  /\ (forall pre bad post,
        vars.*1 = (pre ++ bad :: post)%list ->
        (forall x, x ∈ pre -> is_ok (missing x) = true) ->
        is_ok (missing bad) = false ->
        cid ∈ scan.2
        /\ (forall v l, v ∈ pre -> missing v = Ok l -> l <> [] ->
                        scan.1 !! (cid, v) = Some l)
        /\ (forall v, v ∉ pre -> scan.1 !! (cid, v) = None)).
Proof.
  intros Hnd Hin. cbv zeta. unfold BackfillManager.get_all_missing_dates.
  assert (Hpart : forall v,
            (BackfillManager.scan_all fs now reg ∅).1 !! (cid, v)
            = (BackfillManager.scan_variables fs now cid vars.*1 ∅).1 !! (cid, v)).
  { intros v. rewrite (scan_all_chokepoint fs now reg cid (ConfigDict vars) v ∅ Hnd Hin).
    rewrite (right_id_L ∅ (∪)). cbn.
    by destruct (BackfillManager.scan_variables fs now cid vars.*1 ∅) as [m' [e|]]. }
  split.
  - intros Hok v l Hv Hmiss Hl. rewrite Hpart.
    by apply scan_variables_complete.
  - intros pre bad post Hvars Hok Hbad.
    destruct (scan_variables_failure fs now cid pre bad post ∅ Hok Hbad)
      as [Hres Herr].
    split_and!.
    + apply (scan_all_errors fs now reg (cid, ConfigDict vars) ∅ Hin). cbn.
      rewrite Hvars.
      by destruct (BackfillManager.scan_variables fs now cid
                     (pre ++ bad :: post) ∅) as [m' [e|]];
        [|destruct Herr].
    + intros v l Hv Hmiss Hl. rewrite Hpart, Hvars, Hres.
      by apply scan_variables_complete.
    + intros v Hv. rewrite Hpart, Hvars, Hres.
      by apply scan_variables_not_scanned.
Qed.

Lemma C9_failure_isolated_per_chokepoint_witness :
  (BackfillManager.get_all_missing_dates Scenario.reg3 Scenario.fs_denied
     Scenario.jan8).1 !! ("panama-canal", Scenario.var)
  = Some Scenario.last_31_days.
Proof.
  assert (Hnd : NoDup Scenario.reg3.*1) by compute_done.
  assert (Hin : ("panama-canal",
                 ConfigDict [(Scenario.var, {| vc_source := Some Scenario.url |})])
                ∈ Scenario.reg3) by (right; left).
  destruct (C9_failure_isolated_per_chokepoint Scenario.reg3 Scenario.fs_denied
              Scenario.jan8 _ _ Hnd Hin) as [H _].
  apply H.
  - intros x ->%list_elem_of_singleton. vm_compute. reflexivity.
  - by left.
  - vm_compute. reflexivity.
  - discriminate.
Defined.

(** C9 as stated fails: the directory of the second variable of a chokepoint
    cannot be entered; its third variable could be scanned (31 dates are
    missing) but is not in the mapping, while the first one and the other
    chokepoint are. *)
Lemma C9_counterexample :
  let scan := BackfillManager.get_all_missing_dates Scenario.reg3
                Scenario.fs_denied Scenario.jan8 in
  length <$> scan.1 !! (Scenario.cp, Scenario.var) = Some 31%nat
  /\ length <$> scan.1 !! ("panama-canal", Scenario.var) = Some 31%nat
  /\ match BackfillManager.get_missing_dates Scenario.fs_denied Scenario.jan8
             Scenario.cp "wait_time" None with
     | Ok l => length l = 31%nat
     | Raise _ => False
     end
  /\ scan.1 !! (Scenario.cp, "wait_time") = None
  /\ scan.2 = [Scenario.cp].
Proof. vm_compute. repeat split. Qed.

(** ** Gaps of one variable *)

Section GapFacts.
Import Calendar BackfillManager.
Local Open Scope Z_scope.

Lemma toordinal_add_days t n : toordinal (t + n * US_PER_DAY) = toordinal t + n.
Proof.
  unfold toordinal, US_PER_DAY, US_PER_SECOND. rewrite Z.div_add by lia. lia.
Qed.

Lemma toordinal_mono t t' : t <= t' -> toordinal t <= toordinal t'.
Proof.
  intros H. unfold toordinal, US_PER_DAY, US_PER_SECOND.
  pose proof (Z.div_le_mono t t' (86400 * 1000000) ltac:(lia) H). lia.
Qed.

Lemma days_of_months_nonneg y k : 0 <= days_of_months y k.
Proof.
  induction k as [|k IH]; cbn [days_of_months]; [lia|].
  pose proof (days_in_month_range y (Z.of_nat (S k))). lia.
Qed.

Lemma days_before_year_nonneg y : 1 <= y -> 0 <= days_before_year y.
Proof.
  intros Hy. unfold days_before_year. cbv zeta. Z.div_mod_to_equations. lia.
Qed.

Lemma parse_upto_pos hi sp s v : parse_upto hi sp s = Some v -> 1 <= v.
Proof.
  unfold parse_upto. destruct s as [|a [|b [|]]]; try done.
  - destruct (digit_val a) as [da|]; cbn; [|done].
    destruct (Z.leb_spec 1 da); [|done]. by intros [= <-].
  - destruct (sp && Ascii.eqb a " ").
    + destruct (digit_val b) as [db|]; cbn; [|done].
      destruct (Z.leb_spec 1 db); [|done]. by intros [= <-].
    + destruct (digit_val a) as [da|]; cbn; [|done].
      destruct (digit_val b) as [db|]; cbn; [|done].
      destruct (Z.leb_spec 1 (da * 10 + db)); [|done]. cbn.
      destruct (_ <=? _); [|done]. by intros [= <-].
Qed.

(** a parsed date is the midnight of a day of the calendar *)
Lemma strptime_midnight s t :
  strptime s = Some t -> exists o, t = midnight o /\ 1 <= o.
Proof.
  unfold strptime. destruct (Str.split_on "-" s) as [|ys [|ms [|ds [|]]]]; try done.
  destruct (parse_year ys) as [y|]; cbn; [|done].
  destruct (parse_upto 12 false ms) as [m|] eqn:Hm; cbn; [|done].
  destruct (parse_upto 31 true ds) as [d|] eqn:Hd; cbn; [|done].
  destruct (Z.leb_spec 1 y); [|done]. cbn. destruct (_ <=? _); [|done].
  intros [= <-]. eexists. split; [done|]. unfold ymd2ord.
  pose proof (days_before_year_nonneg y ltac:(done)).
  pose proof (days_of_months_nonneg y (Z.to_nat (m - 1))).
  apply parse_upto_pos in Hd. unfold days_before_month. lia.
Qed.

Lemma date_loop_spec fuel : forall current end_,
  0 <= toordinal current ->
  valid_datetime (end_ + 1 * US_PER_DAY) = true ->
  (end_ - current) / US_PER_DAY + 1 <= Z.of_nat fuel ->
  date_loop fuel current end_
  = Ok (format_ordinal
          <$> seqZ (toordinal current)
                (if current <=? end_ then (end_ - current) / US_PER_DAY + 1 else 0)).
Proof.
  assert (Hday : 0 < US_PER_DAY) by (unfold US_PER_DAY, US_PER_SECOND; lia).
  induction fuel as [|fuel IH]; intros current end_ Hcur Hend Hfuel;
    cbn [date_loop].
  - destruct (Z.leb_spec current end_) as [Hle|Hgt]; [|done].
    pose proof (Z.div_pos (end_ - current) US_PER_DAY ltac:(lia) Hday). lia.
  - destruct (Z.leb_spec current end_) as [Hle|Hgt]; [|done].
    assert (Hvalid : valid_datetime (current + 1 * US_PER_DAY) = true).
    { unfold valid_datetime, valid_ordinal in *.
      apply andb_true_iff in Hend as [_ Hmax]. apply Z.leb_le in Hmax.
      rewrite toordinal_add_days in *.
      pose proof (toordinal_mono current end_ Hle).
      apply andb_true_iff. split; apply Z.leb_le; lia. }
    unfold add_days. rewrite Hvalid.
    assert (Hdiv : (end_ - (current + 1 * US_PER_DAY)) / US_PER_DAY
                   = (end_ - current) / US_PER_DAY - 1).
    { replace (end_ - (current + 1 * US_PER_DAY))
        with (end_ - current + (-1) * US_PER_DAY) by lia.
      rewrite Z.div_add by lia. lia. }
    rewrite IH; [| rewrite toordinal_add_days; lia | done | lia].
    cbn. f_equal. rewrite toordinal_add_days.
    pose proof (Z.div_pos (end_ - current) US_PER_DAY ltac:(lia) Hday).
    rewrite (seqZ_cons (toordinal current)) by lia. cbn. f_equal. f_equal.
    unfold strftime. f_equal.
    replace (Z.pred ((end_ - current) / US_PER_DAY + 1))
      with ((end_ - current) / US_PER_DAY) by lia.
    replace (Z.succ (toordinal current)) with (toordinal current + 1) by lia.
    destruct (Z.leb_spec (current + 1 * US_PER_DAY) end_) as [Hle'|Hgt'].
    + by rewrite Hdiv, Z.sub_add.
    + assert ((end_ - current) / US_PER_DAY = 0) as ->; [|done].
      apply Z.div_small. lia.
Qed.

Lemma all_dates_spec start end_ :
  0 <= toordinal start ->
  valid_datetime (end_ + 1 * US_PER_DAY) = true ->
  (start `mod` US_PER_DAY = 0 \/ start = end_ + (-30) * US_PER_DAY) ->
  all_dates start end_
  = Ok (format_ordinal
          <$> seqZ (toordinal start) (toordinal end_ - toordinal start + 1)).
Proof.
  assert (Hday : 0 < US_PER_DAY) by (unfold US_PER_DAY, US_PER_SECOND; lia).
  intros Hstart Hend Hshape. unfold all_dates.
  rewrite date_loop_spec; [|done|done|].
  2: { set (q := (end_ - start) / US_PER_DAY). lia. }
  do 2 f_equal.
  assert (Hdiff : (end_ - start) / US_PER_DAY = toordinal end_ - toordinal start).
  { unfold toordinal. destruct Hshape as [Hmod | ->].
    - apply Z.mod_divide in Hmod as [q Hq]; [|lia]. rewrite Hq.
      replace (end_ - q * US_PER_DAY) with (end_ + (- q) * US_PER_DAY) by lia.
      rewrite Z.div_add, Z.div_mul by lia. lia.
    - replace (end_ - (end_ + -30 * US_PER_DAY)) with (0 + 30 * US_PER_DAY) by lia.
      rewrite !Z.div_add by lia. rewrite Z.div_0_l by lia. lia. }
  destruct (Z.leb_spec start end_) as [Hle|Hgt]; [f_equal; lia|].
  pose proof (Z.div_lt_upper_bound (end_ - start) US_PER_DAY 0 Hday ltac:(lia)).
  rewrite !seqZ_nil; [done|lia|lia].
Qed.

Lemma filter_fmap_dates (P : string -> Prop) `{!forall s, Decision (P s)}
    (l : list Z) :
  filter P (format_ordinal <$> l)
  = format_ordinal <$> filter (fun o => P (format_ordinal o)) l.
Proof.
  induction l as [|o l IH]; [done|].
  rewrite fmap_cons, !filter_cons, IH. by destruct (decide (P _)).
Qed.

Lemma seqZ_sorted m n : StronglySorted Z.lt (seqZ m n).
Proof.
  destruct (Z.le_gt_cases n 0) as [Hn|Hn].
  { rewrite seqZ_nil by done. constructor. }
  rewrite <- (Z2Nat.id n) by lia. generalize (Z.to_nat n). clear. intros k.
  induction k as [|k IH]; [constructor|].
  rewrite seqZ_S. apply StronglySorted_app_2; [|done|repeat constructor].
  intros x y [_ Hx]%elem_of_seqZ ->%list_elem_of_singleton. lia.
Qed.

Lemma filter_sorted (P : Z -> Prop) `{!forall o, Decision (P o)} l :
  StronglySorted Z.lt l -> StronglySorted Z.lt (filter P l).
Proof.
  induction 1 as [|x l Hs IH Hall]; [constructor|].
  rewrite filter_cons. destruct (decide (P x)); [|done].
  constructor; [done|]. apply Forall_forall. intros y [_ Hy]%list_elem_of_filter.
  rewrite Forall_forall in Hall. by apply Hall.
Qed.

Lemma filter_all {A} (P : A -> Prop) `{!forall x, Decision (P x)} (l : list A) :
  (forall x, P x) -> filter P l = l.
Proof.
  intros HP. induction l as [|x l IH]; [done|].
  by rewrite filter_cons_True, IH.
Qed.

End GapFacts.

(** C5. [get_missing_dates] returns, in ascending order, the dates of the
    days from the start date to the day of the clock reading, both included,
    for which no file is stored; the start is the given date or, by default,
    30 days before the clock reading, and the end is the clock reading. A
    missing directory or an empty one gives every date of the range. *)
Theorem C5_gap_detection (fs : data_fs) (now : Z) (c v : string)
    (start_date : option string) (start : Z) :
  fs !! (c, v) <> Some Denied ->
  Calendar.valid_datetime (now + 1 * Calendar.US_PER_DAY) = true ->
  match start_date with
  | None => Calendar.add_days now (-30)
  | Some s => Calendar.strptime s
  end = Some start ->
  let lo := Calendar.toordinal start in
  let hi := Calendar.toordinal now in
  let missing :=
    filter (fun o => stored fs c v (Calendar.format_ordinal o) = None)
      (seqZ lo (hi - lo + 1)) in
  BackfillManager.get_missing_dates fs now c v start_date
  = Ok (Calendar.format_ordinal <$> missing)
  /\ StronglySorted Z.lt missing
  /\ (forall o, o ∈ missing <->
                (lo <= o <= hi)%Z /\ stored fs c v (Calendar.format_ordinal o) = None)
  /\ (start_date = None -> lo = (hi - 30)%Z)
  /\ ((forall d, stored fs c v d = None) ->
      BackfillManager.get_missing_dates fs now c v start_date
      = Ok (Calendar.format_ordinal <$> seqZ lo (hi - lo + 1))).
Proof.
  intros Hdir Hnow Hstart. cbv zeta.
  assert (Hday : (0 < Calendar.US_PER_DAY)%Z)
    by (unfold Calendar.US_PER_DAY, Calendar.US_PER_SECOND; lia).
  assert (Hshape : (0 <= Calendar.toordinal start)%Z
                   /\ ((start `mod` Calendar.US_PER_DAY = 0)%Z
                       \/ start = (now + (-30) * Calendar.US_PER_DAY)%Z)
                   /\ (start_date = None ->
                       Calendar.toordinal start = (Calendar.toordinal now - 30)%Z)).
  { destruct start_date as [s|].
    - apply strptime_midnight in Hstart as (o & -> & Ho).
      rewrite toordinal_midnight. split_and!; [lia| |done].
      left. unfold Calendar.midnight. by rewrite Z.mod_mul by lia.
    - unfold Calendar.add_days in Hstart. cbv zeta in Hstart.
      destruct (Calendar.valid_datetime (now + -30 * Calendar.US_PER_DAY))
        eqn:Hv; [|done].
      apply (inj Some) in Hstart. subst start. rewrite toordinal_add_days.
      unfold Calendar.valid_datetime, Calendar.valid_ordinal in Hv.
      rewrite toordinal_add_days in Hv.
      apply andb_true_iff in Hv as [Hlo _]. apply Z.leb_le in Hlo.
      split_and!; [lia|by right|intros _; lia]. }
  destruct Hshape as (Hlo & Hmod & Hdefault).
  assert (Hget : BackfillManager.get_missing_dates fs now c v start_date
                 = Ok (filter (fun d => stored fs c v d = None)
                         (Calendar.format_ordinal
                            <$> seqZ (Calendar.toordinal start)
                                  (Calendar.toordinal now
                                   - Calendar.toordinal start + 1)))).
  { unfold BackfillManager.get_missing_dates.
    assert (Hs : match start_date with
                 | None =>
                     match Calendar.add_days now (-30) with
                     | Some start => Ok start
                     | None => Raise (OverflowError "date value out of range")
                     end
                 | Some s =>
                     match Calendar.strptime s with
                     | Some start => Ok start
                     | None =>
                         Raise (ValueError
                                  ("time data does not match format: " ++ s))
                     end
                 end = Ok start).
    { destruct start_date; by rewrite Hstart. }
    rewrite Hs. cbn. rewrite (all_dates_spec start now Hlo Hnow Hmod). cbn.
    unfold stored. destruct (fs !! (c, v)) as [[d|]|]; [done|done|].
    by rewrite filter_all. }
  split_and!.
  - by rewrite Hget, filter_fmap_dates.
  - apply filter_sorted, seqZ_sorted.
  - intros o. rewrite list_elem_of_filter, elem_of_seqZ. split; intros [? ?]; split; auto; lia.
  - done.
  - intros Hnone. by rewrite Hget, filter_all.
Qed.

(** the gap of the specification: with files for 2024-01-01 and 2024-01-03
    and the range from 2024-01-01 to the clock's 2024-01-03, exactly
    2024-01-02 is missing *)
Lemma C5_gap_detection_witness :
  BackfillManager.get_missing_dates
    (Scenario.fs_of [("2024-01-01", 3%Z); ("2024-01-03", 5%Z)] None)
    Scenario.jan3 Scenario.cp Scenario.var (Some "2024-01-01")
  = Ok ["2024-01-02"].
Proof.
  destruct (C5_gap_detection
              (Scenario.fs_of [("2024-01-01", 3%Z); ("2024-01-03", 5%Z)] None)
              Scenario.jan3 Scenario.cp Scenario.var (Some "2024-01-01")
              (Calendar.midnight 738886)) as [Heq _].
  - vm_compute. discriminate.
  - vm_compute. reflexivity.
  - vm_compute. reflexivity.
  - rewrite Heq. vm_compute. reflexivity.
Defined.

(** ** The watermark over incremental runs *)

Section MonotoneFacts.
Import Calendar IMFPortWatchCollector DataCollector.
Local Open Scope Z_scope.

Lemma fetch_start_epoch up tz url c sd se features :
  fetch up tz url c sd = Ok (se, features) -> start_epoch_of tz sd = Ok se.
Proof.
  unfold fetch. destruct (dict_get c CHOKEPOINT_MAP); [|done].
  destruct (_extract_api_url up url s); [|done].
  destruct (start_epoch_of tz sd) as [se'|]; [|done]. cbn.
  destruct (http_get up _); try done. by intros [= <- <-].
Qed.

(** the records that pass the filter are dated on or after the start day *)
Lemma process_features_dates tz o features : forall rs,
  process_features tz (Some (epoch_ms tz (midnight o))) features = Ok rs ->
  forall r, r ∈ rs ->
    exists t, valid_datetime t = true /\ dr_date r = strftime t /\ o <= toordinal t.
Proof.
  induction features as [|f features IH]; intros rs; cbn [process_features].
  - intros [= <-] r Hr. by apply elem_of_nil in Hr.
  - destruct (attributes f) as [a|]; [|done].
    destruct (at_date a) as [ms|]; [|by apply IH].
    destruct (ms =? 0); [by apply IH|].
    destruct (Z.ltb_spec ms (epoch_ms tz (midnight o))) as [Hlt|Hge]; [by apply IH|].
    unfold fromtimestamp at 1.
    destruct (valid_datetime _) eqn:Hvalid; [|done]. cbn.
    destruct (process_features _ _ features) as [more|]; [|done]. cbn.
    intros [= <-] r [->|Hr]%elem_of_cons; [|by eapply IH].
    eexists. split; [exact Hvalid|]. split; [done|].
    revert Hge. unfold epoch_ms, midnight, toordinal, EPOCH_ORDINAL,
      US_PER_DAY, US_PER_SECOND.
    replace ((o - 1) * (86400 * 1000000) - (719163 - 1) * (86400 * 1000000)
             - tz * 1000000)
      with (((o - 1) * 86400000 - 719162 * 86400000 - tz * 1000) * 1000) by lia.
    rewrite Z.quot_mul by lia. intros Hge.
    assert ((o - 1) * (86400 * 1000000)
            <= (719163 - 1) * (86400 * 1000000) + ms * 1000 + tz * 1000000) as Hle
      by lia.
    apply (Z.div_le_mono _ _ (86400 * 1000000)) in Hle; [|lia].
    rewrite Z.div_mul in Hle by lia. lia.
Qed.

Lemma collect_dates up tz now url c v t1 r :
  valid_datetime t1 = true -> ORDINAL_1000 <= toordinal t1 ->
  r ∈ default [] (time_series
                    (IMFPortWatchCollector.collect up tz now url c v
                       (Some (strftime t1)))) ->
  exists t, valid_datetime t = true /\ dr_date r = strftime t
            /\ toordinal t1 <= toordinal t.
Proof.
  intros Hv1 H1000. unfold IMFPortWatchCollector.collect, collect_body.
  destruct (fetch up tz url c (Some (strftime t1))) as [[se features]|e] eqn:Hf;
    cbn -[process_features]; [|by intros ?%elem_of_nil].
  apply fetch_start_epoch in Hf. unfold start_epoch_of in Hf.
  destruct (strftime_nonempty t1) as (a & s & E). rewrite E, <- E in Hf.
  rewrite (strptime_strftime t1 Hv1 H1000) in Hf. injection Hf as <-.
  destruct features as [[|f features]|]; cbn -[process_features];
    try by intros ?%elem_of_nil.
  destruct (process_features _ _ (f :: features)) as [rs|] eqn:Hp;
    cbn; [|by intros ?%elem_of_nil].
  rewrite sort_by_date_perm. by eapply process_features_dates.
Qed.

(** a start date before year 1000 is formatted with a short year: the
    collector cannot parse it and returns no record *)
Lemma collect_short_start up tz now url c v t1 :
  valid_datetime t1 = true -> toordinal t1 < ORDINAL_1000 ->
  time_series (IMFPortWatchCollector.collect up tz now url c v (Some (strftime t1)))
  = Some [].
Proof.
  intros Hv1 H1000. unfold IMFPortWatchCollector.collect, collect_body, fetch.
  destruct (dict_get c CHOKEPOINT_MAP) as [portid|]; [|done].
  destruct (_extract_api_url up url portid) as [query_url|]; [|done].
  unfold start_epoch_of. destruct (strftime_nonempty t1) as (a & s & E).
  rewrite E, <- E. unfold strftime.
  by rewrite (strptime_format_ordinal_short _ Hv1 H1000).
Qed.

Lemma latest_day_strftime fs c v m t :
  watermark fs c v = Some m -> md_latest_date m = strftime t ->
  valid_datetime t = true -> ORDINAL_1000 <= toordinal t ->
  latest_day fs c v = Some (toordinal t).
Proof.
  intros Hw Hm Hv H1000. unfold latest_day. rewrite Hw. cbn [mbind option_bind].
  rewrite Hm, (strptime_strftime t Hv H1000). cbn [mbind option_bind].
  by rewrite toordinal_midnight.
Qed.

(** one incremental call does not move the watermark of any variable back *)
Lemma collect_incremental_monotone reg up tz t1 t2 fs c v fs' data rep c0 v0 d0 :
  DataCollector.collect reg up tz t1 t2 fs c v true = Ok (fs', data, rep) ->
  latest_day fs c0 v0 = Some d0 ->
  exists d1, latest_day fs' c0 v0 = Some d1 /\ d0 <= d1.
Proof.
  intros (url & sd & _ & Hsd & -> & Hsave)%collect_inv Hday.
  apply save_data_inv in Hsave as (d & d' & Hmk & Hinto & ->).
  destruct (decide ((c, v) = (c0, v0))) as [[= -> ->]|Hne].
  2: { exists d0. split; [|lia]. revert Hday. unfold latest_day, watermark.
       by rewrite lookup_insert_ne. }
  assert (Hmeta := save_into_meta d t2 c0 v0
                     (IMFPortWatchCollector.collect up tz t1 url c0 v0 sd)).
  rewrite Hinto in Hmeta. cbn [fst] in Hmeta.
  rewrite (mkdir_watermark _ _ _ _ Hmk) in Hmeta.
  destruct (last _) as [r|] eqn:Hlast.
  2: { exists d0. split; [|lia]. revert Hday. unfold latest_day.
       by rewrite watermark_insert, Hmeta. }
  (* the start date is the day after the watermark *)
  revert Hday Hsd. unfold latest_day, start_date_of, _get_latest_date, watermark.
  destruct (fs !! (c0, v0)) as [[dir|]|]; try done.
  destruct (meta dir) as [m|]; [|done]. cbn.
  destruct (md_latest_date m) as [|a s] eqn:Hs; [done|].
  destruct (strptime (String a s)) as [t0|] eqn:Hparse; [|done]. cbn.
  intros [= <-]. destruct (add_days t0 1) as [next|] eqn:Hadd; [|done].
  intros [= <-].
  assert (Hnext : valid_datetime next = true) by by eapply add_days_valid.
  assert (Hord : toordinal next = toordinal t0 + 1).
  { unfold add_days in Hadd. destruct (valid_datetime _); [|done].
    injection Hadd as <-. apply toordinal_add_days. }
  destruct (Z.le_gt_cases ORDINAL_1000 (toordinal next)) as [H1000|Hshort].
  2: { by rewrite (collect_short_start up tz t1 url c0 v0 next Hnext) in Hlast
         by lia. }
  destruct (collect_dates up tz t1 url c0 v0 next r Hnext H1000)
    as (t & Hv & Hr & Hle).
  { by eapply last_Some_elem_of. }
  exists (toordinal t). split; [|lia].
  apply (latest_day_strftime _ _ _ (_update_metadata t2 c0 v0 (dr_date r)) t);
    [|exact Hr|done|lia].
  by rewrite watermark_insert, Hmeta.
Qed.

Lemma run_incremental_monotone reg tz calls c0 v0 : forall st d0,
  Forall (fun cl => call_incremental cl = true) calls ->
  latest_day st.1 c0 v0 = Some d0 ->
  exists d1, latest_day (foldl (run_step reg tz) st calls).1 c0 v0 = Some d1
             /\ d0 <= d1.
Proof.
  induction calls as [|cl calls IH]; intros st d0 Hinc Hday; cbn [foldl].
  - exists d0. split; [done|lia].
  - apply Forall_cons in Hinc as [Hcl Hinc].
    assert (exists d1, latest_day (run_step reg tz st cl).1 c0 v0 = Some d1
                       /\ d0 <= d1) as (d1 & Hd1 & Hle).
    { unfold run_step. rewrite Hcl.
      destruct (DataCollector.collect _ _ _ _ _ _ _ _ _)
        as [[[fs' data] rep]|e] eqn:Hc; cbn [fst].
      - by eapply collect_incremental_monotone.
      - exists d0. split; [done|lia]. }
    destruct (IH _ d1 Hinc Hd1) as (d2 & Hd2 & Hle'). exists d2. split; [done|lia].
Qed.

End MonotoneFacts.

(** C6 (as the code has it). Across any sequence of [collect] calls in
    incremental mode, whatever the upstream returns, the day of the
    watermark's latest date of every variable never decreases: an
    incremental call keeps only records dated after the watermark. *)
Theorem C6_watermark_monotone_incremental (reg : registry) (tz : Z)
    (fs : data_fs) (calls : list call) (c v : string) (d0 : Z) :
  Forall (fun cl => call_incremental cl = true) calls ->
  latest_day fs c v = Some d0 ->
  exists d1, latest_day (run_collects reg tz fs calls).1 c v = Some d1
             /\ (d0 <= d1)%Z.
Proof.
  intros Hinc Hday. unfold run_collects.
  by apply (run_incremental_monotone reg tz calls c v (fs, [])).
Qed.

Lemma C6_watermark_monotone_incremental_witness :
  exists d1,
    latest_day
      (run_collects Scenario.reg 0
         (Scenario.fs_of [("2024-01-05", 3%Z)] (Some "2024-01-05"))
         [ {| call_up := Scenario.upstream_with
                           [Scenario.feature_on 738892 5; Scenario.feature_on 738891 4];
              call_t_fetch := Scenario.jan8; call_t_save := Scenario.jan8;
              call_chokepoint := Scenario.cp; call_variable := Scenario.var;
              call_incremental := true |};
           {| call_up := Scenario.quiet_upstream;
              call_t_fetch := Scenario.jan8; call_t_save := Scenario.jan8;
              call_chokepoint := Scenario.cp; call_variable := Scenario.var;
              call_incremental := true |} ]).1
      Scenario.cp Scenario.var = Some d1
    /\ (738890 <= d1)%Z.
Proof.
  apply C6_watermark_monotone_incremental.
  - repeat constructor.
  - vm_compute. reflexivity.
Defined.

(** C6 as stated fails for a call in full mode: the watermark is on
    2024-01-06, the upstream returns the record of 2024-01-05 only, the call
    succeeds and the watermark moves back to 2024-01-05. *)
Lemma C6_counterexample :
  match DataCollector.collect Scenario.reg
          (Scenario.upstream_with [Scenario.feature_on 738890 3]) 0
          Scenario.jan8 Scenario.jan8
          (Scenario.fs_of [("2024-01-05", 3%Z); ("2024-01-06", 4%Z)]
             (Some "2024-01-06"))
          Scenario.cp Scenario.var false with
  | Ok (fs', data, rep) =>
      status data = "success"
      /\ latest_day (Scenario.fs_of [("2024-01-05", 3%Z); ("2024-01-06", 4%Z)]
                       (Some "2024-01-06")) Scenario.cp Scenario.var
         = Some 738891%Z
      /\ latest_day fs' Scenario.cp Scenario.var = Some 738890%Z
  | Raise _ => False
  end.
Proof. vm_compute. repeat split. Qed.

(** ** The files of a variable *)

Section DatedStoreFacts.
Import Calendar IMFPortWatchCollector DataCollector.

Lemma digit_char_not_underscore d : Ascii.eqb "_" (digit_char d) = false.
Proof.
  unfold digit_char. pose proof (digit_cases d) as H. cbv zeta in H.
  repeat destruct H as [H|H]; rewrite H; reflexivity.
Qed.

(** a formatted date does not start with an underscore *)
Lemma strftime_shape t : Str.startswith "_" (strftime t) = false.
Proof.
  assert (Hdigit : forall d s, Str.startswith "_" (String (digit_char d) s) = false).
  { intros d s. unfold Str.startswith. cbn [String.prefix].
    destruct (ascii_dec "_" (digit_char d)) as [E|_]; [|done].
    pose proof (digit_char_not_underscore d) as H. rewrite <- E in H. done. }
  unfold strftime, format_ordinal. destruct (ord2ymd _) as [[y m] d].
  unfold year_digits.
  destruct (_ <? 10)%Z; [|destruct (_ <? 100)%Z; [|destruct (_ <? 1000)%Z]];
    unfold pad4, pad2; cbv [String.append]; apply Hdigit.
Qed.

Lemma process_features_strftime tz se features : forall rs,
  process_features tz se features = Ok rs ->
  forall r, r ∈ rs -> exists t, dr_date r = strftime t.
Proof.
  induction features as [|f features IH]; intros rs; cbn [process_features].
  - intros [= <-] r Hr. by apply elem_of_nil in Hr.
  - destruct (attributes f) as [a|]; [|done].
    destruct (at_date a) as [ms|]; [|by apply IH].
    destruct (Z.eqb ms 0); [by apply IH|].
    destruct (match se with Some e => (ms <? e)%Z | None => false end);
      [by apply IH|].
    destruct (fromtimestamp tz ms) as [dt|]; [|done]. cbn.
    destruct (process_features tz se features) as [more|]; [|done]. cbn.
    intros [= <-] r [->|Hr]%elem_of_cons; [by eexists|by eapply IH].
Qed.

Lemma collect_strftime up tz now url c v sd r :
  r ∈ default [] (time_series (IMFPortWatchCollector.collect up tz now url c v sd)) ->
  exists t, dr_date r = strftime t.
Proof.
  unfold IMFPortWatchCollector.collect, collect_body.
  destruct (fetch up tz url c sd) as [[se [[|f features]|]]|e];
    cbn -[process_features]; try by intros ?%elem_of_nil.
  destruct (process_features tz se (f :: features)) as [rs|] eqn:Hp; cbn;
    [|by intros ?%elem_of_nil].
  rewrite sort_by_date_perm. by eapply process_features_strftime.
Qed.

(** what the loop leaves was there before or is the package of a record *)
Lemma save_loop_files c v data ts : forall fls rep k x,
  (save_loop c v data ts fls rep).1 !! k = Some x ->
  fls !! k = Some x
  \/ exists r, r ∈ ts /\ k = dr_date r /\ x = daily_data c v data r.
Proof.
  induction ts as [|r ts IH]; intros fls rep k x; cbn [save_loop]; [by left|].
  destruct (fls !! dr_date r) eqn:Hlook; intros [H|(r' & Hr' & ? & ?)]%IH.
  - by left.
  - right. exists r'. split; [by right|done].
  - destruct (decide (dr_date r = k)) as [<-|Hne].
    + rewrite lookup_insert_eq in H. injection H as <-.
      right. exists r. split; [by left|done].
    + rewrite lookup_insert_ne in H by done. by left.
  - right. exists r'. split; [by right|done].
Qed.

End DatedStoreFacts.

(** the stores of the scenarios are of that kind *)
Lemma dated_store_fs_of (dates : list (string * Z)) latest :
  Forall (fun p => String.length p.1 = 10%nat /\ Str.startswith "_" p.1 = false)
         dates ->
  dated_store (Scenario.fs_of dates latest) Scenario.cp Scenario.var.
Proof.
  intros Hall d x. unfold stored, Scenario.fs_of.
  rewrite lookup_singleton_eq. cbn [Scenario.dir_of files mbind option_bind].
  intros Hx%elem_of_list_to_map_2.
  apply list_elem_of_fmap in Hx as ([d' n] & [= -> ->] & Hin).
  rewrite Forall_forall in Hall. destruct (Hall _ Hin) as [Hlen Hus].
  split_and!; [done|done|]. by eexists.
Qed.

(** ** Appending to the CSV *)

Section RenderFacts.
Import DataProcessor.

Lemma append_nil_r s : s ++ "" = s.
Proof.
  induction s as [|a s IH]; [done|].
  change (String a s ++ "") with (String a (s ++ "")). by rewrite IH.
Qed.

Lemma last_char_app s t : t <> "" -> Str.last_char (s ++ t) = Str.last_char t.
Proof.
  intros Ht. induction s as [|a s IH]; [done|].
  change (String a s ++ t) with (String a (s ++ t)). cbn [Str.last_char].
  destruct (s ++ t) eqn:E; [|done].
  destruct s; [|done]. cbn in E. by subst.
Qed.


Lemma writerow_last fields : Str.last_char (Csv.writerow fields) = Some Str.LF.
Proof. unfold Csv.writerow, Csv.CRLF. by rewrite last_char_app. Qed.

Lemma writerow_nonempty fields : Csv.writerow fields <> "".
Proof.
  intros E. pose proof (writerow_last fields) as H. by rewrite E in H.
Qed.


Lemma concat_rows_last (lines : list string) :
  lines <> [] -> (forall l, l ∈ lines -> Str.last_char l = Some Str.LF) ->
  Str.last_char (String.concat "" lines) = Some Str.LF.
Proof.
  induction lines as [|l lines IH]; [done|]. intros _ Hall.
  destruct lines as [|l' lines].
  - cbn. apply Hall. by left.
  - change (String.concat "" (l :: l' :: lines))
      with (l ++ "" ++ String.concat "" (l' :: lines)).
    change ("" ++ String.concat "" (l' :: lines))
      with (String.concat "" (l' :: lines)).
    assert (Hrest : Str.last_char (String.concat "" (l' :: lines)) = Some Str.LF).
    { apply IH; [done|]. intros x Hx. apply Hall. by right. }
    rewrite last_char_app; [done|]. intros E. by rewrite E in Hrest.
Qed.

Lemma writerows_last rows :
  rows <> [] -> Str.last_char (writerows rows) = Some Str.LF.
Proof.
  intros Hrows. unfold writerows. apply concat_rows_last.
  - by destruct rows.
  - intros l (fields & -> & _)%list_elem_of_fmap. apply writerow_last.
Qed.


#[local] Instance name_le_trans : Transitive name_le.
Proof. intros a b c. unfold name_le. apply transitivity. Qed.

#[local] Instance name_le_total : Total name_le.
Proof. intros a b. unfold name_le. apply total, _. Qed.

Lemma pickle_files_sorted dir : StronglySorted name_le (pickle_files dir).
Proof. unfold pickle_files. apply StronglySorted_merge_sort; apply _. Qed.

Lemma elem_of_pickle_files dir d x :
  (d, x) ∈ pickle_files dir <-> files dir !! d = Some x.
Proof.
  unfold pickle_files. by rewrite merge_sort_Permutation, elem_of_map_to_list.
Qed.

Lemma raw_files_inv fs c v fls :
  raw_files fs c v = Ok fls ->
  exists dir, fs !! (c, v) = Some (Dir dir) /\ fls = pickle_files dir /\ fls <> [].
Proof.
  unfold raw_files. destruct (fs !! (c, v)) as [[dir|]|]; try done.
  destruct (pickle_files dir) as [|p l] eqn:E; [done|].
  intros [= <-]. exists dir. by rewrite E.
Qed.






(** on files that are not hidden and carry the date of their name the
    first loop gives one row per file whose date is not in the set *)
Lemma new_rows_dated c v (dates : gset string) fls :
  Forall (fun p => Str.startswith "_" p.1 = false
                   /\ exists sd, p.2 = PDict sd /\ sd_date sd = Some p.1) fls ->
  r_date <$> (new_rows c v dates fls).1 = filter (fun d => d ∉ dates) fls.*1
  /\ (new_rows c v dates fls).2 = [].
Proof.
  induction 1 as [|[d x] fls (Hus & sd & Hx & Hd) Hall IH];
    cbn [new_rows]; [done|].
  destruct (new_rows c v dates fls) as [rows warnings]. cbn [fst snd] in *.
  destruct IH as [IH ->]. cbn [fst snd] in *. rewrite fmap_cons, filter_cons.
  cbn [fst]. rewrite Hus. subst x. rewrite Hd.
  destruct (decide (d ∈ dates)) as [Hin|Hout].
  - rewrite bool_decide_eq_true_2 by done. cbn.
    by rewrite decide_False by (intros ?; done).
  - rewrite bool_decide_eq_false_2 by done. cbn.
    by rewrite decide_True, IH by done.
Qed.

Lemma new_rows_content c v (dates : gset string) fls r :
  r ∈ (new_rows c v dates fls).1 ->
  exists d sd, ((d, PDict sd) ∈ fls) /\ (d ∉ dates)
               /\ sd_date sd = Some (r_date r)
               /\ r = lenient_row c v (r_date r) sd.
Proof.
  induction fls as [|[d x] fls IH]; cbn [new_rows].
  - by intros ?%elem_of_nil.
  - destruct (new_rows c v dates fls) as [rows warnings]. cbn [fst] in *.
    assert (Hrest : r ∈ rows ->
              exists d0 sd, ((d0, PDict sd) ∈ ((d, x) :: fls)) /\ (d0 ∉ dates)
                            /\ sd_date sd = Some (r_date r)
                            /\ r = lenient_row c v (r_date r) sd).
    { intros (d0 & sd & Hin & ?)%IH. exists d0, sd. split; [by right|done]. }
    destruct (Str.startswith "_" d); [done|].
    destruct (decide (d ∈ dates)) as [Hin|Hout].
    { by rewrite bool_decide_eq_true_2. }
    rewrite bool_decide_eq_false_2 by done.
    destruct x as [sd|]; [|done]. destruct (sd_date sd) as [date|] eqn:Hd; [|done].
    cbn [fst]. intros [->|Hr]%elem_of_cons; [|by apply Hrest].
    exists d, sd. split; [by left|]. done.
Qed.


End RenderFacts.




(** ** Writing and reading the CSV *)

Section CsvFacts.
Import Csv.

Lemma app_cons_s (x : ascii) (a b : string) : String x a ++ b = String x (a ++ b).
Proof. done. Qed.

Lemma app_assoc_s (a b c : string) : (a ++ b) ++ c = a ++ (b ++ c).
Proof. induction a as [|x a IH]; [done|]. by rewrite !app_cons_s, IH. Qed.

Lemma app_nil_l_s (a : string) : "" ++ a = a.
Proof. done. Qed.

Lemma universal_newlines_cons c s :
  Ascii.eqb c Str.CR = false ->
  universal_newlines (String c s) = String c (universal_newlines s).
Proof. intros H. cbn [universal_newlines]. by rewrite H. Qed.

Lemma universal_newlines_CR s :
  universal_newlines (String Str.CR s)
  = match s with
    | String c' _ =>
        if Ascii.eqb c' Str.LF then universal_newlines s
        else String Str.LF (universal_newlines s)
    | EmptyString => String Str.LF EmptyString
    end.
Proof. done. Qed.

(** the first character of a quoted body is that of the body *)
Lemma double_quotes_head c s :
  exists r, double_quotes (String c s) = String c r.
Proof. cbn. destruct (Ascii.eqb c Str.DQUOTE); eauto. Qed.

Lemma universal_newlines_double_quotes s : forall t,
  universal_newlines (double_quotes s ++ String Str.DQUOTE t)
  = double_quotes (universal_newlines s)
    ++ universal_newlines (String Str.DQUOTE t).
Proof.
  induction s as [|c s IH]; intros t; [done|].
  destruct (Ascii.eqb c Str.CR) eqn:Ecr.
  - apply Ascii.eqb_eq in Ecr as ->.
    change (double_quotes (String Str.CR s)) with (String Str.CR (double_quotes s)).
    rewrite app_cons_s, !universal_newlines_CR.
    destruct s as [|c' s'].
    + done.
    + destruct (double_quotes_head c' s') as [r Hr].
      specialize (IH t). rewrite Hr in *. rewrite app_cons_s in *.
      destruct (Ascii.eqb c' Str.LF); [done|].
      rewrite IH. done.
  - rewrite (universal_newlines_cons c s Ecr).
    cbn [double_quotes]. destruct (Ascii.eqb c Str.DQUOTE) eqn:Edq.
    + apply Ascii.eqb_eq in Edq as ->.
      rewrite !app_cons_s, !universal_newlines_cons by done. by rewrite IH.
    + rewrite !app_cons_s, universal_newlines_cons by done. by rewrite IH.
Qed.

Lemma needs_quote_cons_false c s :
  needs_quote (String c s) = false ->
  Ascii.eqb c Str.COMMA = false /\ Ascii.eqb c Str.DQUOTE = false
  /\ Ascii.eqb c Str.CR = false /\ Ascii.eqb c Str.LF = false
  /\ needs_quote s = false.
Proof.
  cbn [needs_quote]. intros H.
  repeat (apply orb_false_iff in H as [H ?]). done.
Qed.

Lemma universal_newlines_plain s : forall t,
  needs_quote s = false ->
  universal_newlines (s ++ t) = s ++ universal_newlines t.
Proof.
  induction s as [|c s IH]; intros t H; [done|].
  apply needs_quote_cons_false in H as (_ & _ & Hcr & _ & Hs).
  by rewrite !app_cons_s, universal_newlines_cons, IH.
Qed.

Lemma universal_newlines_nil_r s :
  needs_quote s = false -> universal_newlines s = s.
Proof.
  intros H. pose proof (universal_newlines_plain s "" H) as E.
  by rewrite !append_nil_r in E.
Qed.

Lemma needs_quote_universal_newlines s :
  needs_quote (universal_newlines s) = needs_quote s.
Proof.
  induction s as [|c s IH]; [done|].
  destruct (Ascii.eqb c Str.CR) eqn:Ecr.
  - apply Ascii.eqb_eq in Ecr as ->. rewrite universal_newlines_CR.
    destruct s as [|c' s']; [done|].
    destruct (Ascii.eqb c' Str.LF) eqn:Elf; [|done].
    rewrite IH. apply Ascii.eqb_eq in Elf as ->. done.
  - rewrite universal_newlines_cons by done. cbn [needs_quote]. by rewrite IH.
Qed.

Lemma universal_newlines_field s t :
  universal_newlines (field s ++ t)
  = field (universal_newlines s) ++ universal_newlines t.
Proof.
  unfold field. rewrite needs_quote_universal_newlines.
  destruct (needs_quote s) eqn:Hq.
  - rewrite !app_cons_s, !app_assoc_s, !app_cons_s, !app_nil_l_s.
    rewrite universal_newlines_cons by done.
    rewrite universal_newlines_double_quotes.
    by rewrite universal_newlines_cons by done.
  - rewrite universal_newlines_plain by done.
    by rewrite (universal_newlines_nil_r s) by done.
Qed.

Lemma universal_newlines_CRLF t :
  universal_newlines (CRLF ++ t) = String Str.LF (universal_newlines t).
Proof. done. Qed.

Lemma concat_cons2 sep (x y : string) l :
  String.concat sep (x :: y :: l) = x ++ sep ++ String.concat sep (y :: l).
Proof. done. Qed.

(** a written row, as the reader gets it *)
Lemma universal_newlines_writerow fields t :
  universal_newlines (writerow fields ++ t)
  = String.concat "," (field <$> (universal_newlines <$> fields))
    ++ String Str.LF (universal_newlines t).
Proof.
  unfold writerow. rewrite app_assoc_s.
  induction fields as [|x [|y l] IH].
  - done.
  - cbn [fmap list_fmap String.concat].
    by rewrite universal_newlines_field, universal_newlines_CRLF.
  - rewrite !fmap_cons in *. rewrite !concat_cons2, !app_assoc_s.
    rewrite universal_newlines_field, app_cons_s, app_nil_l_s.
    rewrite universal_newlines_cons by done. by rewrite IH.
Qed.

Lemma snoc_char_app fld c u : snoc_char fld c ++ u = fld ++ String c u.
Proof. unfold snoc_char. by rewrite app_assoc_s. Qed.

Lemma parse_quoted_body u : forall fld row t,
  parse InQuoted fld row (double_quotes u ++ String Str.DQUOTE t)
  = parse QuoteInQuoted (fld ++ u) row t.
Proof.
  induction u as [|c u IH]; intros fld row t.
  - by rewrite append_nil_r.
  - cbn [double_quotes]. destruct (Ascii.eqb c Str.DQUOTE) eqn:Edq.
    + apply Ascii.eqb_eq in Edq as ->. rewrite !app_cons_s.
      change (parse InQuoted fld row
                (String Str.DQUOTE (String Str.DQUOTE
                   (double_quotes u ++ String Str.DQUOTE t))))
        with (parse InQuoted (snoc_char fld Str.DQUOTE) row
                (double_quotes u ++ String Str.DQUOTE t)).
      by rewrite IH, snoc_char_app.
    + rewrite app_cons_s.
      assert (parse InQuoted fld row
                (String c (double_quotes u ++ String Str.DQUOTE t))
              = parse InQuoted (snoc_char fld c) row
                  (double_quotes u ++ String Str.DQUOTE t)) as ->.
      { cbn [parse]. rewrite Edq.
        by destruct (Ascii.eqb c Str.LF), (Ascii.eqb c Str.COMMA). }
      by rewrite IH, snoc_char_app.
Qed.

Lemma parse_plain_char st c fld row t :
  st <> InQuoted ->
  needs_quote (String c "") = false ->
  parse st fld row (String c t) = parse InField (snoc_char fld c) row t.
Proof.
  intros Hst (Hco & Hdq & _ & Hlf & _)%needs_quote_cons_false.
  cbn [parse]. rewrite Hlf, Hco, Hdq. by destruct st.
Qed.

Lemma needs_quote_single c s :
  needs_quote (String c s) = false -> needs_quote (String c "") = false.
Proof.
  intros (Hco & Hdq & Hcr & Hlf & _)%needs_quote_cons_false.
  cbn [needs_quote]. by rewrite Hco, Hdq, Hcr, Hlf.
Qed.

Lemma parse_plain_body u : forall fld row t,
  needs_quote u = false ->
  parse InField fld row (u ++ t) = parse InField (fld ++ u) row t.
Proof.
  induction u as [|c u IH]; intros fld row t H.
  - by rewrite append_nil_r.
  - rewrite app_cons_s, parse_plain_char by (done || by eapply needs_quote_single).
    apply needs_quote_cons_false in H as (_ & _ & _ & _ & H).
    by rewrite IH, snoc_char_app.
Qed.

(** a field followed by a comma *)
Lemma parse_field_comma st u row t :
  st = StartRecord \/ st = StartField ->
  parse st "" row (field u ++ String Str.COMMA t)
  = parse StartField "" (row ++ [u])%list t.
Proof.
  intros Hst. unfold field. destruct (needs_quote u) eqn:Hq.
  - rewrite !app_cons_s, app_assoc_s, app_cons_s, app_nil_l_s.
    assert (parse st "" row
              (String Str.DQUOTE (double_quotes u
                 ++ String Str.DQUOTE (String Str.COMMA t)))
            = parse InQuoted "" row
                (double_quotes u ++ String Str.DQUOTE (String Str.COMMA t))) as ->.
    { by destruct Hst as [-> | ->]. }
    by rewrite parse_quoted_body.
  - destruct u as [|c u].
    + by destruct Hst as [-> | ->].
    + rewrite app_cons_s, parse_plain_char; [|by destruct Hst as [-> | ->]
                                              |by eapply needs_quote_single].
      apply needs_quote_cons_false in Hq as (_ & _ & _ & _ & Hq).
      by rewrite parse_plain_body.
Qed.

(** a field followed by the end of the line *)
Lemma parse_field_LF st u row t :
  st = StartField \/ (st = StartRecord /\ u <> "") ->
  parse st "" row (field u ++ String Str.LF t)
  = (row ++ [u])%list :: parse StartRecord "" [] t.
Proof.
  intros Hst. unfold field. destruct (needs_quote u) eqn:Hq.
  - rewrite !app_cons_s, app_assoc_s, app_cons_s, app_nil_l_s.
    assert (parse st "" row
              (String Str.DQUOTE (double_quotes u
                 ++ String Str.DQUOTE (String Str.LF t)))
            = parse InQuoted "" row
                (double_quotes u ++ String Str.DQUOTE (String Str.LF t))) as ->.
    { by destruct Hst as [-> | [-> _]]. }
    by rewrite parse_quoted_body.
  - destruct u as [|c u].
    + by destruct Hst as [-> | [_ ?]].
    + rewrite app_cons_s, parse_plain_char; [|by destruct Hst as [-> | [-> _]]
                                              |by eapply needs_quote_single].
      apply needs_quote_cons_false in Hq as (_ & _ & _ & _ & Hq).
      by rewrite parse_plain_body.
Qed.

(** a line of at least two fields *)
Lemma parse_line u us : forall st row t,
  st = StartRecord \/ st = StartField ->
  us <> [] ->
  parse st "" row (String.concat "," (field <$> (u :: us)) ++ String Str.LF t)
  = (row ++ u :: us)%list :: parse StartRecord "" [] t.
Proof.
  revert u. induction us as [|u2 us IH]; intros u st row t Hst Hne; [done|].
  rewrite !fmap_cons, concat_cons2, !app_assoc_s, app_cons_s, app_nil_l_s.
  rewrite parse_field_comma by done.
  destruct us as [|u3 us].
  - cbn [fmap list_fmap String.concat].
    rewrite parse_field_LF by (by left). by rewrite <- app_assoc.
  - rewrite <- !fmap_cons, IH by (by right || done).
    by rewrite <- app_assoc.
Qed.

Lemma concat_empty_cons (x : string) l :
  String.concat "" (x :: l) = x ++ String.concat "" l.
Proof. destruct l; [by rewrite append_nil_r|done]. Qed.

Lemma concat_empty_app (l1 l2 : list string) :
  String.concat "" (l1 ++ l2) = String.concat "" l1 ++ String.concat "" l2.
Proof.
  induction l1 as [|x l1 IH]; [done|].
  by rewrite <- app_comm_cons, !concat_empty_cons, IH, app_assoc_s.
Qed.

(** what was written row by row is read back row by row; a [\r] or [\r\n]
    inside a field is read as [\n] *)
Lemma reader_writerows (lines : list (list string)) :
  Forall (fun fields => (2 <= length fields)%nat) lines ->
  reader (String.concat "" (writerow <$> lines))
  = (fun fields : list string => universal_newlines <$> fields) <$> lines.
Proof.
  unfold reader. induction 1 as [|fields lines Hlen _ IH]; [done|].
  rewrite !fmap_cons, concat_empty_cons, universal_newlines_writerow.
  destruct fields as [|u [|u2 us]]; cbn in Hlen; [lia|lia|].
  rewrite (fmap_cons universal_newlines u (u2 :: us)).
  rewrite (parse_line (universal_newlines u) (universal_newlines <$> u2 :: us)
             StartRecord [] _ (or_introl eq_refl)) by done.
  by rewrite IH.
Qed.

End CsvFacts.

(** ** Rendering a store of observations *)

Section RenderedFacts.
Import Calendar Csv DataProcessor.

Lemma digit_char_plain d s :
  needs_quote (String (digit_char d) s) = needs_quote s.
Proof.
  unfold digit_char. pose proof (digit_cases d) as H. cbv zeta in H.
  repeat destruct H as [H|H]; rewrite H; reflexivity.
Qed.

Lemma dash_plain s : needs_quote (String "-" s) = needs_quote s.
Proof. reflexivity. Qed.

(** a formatted date is written without quotes and read as it is *)
Lemma strftime_plain t : needs_quote (strftime t) = false.
Proof.
  unfold strftime, format_ordinal. destruct (ord2ymd _) as [[y m] d].
  unfold year_digits.
  destruct (_ <? 10)%Z; [|destruct (_ <? 100)%Z; [|destruct (_ <? 1000)%Z]];
    unfold pad4, pad2; cbv [String.append];
    by repeat (rewrite digit_char_plain || rewrite dash_plain).
Qed.

Lemma observation_file_dated p :
  observation_file p ->
  Str.startswith "_" p.1 = false
  /\ exists sd, p.2 = PDict sd /\ sd_date sd = Some p.1.
Proof.
  intros [[t Ht] (sd & Hx & Hd & _)]. pose proof (strftime_shape t) as Hus.
  rewrite Ht in *. eauto.
Qed.

Lemma reader_rendered rows :
  reader (writeheader ++ writerows rows)
  = fieldnames :: ((fun r => universal_newlines <$> row_values r) <$> rows).
Proof.
  unfold writeheader, writerows.
  rewrite <- concat_empty_cons, <- fmap_cons, reader_writerows.
  - rewrite fmap_cons, <- list_fmap_compose. done.
  - constructor; [cbn; lia|].
    apply Forall_fmap, Forall_forall. intros r _. cbn. lia.
Qed.

(** the dates read back from a rendered CSV are those of its rows *)
Lemma processed_dates_rendered rows :
  _get_processed_dates_from_csv (writeheader ++ writerows rows)
  = Ok (list_to_set ((fun r => universal_newlines (r_date r)) <$> rows)).
Proof.
  unfold _get_processed_dates_from_csv. rewrite reader_rendered.
  set (f := fun r => universal_newlines <$> row_values r).
  assert (Hfilter : filter (fun r : list string => r ≠ []) (f <$> rows) = f <$> rows).
  { induction rows as [|r rows IH]; [done|].
    rewrite fmap_cons, filter_cons, decide_True by done. by rewrite IH. }
  rewrite Hfilter. destruct rows as [|r rows]; [done|].
  rewrite fmap_cons. change (last_index "date" fieldnames 0) with (Some 0%nat).
  do 2 f_equal. rewrite <- fmap_cons. generalize (r :: rows). clear.
  intros rows. induction rows as [|r rows IH]; [done|].
  rewrite !fmap_cons. cbn [omap list_omap]. by rewrite <- IH.
Qed.

Lemma processed_dates_observations rows :
  (forall r, r ∈ rows -> exists t, r_date r = strftime t) ->
  _get_processed_dates_from_csv (writeheader ++ writerows rows)
  = Ok (list_to_set (r_date <$> rows)).
Proof.
  intros Hrows. rewrite processed_dates_rendered. do 2 f_equal.
  apply list_fmap_ext. intros i r Hr. destruct (Hrows r) as [t ->].
  - by eapply list_elem_of_lookup_2.
  - apply universal_newlines_nil_r, strftime_plain.
Qed.

(** on a dictionary with every key the strict row is the lenient one *)
Lemma strict_row_complete c v d sd :
  complete sd = true -> sd_date sd = Some d ->
  strict_row (PDict sd) = Ok (lenient_row c v d sd).
Proof.
  destruct sd as [da vc b ca so ch va st]. cbn. intros Hc ->.
  destruct vc, b as [[co dr ge ro ta]|], ca, ch, va; try discriminate Hc.
  all: destruct co, dr, ge, ro, ta; try discriminate Hc.
  all: try reflexivity.
Qed.

Lemma all_rows_observation c v fls :
  Forall observation_file fls -> all_rows fls = Ok (new_rows c v ∅ fls).1.
Proof.
  induction 1 as [|[d x] fls [[t Ht] (sd & Hx & Hd & Hc)] _ IH]; [done|].
  cbn [fst snd] in *. cbn [all_rows new_rows].
  destruct (new_rows c v ∅ fls) as [rows warnings]. cbn [fst] in IH.
  pose proof (strftime_shape t) as Hus. rewrite <- Ht in Hus. rewrite Hus.
  rewrite bool_decide_eq_false_2 by set_solver. subst x. rewrite Hd.
  rewrite (strict_row_complete c v d sd Hc Hd), IH. done.
Qed.

Lemma new_rows_complete c v (dates : gset string) fls d sd d' :
  (d, PDict sd) ∈ fls -> Str.startswith "_" d = false -> d ∉ dates ->
  sd_date sd = Some d' ->
  lenient_row c v d' sd ∈ (new_rows c v dates fls).1.
Proof.
  intros Hin Hus Hout Hd. induction fls as [|[d0 x0] fls IH].
  - by apply elem_of_nil in Hin.
  - cbn [new_rows]. destruct (new_rows c v dates fls) as [rows warnings].
    cbn [fst] in *. apply elem_of_cons in Hin as [[= <- <-]|Hin].
    + rewrite Hus, bool_decide_eq_false_2, Hd by done. by left.
    + specialize (IH Hin). destruct (Str.startswith "_" d0); [done|].
      destruct (bool_decide (d0 ∈ dates)); [done|].
      destruct x0 as [sd0|]; [|done]. destruct (sd_date sd0); [|done].
      by right.
Qed.

Lemma stored_dir fs c v dir d :
  fs !! (c, v) = Some (Dir dir) -> stored fs c v d = files dir !! d.
Proof. intros H. unfold stored. by rewrite H. Qed.

(** the rows of the first loop on a store of observations *)
Lemma new_rows_observation fs c v dir (dates : gset string) :
  fs !! (c, v) = Some (Dir dir) -> observation_store fs c v ->
  let rows := (new_rows c v dates (pickle_files dir)).1 in
  (new_rows c v dates (pickle_files dir)).2 = []
  /\ r_date <$> rows = filter (fun d => d ∉ dates) (pickle_files dir).*1
  /\ NoDup (r_date <$> rows)
  /\ (forall r, r ∈ rows <->
        (r_date r ∉ dates)
        /\ exists sd, stored fs c v (r_date r) = Some (PDict sd)
                      /\ r = lenient_row c v (r_date r) sd).
Proof.
  intros Hdir Hobs rows.
  assert (Hall : Forall observation_file (pickle_files dir)).
  { apply Forall_forall. intros [d x] Hin%elem_of_pickle_files.
    apply Hobs. by rewrite (stored_dir _ _ _ _ _ Hdir). }
  assert (Hdated : Forall (fun p => Str.startswith "_" p.1 = false
                                   /\ exists sd, p.2 = PDict sd
                                                 /\ sd_date sd = Some p.1)
                          (pickle_files dir)).
  { eapply Forall_impl; [exact Hall|]. apply observation_file_dated. }
  destruct (new_rows_dated c v dates _ Hdated) as [Hdates Hwarn].
  split_and!; [done|done| |].
  - fold rows in Hdates. rewrite Hdates. apply NoDup_filter, pickle_files_NoDup.
  - intros r. split.
    + intros Hr. destruct (new_rows_content c v dates _ r Hr)
        as (d & sd & Hin & Hout & Hd & Hrow).
      rewrite Forall_forall in Hall.
      destruct (Hall _ Hin) as (_ & sd' & [= <-] & Hd' & _). cbn in Hd'.
      rewrite Hd in Hd'. injection Hd' as <-. split; [done|].
      exists sd. split; [|done]. rewrite (stored_dir _ _ _ _ _ Hdir).
      by apply elem_of_pickle_files.
    + intros (Hout & sd & Hst & Hrow).
      destruct (Hobs _ _ Hst) as ([t Ht] & sd' & [= <-] & Hd & _).
      cbn [fst snd] in *. rewrite Hrow.
      apply (new_rows_complete c v dates _ (r_date r) sd (r_date r));
        [|by rewrite Ht; apply strftime_shape|done|done].
      apply elem_of_pickle_files. by rewrite <- (stored_dir _ _ _ _ _ Hdir).
Qed.

(** a full rendering, and the first one, of a store of observations: the
    header and one row for each file, in the order of the file names *)
Lemma process_to_csv_full fs csv c v incr fls :
  observation_store fs c v -> raw_files fs c v = Ok fls ->
  csv = None \/ incr = false ->
  let rows := (new_rows c v ∅ fls).1 in
  process_to_csv fs csv c v incr
  = Ok {| csv_file := Some (writeheader ++ writerows rows);
          record_count := length rows;
          skipped := [] |}
  /\ r_date <$> rows = fls.*1.
Proof.
  intros Hobs Hraw Hmode rows.
  destruct (raw_files_inv _ _ _ _ Hraw) as (dir & Hdir & -> & Hne).
  destruct (new_rows_observation fs c v dir ∅ Hdir Hobs)
    as (Hwarn & Hdates & _ & _).
  fold rows in Hdates. rewrite filter_all in Hdates by set_solver.
  split; [|done].
  assert (Hall : Forall observation_file (pickle_files dir)).
  { apply Forall_forall. intros [d x] Hin%elem_of_pickle_files.
    apply Hobs. by rewrite (stored_dir _ _ _ _ _ Hdir). }
  pose proof (all_rows_observation c v _ Hall) as Hstrict. fold rows in Hstrict.
  assert (Hrows : rows <> []).
  { intros E. rewrite E in Hdates. destruct (pickle_files dir); done. }
  unfold process_to_csv. rewrite Hraw. cbn [mbind result_bind].
  assert (match csv with
          | Some text =>
              if incr then _get_processed_dates_from_csv text else Ok ∅
          | None => Ok ∅
          end = Ok (∅ : gset string)) as ->.
  { destruct Hmode as [-> | ->]; [done|by destruct csv]. }
  cbn [mbind result_bind].
  destruct (new_rows c v ∅ (pickle_files dir)) as [rows' warnings] eqn:E.
  cbn [fst snd] in *. subst rows warnings.
  destruct rows' as [|r rows']; [done|].
  destruct Hmode as [-> | ->].
  - rewrite Hstrict. done.
  - destruct csv as [text|]; cbn [andb negb]; rewrite Hstrict; done.
Qed.

Lemma writerows_app rows1 rows2 :
  writerows (rows1 ++ rows2) = writerows rows1 ++ writerows rows2.
Proof. unfold writerows. by rewrite !fmap_app, concat_empty_app. Qed.

Lemma rendered_last_char rows :
  Str.last_char (writeheader ++ writerows rows) = Some Str.LF.
Proof.
  destruct rows as [|r rows].
  - by rewrite append_nil_r.
  - rewrite last_char_app; [by apply writerows_last|].
    intros E. pose proof (writerows_last (r :: rows) ltac:(done)) as H.
    by rewrite E in H.
Qed.

(** an incremental rendering over a rendered CSV: the rows of the files
    whose dates the CSV lacks are added after its rows *)
Lemma process_to_csv_incremental fs c v rows0 fls :
  observation_store fs c v -> raw_files fs c v = Ok fls ->
  (forall r, r ∈ rows0 -> exists t, r_date r = strftime t) ->
  let rows1 := (new_rows c v (list_to_set (r_date <$> rows0)) fls).1 in
  process_to_csv fs (Some (writeheader ++ writerows rows0)) c v true
  = Ok {| csv_file := Some (writeheader ++ writerows (rows0 ++ rows1));
          record_count := length rows1;
          skipped := [] |}.
Proof.
  intros Hobs Hraw Hrows0 rows1.
  destruct (raw_files_inv _ _ _ _ Hraw) as (dir & Hdir & -> & Hne).
  destruct (new_rows_observation fs c v dir (list_to_set (r_date <$> rows0))
              Hdir Hobs) as (Hwarn & _).
  unfold process_to_csv. rewrite Hraw. cbn [mbind result_bind].
  rewrite processed_dates_observations by done. cbn [mbind result_bind].
  destruct (new_rows c v _ (pickle_files dir)) as [rows warnings] eqn:E.
  cbn [fst snd] in *. subst rows1 warnings.
  destruct rows as [|r rows].
  - rewrite bool_decide_eq_false_2 by (cbn; lia). cbn [andb].
    by rewrite app_nil_r.
  - rewrite bool_decide_eq_true_2 by (cbn; lia). cbn [andb].
    rewrite rendered_last_char. cbn [negb].
    change (Ascii.eqb Str.LF Str.LF) with true. cbn [negb].
    by rewrite writerows_app, app_assoc_s.
Qed.

(** a rendered CSV is in step with the store it was rendered from *)
Lemma in_sync_full fs c v fls :
  observation_store fs c v -> raw_files fs c v = Ok fls ->
  in_sync fs c v (Some (writeheader ++ writerows (new_rows c v ∅ fls).1)).
Proof.
  intros Hobs Hraw.
  destruct (raw_files_inv _ _ _ _ Hraw) as (dir & Hdir & -> & Hne).
  destruct (new_rows_observation fs c v dir ∅ Hdir Hobs)
    as (_ & _ & Hnd & Hrows).
  eexists. split; [done|]. split; [done|].
  intros r. rewrite Hrows. split; [by intros [_ ?]|]. intros H. split; [set_solver|done].
Qed.

End RenderedFacts.

(** ** What [collect] leaves in the store *)

Section StoreFacts.
Import Calendar IMFPortWatchCollector DataCollector.

Lemma daily_data_complete c v data r :
  exists sd, daily_data c v data r = PDict sd
             /\ sd_date sd = Some (dr_date r) /\ complete sd = true.
Proof. by eexists. Qed.

(** every file [collect] writes is an observation *)
Lemma collect_observation_store reg up tz t1 t2 fs c v incr fs' data rep c0 v0 :
  DataCollector.collect reg up tz t1 t2 fs c v incr = Ok (fs', data, rep) ->
  observation_store fs c0 v0 -> observation_store fs' c0 v0.
Proof.
  intros (url & sd & _ & _ & -> & Hsave)%collect_inv Hobs k x.
  apply save_data_inv in Hsave as (d & d' & Hmk & Hinto & ->).
  rewrite stored_insert. case_decide as Heq; [|by apply Hobs].
  injection Heq as <- <-. revert Hinto. unfold save_into.
  pose proof (collect_per_day_only up tz t1 url c v sd) as Hpd.
  pose proof (collect_strftime up tz t1 url c v sd) as Hdates.
  unfold per_day_only in Hpd.
  destruct (time_series _) as [[|r ts]|].
  1,3: rewrite Hpd; cbn; intros [= <- <-] Hx; apply Hobs;
       by rewrite <- (mkdir_stored _ _ _ _ _ Hmk).
  destruct (save_loop c v _ (r :: ts) (files d) no_writes) as [fls rep0] eqn:Hloop.
  intros [= <- <-]. cbn [files]. intros Hx.
  pose proof (save_loop_files c v
    (IMFPortWatchCollector.collect up tz t1 url c v sd)
    (r :: ts) (files d) no_writes k x) as Hfiles.
  rewrite Hloop in Hfiles. destruct (Hfiles Hx) as [Hold|(r' & Hr' & -> & ->)].
  - apply Hobs. by rewrite <- (mkdir_stored _ _ _ _ _ Hmk).
  - destruct (Hdates r' Hr') as [t Ht]. split; [by exists t|].
    apply daily_data_complete.
Qed.

(** [collect] removes and changes no file, and leaves the files and the
    watermark of every other variable as they were *)
Lemma collect_frame reg up tz t1 t2 fs c v incr fs' data rep :
  DataCollector.collect reg up tz t1 t2 fs c v incr = Ok (fs', data, rep) ->
  (forall c0 v0 k x, stored fs c0 v0 k = Some x -> stored fs' c0 v0 k = Some x)
  /\ (forall c0 v0, (c0, v0) <> (c, v) ->
        fs' !! (c0, v0) = fs !! (c0, v0))
  /\ (exists dir, fs' !! (c, v) = Some (Dir dir)).
Proof.
  intros (url & sd & _ & _ & -> & Hsave)%collect_inv.
  pose proof (collect_per_day_only up tz t1 url c v sd) as Hpd.
  destruct (save_data_spec _ _ _ _ _ _ _ Hsave Hpd) as (_ & _ & Hkeep & _).
  apply save_data_inv in Hsave as (d & d' & Hmk & Hinto & ->).
  split_and!; [done| |].
  - intros c0 v0 Hne. by rewrite lookup_insert_ne.
  - exists d'. by rewrite lookup_insert_eq.
Qed.

End StoreFacts.

(** ** The jobs of the scheduler *)

Section SchedulerFacts.
Import DataProcessor CollectionScheduler.

Lemma pickle_files_nil dir : pickle_files dir = [] -> files dir = ∅.
Proof.
  unfold pickle_files. intros E. apply map_to_list_empty_iff.
  apply Permutation_nil_r. rewrite <- E. by rewrite merge_sort_Permutation.
Qed.

(** an incremental rendering after the store has grown keeps the CSV in
    step; it fails only when the directory holds no file *)
Lemma process_keeps_sync fs fs' c v csv dir :
  observation_store fs' c v ->
  (forall k x, stored fs c v k = Some x -> stored fs' c v k = Some x) ->
  fs' !! (c, v) = Some (Dir dir) ->
  in_sync fs c v csv ->
  match process_to_csv fs' csv c v true with
  | Ok out => in_sync fs' c v (csv_file out) /\ is_Some (csv_file out)
  | Raise _ => in_sync fs' c v csv /\ files dir = ∅
  end.
Proof.
  intros Hobs Hmono Hdir Hsync.
  destruct (raw_files fs' c v) as [fls|e] eqn:Hraw.
  - destruct csv as [text|].
    + destruct Hsync as (rows0 & -> & Hnd0 & Hrows0).
      assert (Hdates0 : forall r, r ∈ rows0 -> exists t, r_date r = Calendar.strftime t).
      { intros r (sd & Hst%Hmono & _)%Hrows0.
        by destruct (Hobs _ _ Hst) as [? _]. }
      rewrite (process_to_csv_incremental fs' c v rows0 fls Hobs Hraw Hdates0).
      cbn [csv_file]. split; [|done].
      destruct (raw_files_inv _ _ _ _ Hraw) as (dir' & Hdir' & -> & _).
      destruct (new_rows_observation fs' c v dir'
                  (list_to_set (r_date <$> rows0)) Hdir' Hobs)
        as (_ & _ & Hnd1 & Hrows1).
      eexists. split; [done|]. split.
      * rewrite fmap_app. apply NoDup_app. split; [done|]. split; [|done].
        intros d Hd0 (r & -> & (Hout & _)%Hrows1)%list_elem_of_fmap.
        apply Hout. by apply elem_of_list_to_set.
      * intros r. rewrite elem_of_app, Hrows1. split.
        -- intros [(sd & Hst%Hmono & Hrow)%Hrows0|(_ & H)]; eauto.
        -- intros (sd & Hst & Hrow).
           destruct (decide (r_date r ∈ r_date <$> rows0)) as [Hin|Hout].
           ++ left. apply list_elem_of_fmap in Hin as (r0 & Hdate & Hr0).
              destruct (proj1 (Hrows0 r0) Hr0) as (sd0 & Hst0%Hmono & Hrow0).
              rewrite <- Hdate in Hst0. rewrite Hst in Hst0.
              injection Hst0 as <-. rewrite Hrow, Hdate, <- Hrow0. done.
           ++ right. split; [|by eauto].
              by rewrite elem_of_list_to_set.
    + destruct (process_to_csv_full fs' None c v true fls Hobs Hraw (or_introl eq_refl))
        as [-> _].
      cbn [csv_file]. split; [|done]. by apply in_sync_full.
  - unfold process_to_csv. rewrite Hraw. cbn [mbind result_bind].
    assert (Hempty : files dir = ∅).
    { unfold raw_files in Hraw. rewrite Hdir in Hraw.
      destruct (pickle_files dir) eqn:E; [|done]. by apply pickle_files_nil. }
    split; [|done]. destruct csv as [text|]; [|done].
    destruct Hsync as (rows0 & -> & Hnd0 & Hrows0).
    exists rows0. split; [done|]. split; [done|].
    assert (Hnone : forall k, stored fs' c v k = None).
    { intros k. by rewrite (stored_dir _ _ _ _ _ Hdir), Hempty, lookup_empty. }
    intros r. split.
    + intros (sd & Hst%Hmono & _)%Hrows0. by rewrite Hnone in Hst.
    + intros (sd & Hst & _). by rewrite Hnone in Hst.
Qed.

Lemma processed_csv_path now fs p c v incr :
  csv_path (Processed.process_to_csv now fs p c v incr).1
  = match process_to_csv fs (csv_path p) c v incr with
    | Ok out => csv_file out
    | Raise _ => csv_path p
    end.
Proof.
  unfold Processed.process_to_csv.
  destruct (process_to_csv fs (csv_path p) c v incr) as [out|e]; [|done].
  by destruct (Processed._update_processing_metadata _ _ _ _).
Qed.

Lemma output_of_insert out c v p c0 v0 :
  output_of (<[(c, v) := p]> out) c0 v0
  = if decide ((c, v) = (c0, v0)) then p else output_of out c0 v0.
Proof.
  unfold output_of. case_decide as E.
  - by rewrite <- E, lookup_insert_eq.
  - by rewrite lookup_insert_ne.
Qed.

Lemma stored_frame (fs fs' : data_fs) c v k :
  fs' !! (c, v) = fs !! (c, v) -> stored fs' c v k = stored fs c v k.
Proof. intros H. unfold stored. by rewrite H. Qed.

Lemma in_sync_frame (fs fs' : data_fs) c v csv :
  fs' !! (c, v) = fs !! (c, v) -> in_sync fs c v csv -> in_sync fs' c v csv.
Proof.
  intros H. destruct csv as [text|]; [|done].
  intros (rows & -> & Hnd & Hrows). exists rows. split; [done|]. split; [done|].
  intros r. rewrite Hrows. by setoid_rewrite (stored_frame fs fs' c v _ H).
Qed.

(** a job keeps the files consistent; when its collection succeeds and the
    variable has a stored file, the CSV exists *)
Lemma collect_data_consistent reg tz env w c v :
  consistent w ->
  consistent (collect_data reg tz env w c v)
  /\ (is_ok (DataCollector.collect reg (env_up env) tz (env_t_fetch env)
               (env_t_save env) (raw w) c v true) = true ->
      (exists k, is_Some (stored (raw (collect_data reg tz env w c v)) c v k)) ->
      is_Some (csv_path (output_of (processed (collect_data reg tz env w c v)) c v))).
Proof.
  intros Hw. unfold collect_data.
  destruct (DataCollector.collect _ _ _ _ _ _ _ _ _) as [[[fs' data] rep]|e] eqn:Hc;
    [|done].
  destruct (collect_frame _ _ _ _ _ _ _ _ _ _ _ _ Hc) as (Hmono & Hother & dir & Hdir).
  pose proof (processed_csv_path (env_t_process env) fs'
                (output_of (processed w) c v) c v true) as Hcsv.
  destruct (Processed.process_to_csv _ _ _ _ _ _) as [p' r]. cbn [fst] in Hcsv.
  cbn [raw processed].
  assert (Hobs' : observation_store fs' c v).
  { eapply collect_observation_store; [exact Hc|apply Hw]. }
  pose proof (process_keeps_sync (raw w) fs' c v
                (csv_path (output_of (processed w) c v)) dir Hobs'
                (Hmono c v) Hdir (proj2 (Hw c v))) as Hstep.
  split.
  - intros c0 v0. cbn [raw processed]. split.
    { eapply collect_observation_store; [exact Hc|apply Hw]. }
    rewrite output_of_insert. case_decide as E.
    + injection E as <- <-. rewrite Hcsv.
      destruct (process_to_csv fs' _ c v true); by destruct Hstep.
    + apply (in_sync_frame (raw w)); [|apply Hw].
      apply Hother. congruence.
  - intros _ [k Hk]. rewrite output_of_insert, decide_True by done. rewrite Hcsv.
    destruct (process_to_csv fs' _ c v true); destruct Hstep as [_ H]; [done|].
    rewrite (stored_dir _ _ _ _ _ Hdir), H, lookup_empty in Hk.
    by destruct Hk.
Qed.

Lemma run_jobs_consistent reg tz env jobs : forall w,
  consistent w ->
  consistent
    (foldl (fun w '(chokepoint, variable, _) =>
              collect_data reg tz (env chokepoint variable) w chokepoint variable)
       w (jobs : list (string * string * var_config))).
Proof.
  induction jobs as [|[[c v] cfg] jobs IH]; intros w Hw; [done|].
  cbn [foldl]. apply IH. by apply collect_data_consistent.
Qed.

End SchedulerFacts.

(** ** Rendering to JSON *)

Section JsonFacts.
Import DataProcessor.

Lemma json_entries_observation fls :
  Forall observation_file fls ->
  exists es, json_entries fls = Ok es
             /\ j_date <$> es = fls.*1
             /\ Forall2 (fun p e => json_entry p.2 = Ok e) fls es.
Proof.
  induction 1 as [|[d x] fls [[t Ht] (sd & Hx & Hd & Hc)] _ (es & IH & Hdates & Hall)].
  { by exists []. }
  cbn [fst snd] in *. cbn [json_entries].
  pose proof (strftime_shape t) as Hus. rewrite <- Ht in Hus. rewrite Hus.
  assert (exists e, json_entry x = Ok e /\ j_date e = d) as (e & He & Hde).
  { subst x. destruct sd as [da vc b ca so ch va st]. cbn in Hd. subst da.
    unfold complete in Hc. cbn [sd_date sd_vessel_count sd_breakdown
      sd_collected_at sd_chokepoint sd_variable] in Hc.
    rewrite !andb_true_iff in Hc. destruct Hc as [[[[[_ Hvc] Hb] Hca] _] _].
    destruct vc, b, ca; try discriminate. cbn. by eexists. }
  rewrite He, IH. cbn [mbind result_bind]. exists (e :: es).
  split; [done|]. split; [by rewrite !fmap_cons, Hde, Hdates|].
  by constructor.
Qed.

Lemma foldl_insert_entries (es : list json_record) : forall m : gmap string json_record,
  NoDup (j_date <$> es) ->
  (forall e, e ∈ es -> m !! j_date e = None) ->
  let m' := foldl (fun (m : gmap string json_record) e => <[j_date e := e]> m) m es in
  size m' = (size m + length es)%nat
  /\ (forall e, e ∈ es -> m' !! j_date e = Some e)
  /\ (forall d, d ∉ j_date <$> es -> m' !! d = m !! d).
Proof.
  induction es as [|e es IH]; intros m Hnd Hfresh; cbn [foldl].
  { split; [cbn; lia|]. split; [by intros e ?%elem_of_nil|done]. }
  rewrite fmap_cons in Hnd. apply NoDup_cons in Hnd as [Hnotin Hnd].
  destruct (IH (<[j_date e := e]> m) Hnd) as (Hsize & Hin & Hout).
  { intros e' He'. rewrite lookup_insert_ne; [apply Hfresh; by right|].
    intros E. apply Hnotin. rewrite E. by apply list_elem_of_fmap_2. }
  split_and!.
  - rewrite Hsize, map_size_insert_None by (apply Hfresh; by left). cbn. lia.
  - intros e' [->|He']%elem_of_cons; [|by apply Hin].
    by rewrite Hout, lookup_insert_eq.
  - intros d Hd. rewrite fmap_cons in Hd. apply not_elem_of_cons in Hd as [Hne Hd].
    by rewrite Hout, lookup_insert_ne.
Qed.

(** where the entry of the records format exists, that of the timeseries
    format is the same *)
Lemma timeseries_entry_json x e : json_entry x = Ok e -> timeseries_entry x = Ok e.
Proof.
  unfold json_entry, timeseries_entry. destruct x as [sd|]; [|done].
  cbn [as_dict mbind result_bind].
  by destruct (sd_date sd), (sd_vessel_count sd), (sd_breakdown sd),
    (sd_collected_at sd).
Qed.

Lemma timeseries_entries_observation fls es :
  Forall observation_file fls ->
  Forall2 (fun p e => json_entry p.2 = Ok e) fls es ->
  forall m : gmap string json_record,
    timeseries_entries fls m
    = Ok (foldl (fun (m : gmap string json_record) e => <[j_date e := e]> m) m es).
Proof.
  intros Hall Hes. induction Hes as [|[d x] e fls es He _ IH]; intros m; [done|].
  apply Forall_cons in Hall as [[[t Ht] _] Hall]. cbn [fst snd] in *.
  cbn [timeseries_entries foldl].
  pose proof (strftime_shape t) as Hus. rewrite <- Ht in Hus. rewrite Hus.
  rewrite (timeseries_entry_json x e He). cbn [mbind result_bind].
  by apply IH.
Qed.

End JsonFacts.

(** the stores of the scenarios hold observations *)
Lemma observation_store_fs_of (dates : list (string * Z)) latest :
  Forall (fun p => exists t, p.1 = Calendar.strftime t) dates ->
  observation_store (Scenario.fs_of dates latest) Scenario.cp Scenario.var.
Proof.
  intros Hall d x. unfold stored, Scenario.fs_of.
  rewrite lookup_singleton_eq. cbn [Scenario.dir_of files mbind option_bind].
  intros Hx%elem_of_list_to_map_2.
  apply list_elem_of_fmap in Hx as ([d' n] & [= -> ->] & Hin).
  rewrite Forall_forall in Hall. destruct (Hall _ Hin) as [t Ht].
  split; [by exists t|]. by eexists.
Qed.

(** ** The renderings of a store of observations *)

(** X1. What [process_to_csv] writes, [_get_processed_dates_from_csv] reads
    back: the reader returns the header and the rows field by field, and
    the set of processed dates is the set of the dates of the rows (a
    carriage return inside a field is read as a line feed). *)
Theorem rendered_csv_reads_back (rows : list DataProcessor.row) :
  Csv.reader (DataProcessor.writeheader ++ DataProcessor.writerows rows)
  = DataProcessor.fieldnames
      :: ((fun r => Csv.universal_newlines <$> DataProcessor.row_values r) <$> rows)
  /\ DataProcessor._get_processed_dates_from_csv
       (DataProcessor.writeheader ++ DataProcessor.writerows rows)
     = Ok (list_to_set
             ((fun r => Csv.universal_newlines (DataProcessor.r_date r)) <$> rows))
  /\ forall t, Csv.universal_newlines (Calendar.strftime t) = Calendar.strftime t.
Proof.
  split; [apply reader_rendered|]. split; [apply processed_dates_rendered|].
  intros t. apply universal_newlines_nil_r, strftime_plain.
Qed.

(** X2. A full rendering, or the first rendering, of a directory that holds
    observations does not raise and does not depend on the CSV that was
    there: the CSV is the header followed by one row for each file, in the
    order of the file names, each row being that of its file; the record
    count is the number of files and no file is skipped. *)
Theorem full_render_of_observations (fs : data_fs) (csv : option string)
    (c v : string) (incr : bool) (fls : list (string * pickled)) :
  observation_store fs c v ->
  DataProcessor.raw_files fs c v = Ok fls ->
  csv = None \/ incr = false ->
  exists rows,
    DataProcessor.process_to_csv fs csv c v incr
    = Ok {| DataProcessor.csv_file :=
              Some (DataProcessor.writeheader ++ DataProcessor.writerows rows);
            DataProcessor.record_count := length fls;
            DataProcessor.skipped := [] |}
    /\ DataProcessor.r_date <$> rows = fls.*1
    /\ Forall2 (fun p r => DataProcessor.strict_row p.2 = Ok r) fls rows
    /\ in_sync fs c v
         (Some (DataProcessor.writeheader ++ DataProcessor.writerows rows)).
Proof.
  intros Hobs Hraw Hmode.
  destruct (process_to_csv_full fs csv c v incr fls Hobs Hraw Hmode) as [Heq Hdates].
  exists (DataProcessor.new_rows c v ∅ fls).1.
  assert (Hlen : length (DataProcessor.new_rows c v ∅ fls).1 = length fls).
  { by rewrite <- (length_fmap DataProcessor.r_date), Hdates, length_fmap. }
  rewrite Heq, Hlen. split; [done|]. split; [done|].
  split; [|by apply in_sync_full].
  destruct (raw_files_inv _ _ _ _ Hraw) as (dir & Hdir & Hfls & _).
  assert (Hall : Forall observation_file fls).
  { subst fls. apply Forall_forall. intros [d x] Hin%elem_of_pickle_files.
    apply Hobs. by rewrite (stored_dir _ _ _ _ _ Hdir). }
  clear -Hall. induction Hall as [|[d x] fls [[t Ht] (sd & Hx & Hd & Hc)] _ IH].
  { constructor. }
  cbn [fst snd] in *. cbn [DataProcessor.new_rows].
  destruct (DataProcessor.new_rows c v ∅ fls) as [rows warnings]. cbn [fst] in *.
  pose proof (strftime_shape t) as Hus. rewrite <- Ht in Hus. rewrite Hus.
  rewrite bool_decide_eq_false_2 by set_solver. subst x. rewrite Hd.
  constructor; [|done]. by apply strict_row_complete.
Qed.

Lemma full_render_of_observations_witness :
  exists rows,
    DataProcessor.process_to_csv
      (Scenario.fs_of [("2024-01-06", 4%Z); ("2024-01-05", 3%Z)] None)
      (Some "stale") Scenario.cp Scenario.var false
    = Ok {| DataProcessor.csv_file :=
              Some (DataProcessor.writeheader ++ DataProcessor.writerows rows);
            DataProcessor.record_count := 2;
            DataProcessor.skipped := [] |}
    /\ DataProcessor.r_date <$> rows = ["2024-01-05"; "2024-01-06"].
Proof.
  destruct (full_render_of_observations
              (Scenario.fs_of [("2024-01-06", 4%Z); ("2024-01-05", 3%Z)] None)
              (Some "stale") Scenario.cp Scenario.var false
              [("2024-01-05", Scenario.observation "2024-01-05" 3);
               ("2024-01-06", Scenario.observation "2024-01-06" 4)])
    as (rows & Heq & Hdates & _).
  - apply observation_store_fs_of.
    repeat constructor;
      [by exists (Calendar.midnight 738891)|by exists (Calendar.midnight 738890)].
  - vm_compute. reflexivity.
  - by right.
  - exists rows. split; [exact Heq|exact Hdates].
Defined.

(** X3. Rendering again changes nothing: after a full rendering of a
    directory of observations, an incremental rendering of the same
    directory finds every date in the CSV, adds no row, leaves the CSV as
    it is and reports a record count of 0. *)
Theorem incremental_render_is_idempotent (fs : data_fs) (csv : option string)
    (c v : string) (out : DataProcessor.csv_outcome) :
  observation_store fs c v ->
  DataProcessor.process_to_csv fs csv c v false = Ok out ->
  DataProcessor.process_to_csv fs (DataProcessor.csv_file out) c v true
  = Ok {| DataProcessor.csv_file := DataProcessor.csv_file out;
          DataProcessor.record_count := 0;
          DataProcessor.skipped := [] |}.
Proof.
  intros Hobs Hfull.
  destruct (DataProcessor.raw_files fs c v) as [fls|e] eqn:Hraw.
  2: { unfold DataProcessor.process_to_csv in Hfull. by rewrite Hraw in Hfull. }
  destruct (process_to_csv_full fs csv c v false fls Hobs Hraw (or_intror eq_refl))
    as [Heq Hdates].
  rewrite Heq in Hfull. injection Hfull as <-. cbn [DataProcessor.csv_file].
  destruct (raw_files_inv _ _ _ _ Hraw) as (dir & Hdir & -> & _).
  set (rows0 := (DataProcessor.new_rows c v ∅ (DataProcessor.pickle_files dir)).1) in *.
  assert (Hdates0 : forall r, r ∈ rows0 ->
            exists t, DataProcessor.r_date r = Calendar.strftime t).
  { intros r Hr.
    destruct (new_rows_observation fs c v dir ∅ Hdir Hobs) as (_ & _ & _ & Hrows).
    destruct (proj1 (Hrows r) Hr) as (_ & sd & Hst & _).
    by destruct (Hobs _ _ Hst) as [? _]. }
  rewrite (process_to_csv_incremental fs c v rows0 _ Hobs Hraw Hdates0).
  destruct (new_rows_observation fs c v dir
              (list_to_set (DataProcessor.r_date <$> rows0)) Hdir Hobs)
    as (_ & Hnew & _).
  assert (Hnone : (DataProcessor.new_rows c v
                     (list_to_set (DataProcessor.r_date <$> rows0))
                     (DataProcessor.pickle_files dir)).1 = []).
  { apply (fmap_nil_inv DataProcessor.r_date). rewrite Hnew, Hdates.
    apply elem_of_nil_inv. intros d [Hout Hin]%list_elem_of_filter.
    apply Hout. by apply elem_of_list_to_set. }
  by rewrite Hnone, app_nil_r.
Qed.

Lemma incremental_render_is_idempotent_witness :
  DataProcessor.process_to_csv
    (Scenario.fs_of [("2024-01-06", 4%Z); ("2024-01-05", 3%Z)] None)
    (Some (DataProcessor.writeheader
           ++ DataProcessor.writerows
                [Scenario.row_of "2024-01-05" 3; Scenario.row_of "2024-01-06" 4]))
    Scenario.cp Scenario.var true
  = Ok {| DataProcessor.csv_file :=
            Some (DataProcessor.writeheader
                  ++ DataProcessor.writerows
                       [Scenario.row_of "2024-01-05" 3; Scenario.row_of "2024-01-06" 4]);
          DataProcessor.record_count := 0;
          DataProcessor.skipped := [] |}.
Proof.
  apply (incremental_render_is_idempotent
           (Scenario.fs_of [("2024-01-06", 4%Z); ("2024-01-05", 3%Z)] None)
           None Scenario.cp Scenario.var
           {| DataProcessor.csv_file :=
                Some (DataProcessor.writeheader
                      ++ DataProcessor.writerows
                           [Scenario.row_of "2024-01-05" 3;
                            Scenario.row_of "2024-01-06" 4]);
              DataProcessor.record_count := 2;
              DataProcessor.skipped := [] |}).
  - apply observation_store_fs_of.
    repeat constructor;
      [by exists (Calendar.midnight 738891)|by exists (Calendar.midnight 738890)].
  - vm_compute. reflexivity.
Defined.

Lemma head_fmap {A B} (f : A -> B) (l : list A) : head (f <$> l) = f <$> head l.
Proof. by destruct l. Qed.

(** X4. [process_to_json] in the records format, on a directory that holds
    observations, does not raise: it returns one entry for each file, in
    the order of the file names, each entry being that of its file;
    [total_records] and the record count of the metadata are the number of
    files, and the date range runs from the first to the last file. *)
Theorem json_records_of_observations (fs : data_fs) (c v : string)
    (fls : list (string * pickled)) :
  observation_store fs c v ->
  DataProcessor.raw_files fs c v = Ok fls ->
  exists es,
    DataProcessor.process_to_json fs c v "records"
    = Ok (DataProcessor.Records (length fls) (head fls.*1, last fls.*1) es,
          length fls)
    /\ DataProcessor.j_date <$> es = fls.*1
    /\ Forall2 (fun p e => DataProcessor.json_entry p.2 = Ok e) fls es.
Proof.
  intros Hobs Hraw.
  destruct (raw_files_inv _ _ _ _ Hraw) as (dir & Hdir & Hfls & _).
  assert (Hall : Forall observation_file fls).
  { subst fls. apply Forall_forall. intros [d x] Hin%elem_of_pickle_files.
    apply Hobs. by rewrite (stored_dir _ _ _ _ _ Hdir). }
  destruct (json_entries_observation fls Hall) as (es & Hes & Hdates & Hall2).
  exists es. split; [|done].
  unfold DataProcessor.process_to_json. rewrite Hraw. cbn [mbind result_bind].
  change (String.eqb "records" "records") with true. cbv iota.
  rewrite Hes. cbn [mbind result_bind].
  rewrite <- head_fmap, <- fmap_last, Hdates.
  by rewrite <- (length_fmap DataProcessor.j_date), Hdates, length_fmap.
Qed.

Lemma json_records_of_observations_witness :
  exists es,
    DataProcessor.process_to_json
      (Scenario.fs_of [("2024-01-06", 4%Z); ("2024-01-05", 3%Z)] None)
      Scenario.cp Scenario.var "records"
    = Ok (DataProcessor.Records 2 (Some "2024-01-05", Some "2024-01-06") es, 2%nat)
    /\ DataProcessor.j_date <$> es = ["2024-01-05"; "2024-01-06"].
Proof.
  destruct (json_records_of_observations
              (Scenario.fs_of [("2024-01-06", 4%Z); ("2024-01-05", 3%Z)] None)
              Scenario.cp Scenario.var
              [("2024-01-05", Scenario.observation "2024-01-05" 3);
               ("2024-01-06", Scenario.observation "2024-01-06" 4)])
    as (es & Heq & Hdates & _).
  - apply observation_store_fs_of.
    repeat constructor;
      [by exists (Calendar.midnight 738891)|by exists (Calendar.midnight 738890)].
  - vm_compute. reflexivity.
  - exists es. split; [exact Heq|exact Hdates].
Defined.

(** X5. With any other format [process_to_json] writes the mapping from
    dates to entries: on a directory that holds observations it has one
    key for each file, [total_records] is the number of files, and the
    entry of a date is that of the file of that date, the same entry the
    records format gives for the file. *)
Theorem json_timeseries_of_observations (fs : data_fs) (c v format : string)
    (fls : list (string * pickled)) :
  observation_store fs c v ->
  DataProcessor.raw_files fs c v = Ok fls ->
  format <> "records" ->
  exists m,
    DataProcessor.process_to_json fs c v format
    = Ok (DataProcessor.Timeseries (length fls) m, length fls)
    /\ (forall d x, (d, x) ∈ fls ->
          exists e, m !! d = Some e /\ DataProcessor.json_entry x = Ok e
                    /\ DataProcessor.timeseries_entry x = Ok e)
    /\ (forall d, d ∉ fls.*1 -> m !! d = None).
Proof.
  intros Hobs Hraw Hformat.
  destruct (raw_files_inv _ _ _ _ Hraw) as (dir & Hdir & Hfls & _).
  assert (Hall : Forall observation_file fls).
  { subst fls. apply Forall_forall. intros [d x] Hin%elem_of_pickle_files.
    apply Hobs. by rewrite (stored_dir _ _ _ _ _ Hdir). }
  assert (Hnd : NoDup fls.*1) by (subst fls; apply pickle_files_NoDup).
  destruct (json_entries_observation fls Hall) as (es & Hes & Hdates & Hall2).
  rewrite <- Hdates in Hnd.
  destruct (foldl_insert_entries es ∅ Hnd) as (Hsize & Hin & Hout).
  { intros e _. apply lookup_empty. }
  eexists. split; [|split].
  - unfold DataProcessor.process_to_json. rewrite Hraw. cbn [mbind result_bind].
    rewrite (proj2 (String.eqb_neq format "records") Hformat).
    rewrite (timeseries_entries_observation fls es Hall Hall2).
    cbn [mbind result_bind].
    rewrite Hsize, map_size_empty. cbn [Nat.add].
    by rewrite <- (length_fmap DataProcessor.j_date), Hdates, length_fmap.
  - intros d x Hdx. apply list_elem_of_lookup_1 in Hdx as [i Hi].
    destruct (Forall2_lookup_l _ _ _ _ _ Hall2 Hi) as (e & He & Hentry).
    exists e. split; [|split; [done|by apply timeseries_entry_json]].
    assert (DataProcessor.j_date e = d) as <-.
    { apply (f_equal (fun l => l !! i)) in Hdates.
      rewrite !list_lookup_fmap, He, Hi in Hdates. cbn in Hdates. congruence. }
    apply Hin. by eapply list_elem_of_lookup_2.
  - intros d Hd. rewrite Hout by (by rewrite Hdates). apply lookup_empty.
Qed.

Lemma json_timeseries_of_observations_witness :
  exists m,
    DataProcessor.process_to_json
      (Scenario.fs_of [("2024-01-06", 4%Z); ("2024-01-05", 3%Z)] None)
      Scenario.cp Scenario.var "timeseries"
    = Ok (DataProcessor.Timeseries 2 m, 2%nat)
    /\ m !! "2024-01-07" = None.
Proof.
  destruct (json_timeseries_of_observations
              (Scenario.fs_of [("2024-01-06", 4%Z); ("2024-01-05", 3%Z)] None)
              Scenario.cp Scenario.var "timeseries"
              [("2024-01-05", Scenario.observation "2024-01-05" 3);
               ("2024-01-06", Scenario.observation "2024-01-06" 4)])
    as (m & Heq & _ & Hout).
  - apply observation_store_fs_of.
    repeat constructor;
      [by exists (Calendar.midnight 738891)|by exists (Calendar.midnight 738890)].
  - vm_compute. reflexivity.
  - discriminate.
  - exists m. split; [exact Heq|]. apply Hout. cbn.
    rewrite !not_elem_of_cons. split_and!; [done|done|apply not_elem_of_nil].
Defined.

(** ** Saving and loading *)

Section SaveFacts.
Import IMFPortWatchCollector DataCollector.

(** the file of a date after the loop: the one that was there or the
    package of the first record of that date *)
Lemma save_loop_lookup c v data ts : forall fls rep d,
  (save_loop c v data ts fls rep).1 !! d
  = match fls !! d with
    | Some x => Some x
    | None => daily_data c v data <$> head (filter (fun r => dr_date r = d) ts)
    end.
Proof.
  induction ts as [|r ts IH]; intros fls rep d; cbn [save_loop].
  - cbn [fst]. rewrite filter_nil. by destruct (fls !! d).
  - rewrite filter_cons.
    destruct (fls !! dr_date r) as [old|] eqn:Hlook; rewrite IH.
    + destruct (fls !! d) as [x|] eqn:Hd; [done|].
      rewrite decide_False; [done|]. intros E. congruence.
    + destruct (decide (dr_date r = d)) as [<-|Hne].
      * by rewrite lookup_insert_eq, Hlook.
      * by rewrite lookup_insert_ne.
Qed.

Lemma save_loop_size c v data ts : forall fls rep,
  (size (save_loop c v data ts fls rep).1 + saved_count rep
   = size fls + saved_count (save_loop c v data ts fls rep).2)%nat
  /\ (saved_count (save_loop c v data ts fls rep).2
      + skipped_count (save_loop c v data ts fls rep).2
      = saved_count rep + skipped_count rep + length ts)%nat.
Proof.
  induction ts as [|r ts IH]; intros fls rep; cbn [save_loop].
  - cbn. lia.
  - destruct (fls !! dr_date r) as [old|] eqn:Hlook.
    + destruct (IH fls {| writes := writes rep; saved_count := saved_count rep;
                          skipped_count := S (skipped_count rep) |}) as [H1 H2].
      cbn in *. lia.
    + destruct (IH (<[dr_date r := daily_data c v data r]> fls)
                  {| writes := writes rep ++ [dr_date r];
                     saved_count := S (saved_count rep);
                     skipped_count := skipped_count rep |}) as [H1 H2].
      rewrite map_size_insert_None in H1 by done. cbn in *. lia.
Qed.

Lemma sorted_last_greatest {A} (R : relation A) `{!Reflexive R} l r x :
  StronglySorted R l -> last l = Some r -> x ∈ l -> R x r.
Proof.
  induction 1 as [|y l Hs IH Hall]; [done|].
  destruct l as [|z l].
  - intros [= <-] ->%list_elem_of_singleton. done.
  - rewrite last_cons_cons. intros Hlast [->|Hx]%elem_of_cons; [|by apply IH].
    rewrite Forall_forall in Hall. apply Hall.
    apply last_Some in Hlast as [l' ->]. apply elem_of_app. right. by left.
Qed.

Lemma name_le_refl : Reflexive DataProcessor.name_le.
Proof. intros a. unfold DataProcessor.name_le. reflexivity. Qed.

End SaveFacts.

(** X6. What [save_data] stored, [load_data] gives back: after a batch with
    records has been saved, loading a date returns the file that was there
    before the call if there was one, else the package of the first record
    of the batch with that date, and raises [FileNotFoundError] if the
    batch has none. *)
Theorem load_data_after_save (fs : data_fs) (now : Z) (c v : string)
    (data : collected) (fs' : data_fs) (rep : DataCollector.save_report)
    (ts : list daily_record) (d : string) :
  DataCollector.save_data fs now c v data = Ok (fs', rep) ->
  time_series data = Some ts -> ts <> [] ->
  load_data fs' c v (Some d)
  = match stored fs c v d with
    | Some x => Ok x
    | None =>
        match head (filter (fun r => dr_date r = d) ts) with
        | Some r => Ok (DataCollector.daily_data c v data r)
        | None => Raise (FileNotFoundError "Data file not found")
        end
    end.
Proof.
  intros Hsave Hts Hne.
  apply save_data_inv in Hsave as (dir & dir' & Hmk & Hinto & ->).
  unfold load_data. rewrite lookup_insert_eq.
  rewrite <- (mkdir_stored _ _ _ _ d Hmk).
  unfold DataCollector.save_into in Hinto. rewrite Hts in Hinto.
  destruct ts as [|r ts]; [done|].
  destruct (DataCollector.save_loop c v data (r :: ts) (files dir)
              DataCollector.no_writes) as [fls rep0] eqn:Hloop.
  injection Hinto as <- <-. cbn [files].
  pose proof (save_loop_lookup c v data (r :: ts) (files dir)
                DataCollector.no_writes d) as Hlook.
  rewrite Hloop in Hlook. cbn [fst] in Hlook. rewrite Hlook.
  destruct (files dir !! d); [done|].
  by destruct (head (filter _ (r :: ts))).
Qed.

Lemma load_data_after_save_witness :
  match DataCollector.save_data (Scenario.fs_of [("2024-01-05", 3%Z)] None)
          Scenario.jan8 Scenario.cp Scenario.var
          (Scenario.batch [Scenario.record "2024-01-06" 4;
                           Scenario.record "2024-01-06" 9]) with
  | Ok (fs', _) =>
      load_data fs' Scenario.cp Scenario.var (Some "2024-01-06")
      = Ok (Scenario.observation "2024-01-06" 4)
  | Raise _ => False
  end.
Proof.
  assert (Hok : is_ok (DataCollector.save_data
                         (Scenario.fs_of [("2024-01-05", 3%Z)] None)
                         Scenario.jan8 Scenario.cp Scenario.var
                         (Scenario.batch [Scenario.record "2024-01-06" 4;
                                          Scenario.record "2024-01-06" 9])) = true)
    by (vm_compute; reflexivity).
  destruct (DataCollector.save_data _ _ _ _ _) as [[fs' rep]|e] eqn:Hsave;
    [|discriminate Hok].
  rewrite (load_data_after_save _ _ _ _ _ fs' rep
             [Scenario.record "2024-01-06" 4; Scenario.record "2024-01-06" 9]
             "2024-01-06" Hsave eq_refl ltac:(discriminate)).
  vm_compute. reflexivity.
Defined.

(** X7. Without a date [load_data] returns the file whose name is the
    greatest: it raises [FileNotFoundError] exactly on a directory without
    files, and otherwise returns a stored file such that no stored file has
    a greater name. *)
Theorem load_data_latest (fs : data_fs) (c v : string) (dir : var_dir) :
  fs !! (c, v) = Some (Dir dir) ->
  (files dir = ∅ ->
   load_data fs c v None = Raise (FileNotFoundError "No data files found"))
  /\ (files dir <> ∅ ->
      exists d x,
        load_data fs c v None = Ok x /\ stored fs c v d = Some x
        /\ forall d', is_Some (stored fs c v d') ->
                      String.le (d' ++ ".pckl") (d ++ ".pckl")).
Proof.
  intros Hdir. unfold load_data. rewrite Hdir. split.
  - intros Hempty. unfold DataProcessor.pickle_files.
    by rewrite Hempty, map_to_list_empty.
  - intros Hne.
    pose proof (head_reverse (DataProcessor.pickle_files dir)) as Hhead.
    destruct (reverse (DataProcessor.pickle_files dir)) as [|[d x] rest] eqn:Hrev.
    + exfalso. apply Hne, pickle_files_nil.
      apply (f_equal reverse) in Hrev. by rewrite reverse_involutive in Hrev.
    + cbn in Hhead. symmetry in Hhead. exists d, x. split; [done|].
      rewrite (stored_dir _ _ _ _ _ Hdir). split.
      * apply elem_of_pickle_files. by eapply last_Some_elem_of.
      * intros d' [x' Hx']. rewrite (stored_dir _ _ _ _ _ Hdir) in Hx'.
        apply elem_of_pickle_files in Hx'.
        apply (@sorted_last_greatest _ DataProcessor.name_le name_le_refl _ _ _
                 (pickle_files_sorted dir) Hhead Hx').
Qed.

Lemma load_data_latest_witness :
  exists d x,
    load_data (Scenario.fs_of [("2024-01-06", 4%Z); ("2024-01-05", 3%Z)] None)
      Scenario.cp Scenario.var None = Ok x
    /\ stored (Scenario.fs_of [("2024-01-06", 4%Z); ("2024-01-05", 3%Z)] None)
         Scenario.cp Scenario.var d = Some x.
Proof.
  destruct (load_data_latest
              (Scenario.fs_of [("2024-01-06", 4%Z); ("2024-01-05", 3%Z)] None)
              Scenario.cp Scenario.var
              (Scenario.dir_of [("2024-01-06", 4%Z); ("2024-01-05", 3%Z)] None)
              eq_refl) as [_ H].
  destruct H as (d & x & Hload & Hst & _).
  - intros E. apply (f_equal (fun m : gmap string pickled => m !! "2024-01-05")) in E.
    vm_compute in E. discriminate E.
  - exists d, x. split; [exact Hload|exact Hst].
Defined.

(** X8. The counters [save_data] prints add up: for a batch with records
    every record is either saved or skipped, the number saved is the
    number of files written, and the directory grows by exactly that
    number of files. *)
Theorem save_data_counts (fs : data_fs) (now : Z) (c v : string)
    (data : collected) (fs' : data_fs) (rep : DataCollector.save_report)
    (ts : list daily_record) :
  DataCollector.save_data fs now c v data = Ok (fs', rep) ->
  time_series data = Some ts -> ts <> [] ->
  (DataCollector.saved_count rep + DataCollector.skipped_count rep = length ts)%nat
  /\ DataCollector.saved_count rep = length (DataCollector.writes rep)
  /\ exists dir dir',
       DataCollector.mkdir fs c v = Ok dir /\ fs' !! (c, v) = Some (Dir dir')
       /\ size (files dir') = (size (files dir) + DataCollector.saved_count rep)%nat.
Proof.
  intros Hsave Hts Hne.
  apply save_data_inv in Hsave as (dir & dir' & Hmk & Hinto & ->).
  assert (Hpd : DataCollector.per_day_only data).
  { unfold DataCollector.per_day_only. rewrite Hts. by destruct ts. }
  destruct (save_into_spec _ _ _ _ _ _ _ Hinto Hpd) as (_ & _ & _ & _ & Hsaved).
  unfold DataCollector.save_into in Hinto. rewrite Hts in Hinto.
  destruct ts as [|r ts]; [done|].
  pose proof (save_loop_size c v data (r :: ts) (files dir)
                DataCollector.no_writes) as [Hsize Hcount].
  destruct (DataCollector.save_loop c v data (r :: ts) (files dir)
              DataCollector.no_writes) as [fls rep0] eqn:Hloop.
  injection Hinto as <- <-. cbn [fst snd] in *. cbn in Hsize, Hcount.
  cbn [length]. split; [lia|]. split; [done|].
  exists dir. eexists. split; [done|]. split; [apply lookup_insert_eq|].
  cbn [files]. lia.
Qed.

Lemma save_data_counts_witness :
  match DataCollector.save_data (Scenario.fs_of [("2024-01-05", 3%Z)] None)
          Scenario.jan8 Scenario.cp Scenario.var
          (Scenario.batch [Scenario.record "2024-01-05" 3;
                           Scenario.record "2024-01-06" 4]) with
  | Ok (_, rep) =>
      (DataCollector.saved_count rep + DataCollector.skipped_count rep = 2)%nat
  | Raise _ => False
  end.
Proof.
  assert (Hok : is_ok (DataCollector.save_data
                         (Scenario.fs_of [("2024-01-05", 3%Z)] None)
                         Scenario.jan8 Scenario.cp Scenario.var
                         (Scenario.batch [Scenario.record "2024-01-05" 3;
                                          Scenario.record "2024-01-06" 4])) = true)
    by (vm_compute; reflexivity).
  destruct (DataCollector.save_data _ _ _ _ _) as [[fs' rep]|e] eqn:Hsave;
    [|discriminate Hok].
  exact (proj1 (save_data_counts _ _ _ _ _ fs' rep
                  [Scenario.record "2024-01-05" 3; Scenario.record "2024-01-06" 4]
                  Hsave eq_refl ltac:(discriminate))).
Defined.

(** ** One variable at a time *)

(** X9. A [collect] for one variable leaves every other variable as it
    was: its files, its watermark, and so what [load_data],
    [get_missing_dates], the processor's listing and the next start date
    give for it. *)
Theorem collect_touches_one_variable (reg : registry)
    (up : IMFPortWatchCollector.upstream) (tz t1 t2 : Z) (fs : data_fs)
    (c v : string) (incr : bool) (fs' : data_fs) (data : collected)
    (rep : DataCollector.save_report) (c0 v0 : string) :
  DataCollector.collect reg up tz t1 t2 fs c v incr = Ok (fs', data, rep) ->
  (c0, v0) <> (c, v) ->
  (forall k, stored fs' c0 v0 k = stored fs c0 v0 k)
  /\ watermark fs' c0 v0 = watermark fs c0 v0
  /\ (forall date, load_data fs' c0 v0 date = load_data fs c0 v0 date)
  /\ (forall now s, BackfillManager.get_missing_dates fs' now c0 v0 s
                    = BackfillManager.get_missing_dates fs now c0 v0 s)
  /\ DataProcessor.raw_files fs' c0 v0 = DataProcessor.raw_files fs c0 v0
  /\ (forall i, DataCollector.start_date_of fs' c0 v0 i
                = DataCollector.start_date_of fs c0 v0 i).
Proof.
  intros Hc Hne.
  destruct (collect_frame _ _ _ _ _ _ _ _ _ _ _ _ Hc) as (_ & Hother & _).
  specialize (Hother c0 v0 Hne). split_and!.
  - intros k. unfold stored. by rewrite Hother.
  - unfold watermark. by rewrite Hother.
  - intros date. unfold load_data. by rewrite Hother.
  - intros now s. unfold BackfillManager.get_missing_dates. by rewrite Hother.
  - unfold DataProcessor.raw_files. by rewrite Hother.
  - intros i. unfold DataCollector.start_date_of, DataCollector._get_latest_date.
    by rewrite Hother.
Qed.

Lemma collect_touches_one_variable_witness :
  match DataCollector.collect Scenario.reg
          (Scenario.upstream_with [Scenario.feature_on 738892 5]) 0
          Scenario.jan8 Scenario.jan8
          (Scenario.fs_of [("2024-01-05", 3%Z)] (Some "2024-01-05"))
          Scenario.cp Scenario.var true with
  | Ok (fs', _, _) =>
      watermark fs' "panama-canal" Scenario.var
      = watermark (Scenario.fs_of [("2024-01-05", 3%Z)] (Some "2024-01-05"))
          "panama-canal" Scenario.var
  | Raise _ => False
  end.
Proof.
  assert (Hok : is_ok (DataCollector.collect Scenario.reg
                         (Scenario.upstream_with [Scenario.feature_on 738892 5]) 0
                         Scenario.jan8 Scenario.jan8
                         (Scenario.fs_of [("2024-01-05", 3%Z)] (Some "2024-01-05"))
                         Scenario.cp Scenario.var true) = true)
    by (vm_compute; reflexivity).
  destruct (DataCollector.collect _ _ _ _ _ _ _ _ _) as [[[fs' data] rep]|e] eqn:Hc;
    [|discriminate Hok].
  destruct (collect_touches_one_variable _ _ _ _ _ _ _ _ _ _ _ _
              "panama-canal" Scenario.var Hc ltac:(discriminate))
    as (_ & Hw & _).
  exact Hw.
Defined.

(** ** The start of an incremental collection *)

(** X10. An incremental [collect] starts on the day after the watermark:
    when the stored latest date parses, the start date is the formatted
    next day, unless the watermark is the last day of year 9999, where the
    addition of a day raises [OverflowError]. A next day from 1000-01-01 on
    parses back to that day; an earlier one is formatted with fewer than
    four digits of year and does not parse. *)
Theorem incremental_start_is_next_day (fs : data_fs) (c v : string)
    (m : metadata) (t : Z) :
  watermark fs c v = Some m ->
  Calendar.strptime (md_latest_date m) = Some t ->
  DataCollector.start_date_of fs c v true
  = (if (Calendar.toordinal t <? Calendar.MAXORDINAL)%Z
     then Ok (Some (Calendar.format_ordinal (Calendar.toordinal t + 1)))
     else Raise (OverflowError "date value out of range"))
  /\ ((Calendar.toordinal t < Calendar.MAXORDINAL)%Z ->
      Calendar.strptime (Calendar.format_ordinal (Calendar.toordinal t + 1))
      = if (Calendar.ORDINAL_1000 <=? Calendar.toordinal t + 1)%Z
        then Some (t + Calendar.US_PER_DAY)%Z
        else None).
Proof.
  intros Hw Hparse.
  destruct (strptime_midnight _ _ Hparse) as (o & -> & Ho).
  rewrite toordinal_midnight.
  assert (Hadd : Calendar.add_days (Calendar.midnight o) 1
                 = if (o <? Calendar.MAXORDINAL)%Z
                   then Some (Calendar.midnight o + 1 * Calendar.US_PER_DAY)%Z
                   else None).
  { unfold Calendar.add_days, Calendar.valid_datetime.
    rewrite toordinal_add_days, toordinal_midnight.
    unfold Calendar.valid_ordinal, Calendar.MAXORDINAL.
    destruct (Z.ltb_spec o 3652059).
    - rewrite (proj2 (Z.leb_le _ _)), (proj2 (Z.leb_le _ _)) by lia. done.
    - rewrite (proj2 (Z.leb_gt (o + 1) 3652059)) by lia. by rewrite andb_false_r. }
  split.
  - unfold DataCollector.start_date_of, DataCollector._get_latest_date.
    unfold watermark in Hw. destruct (fs !! (c, v)) as [[dir|]|]; try done.
    rewrite Hw. cbn [fmap option_fmap option_map mbind result_bind].
    destruct (md_latest_date m) as [|a s] eqn:Hlatest; [done|].
    rewrite Hparse, Hadd.
    destruct (o <? Calendar.MAXORDINAL)%Z; [|done].
    unfold Calendar.strftime.
    by rewrite toordinal_add_days, toordinal_midnight.
  - intros Hlt.
    assert (Hvalid : Calendar.valid_ordinal (o + 1) = true).
    { unfold Calendar.valid_ordinal.
      rewrite (proj2 (Z.leb_le _ _)), (proj2 (Z.leb_le _ _)) by lia. done. }
    destruct (Z.leb_spec Calendar.ORDINAL_1000 (o + 1)).
    + rewrite strptime_format_ordinal by done.
      f_equal. unfold Calendar.midnight. lia.
    + by apply strptime_format_ordinal_short.
Qed.

(** after 2024-02-28 the start date is 2024-02-29, which parses; after
    0999-12-30 it is written 999-12-31, which does not *)
Lemma incremental_start_is_next_day_witness :
  (DataCollector.start_date_of
     (Scenario.fs_of [("2024-02-28", 3%Z)] (Some "2024-02-28"))
     Scenario.cp Scenario.var true
   = Ok (Some "2024-02-29")
   /\ Calendar.strptime "2024-02-29" = Some (Calendar.midnight 738945))
  /\ (DataCollector.start_date_of (Scenario.fs_of [] (Some "0999-12-30"))
        Scenario.cp Scenario.var true
      = Ok (Some "999-12-31")
      /\ Calendar.strptime "999-12-31" = None).
Proof.
  split.
  - destruct (incremental_start_is_next_day
                (Scenario.fs_of [("2024-02-28", 3%Z)] (Some "2024-02-28"))
                Scenario.cp Scenario.var
                {| md_chokepoint := Scenario.cp; md_variable := Scenario.var;
                   md_latest_date := "2024-02-28";
                   md_last_updated := "2024-01-07T06:00:00Z" |}
                (Calendar.midnight 738944)) as [Heq Hparse].
    + vm_compute. reflexivity.
    + vm_compute. reflexivity.
    + split; [rewrite Heq; vm_compute; reflexivity|].
      assert (E : Calendar.format_ordinal
                    (Calendar.toordinal (Calendar.midnight 738944) + 1)
                  = "2024-02-29") by (vm_compute; reflexivity).
      rewrite E in Hparse. rewrite Hparse; vm_compute; reflexivity.
  - destruct (incremental_start_is_next_day
                (Scenario.fs_of [] (Some "0999-12-30"))
                Scenario.cp Scenario.var
                {| md_chokepoint := Scenario.cp; md_variable := Scenario.var;
                   md_latest_date := "0999-12-30";
                   md_last_updated := "2024-01-07T06:00:00Z" |}
                (Calendar.midnight 364876)) as [Heq Hparse].
    + vm_compute. reflexivity.
    + vm_compute. reflexivity.
    + split; [rewrite Heq; vm_compute; reflexivity|].
      assert (E : Calendar.format_ordinal
                    (Calendar.toordinal (Calendar.midnight 364876) + 1)
                  = "999-12-31") by (vm_compute; reflexivity).
      rewrite E in Hparse. rewrite Hparse; vm_compute; reflexivity.
Defined.

(** ** The dictionary the collector returns *)

(** X11. Whatever the upstream does, the dictionary [collect] returns is
    well formed: it echoes the source, the chokepoint and the variable, its
    series is sorted by date, and it is either a success, whose
    [total_records] is the length of the series and whose date range runs
    from the first to the last record, or an error with a message and an
    empty series. *)
Theorem fetched_batch_is_well_formed (up : IMFPortWatchCollector.upstream)
    (tz now : Z) (url c v : string) (sd : option string) :
  let data := IMFPortWatchCollector.collect up tz now url c v sd in
  exists ts,
    time_series data = Some ts
    /\ StronglySorted IMFPortWatchCollector.date_le ts
    /\ source data = url /\ chokepoint data = c /\ variable data = v
    /\ timestamp data = Calendar.isoformat now ++ "Z"
    /\ ((status data = "success" /\ error data = None
         /\ total_records data = Some (Z.of_nat (length ts))
         /\ date_range data = Some (dr_date <$> head ts, dr_date <$> last ts))
        \/ (status data = "error" /\ is_Some (error data) /\ ts = []
            /\ total_records data = None /\ date_range data = None)).
Proof.
  cbv zeta. unfold IMFPortWatchCollector.collect, IMFPortWatchCollector.collect_body.
  destruct (IMFPortWatchCollector.fetch up tz url c sd) as [[se features]|e].
  2: { cbn. exists []. split_and!; try done; [constructor|].
       right. split_and!; by eauto. }
  cbn [mbind result_bind].
  destruct features as [[|f features]|].
  1,3: cbn; exists []; split_and!; try done; [constructor|]; left; by split_and!.
  destruct (IMFPortWatchCollector.process_features tz se (f :: features))
    as [rs|e]; cbn [mbind result_bind].
  - eexists. cbn. split_and!; try done; [apply sort_by_date_sorted|].
    left. by split_and!.
  - cbn. exists []. split_and!; try done; [constructor|].
    right. split_and!; by eauto.
Qed.

(** X12. With a start date that parses, every record [collect] returns is
    dated on or after that day: the filter on the epoch of the start date
    and the formatting of the dates use the same local time. *)
Theorem fetched_batch_respects_start_date (up : IMFPortWatchCollector.upstream)
    (tz now : Z) (url c v s : string) (t0 : Z) (r : daily_record) :
  Calendar.strptime s = Some t0 ->
  r ∈ default [] (time_series
                    (IMFPortWatchCollector.collect up tz now url c v (Some s))) ->
  exists t, Calendar.valid_datetime t = true
            /\ dr_date r = Calendar.strftime t
            /\ (Calendar.toordinal t0 <= Calendar.toordinal t)%Z.
Proof.
  intros Hparse.
  destruct (strptime_midnight _ _ Hparse) as (o & -> & Ho).
  rewrite toordinal_midnight.
  unfold IMFPortWatchCollector.collect, IMFPortWatchCollector.collect_body.
  destruct (IMFPortWatchCollector.fetch up tz url c (Some s))
    as [[se features]|e] eqn:Hf;
    cbn -[IMFPortWatchCollector.process_features]; [|by intros ?%elem_of_nil].
  apply fetch_start_epoch in Hf. unfold IMFPortWatchCollector.start_epoch_of in Hf.
  destruct s as [|a s]; [done|]. rewrite Hparse in Hf. injection Hf as <-.
  destruct features as [[|f features]|];
    cbn -[IMFPortWatchCollector.process_features];
    try by intros ?%elem_of_nil.
  destruct (IMFPortWatchCollector.process_features _ _ (f :: features))
    as [rs|] eqn:Hp; cbn; [|by intros ?%elem_of_nil].
  rewrite sort_by_date_perm. by eapply process_features_dates.
Qed.

Lemma fetched_batch_respects_start_date_witness :
  exists t, dr_date (Scenario.record "2024-01-07" 5) = Calendar.strftime t
            /\ (738891 <= Calendar.toordinal t)%Z.
Proof.
  destruct (fetched_batch_respects_start_date
              (Scenario.upstream_with
                 [Scenario.feature_on 738892 5; Scenario.feature_on 738890 3])
              0 Scenario.jan8 Scenario.url Scenario.cp Scenario.var "2024-01-06"
              (Calendar.midnight 738891) (Scenario.record "2024-01-07" 5))
    as (t & _ & Hdate & Hle).
  - vm_compute. reflexivity.
  - vm_compute. left.
  - exists t. split; [exact Hdate|]. exact Hle.
Defined.

(** ** Looking for gaps *)

Section BackfillFacts.
Import Calendar BackfillManager.
Local Open Scope Z_scope.

(** what the scan of the variables of a chokepoint adds to the mapping *)
Lemma scan_variables_sound fs now cid vars (P : string -> string -> list string -> Prop) :
  (forall v l, v ∈ vars -> l <> [] ->
     get_missing_dates fs now cid v None = Ok l -> P cid v l) ->
  forall m,
    (forall c v l, m !! (c, v) = Some l -> P c v l) ->
    forall c v l, (scan_variables fs now cid vars m).1 !! (c, v) = Some l -> P c v l.
Proof.
  induction vars as [|x vars IH]; intros Hnew m Hm; cbn [scan_variables]; [done|].
  destruct (get_missing_dates fs now cid x None) as [missing|e] eqn:Hget; [|done].
  apply IH.
  - intros v l Hv. apply Hnew. by right.
  - destruct missing as [|d missing]; [done|].
    intros c v l. destruct (decide ((cid, x) = (c, v))) as [[= <- <-]|Hne].
    + rewrite lookup_insert_eq. intros [= <-]. apply Hnew; [by left|done|done].
    + rewrite lookup_insert_ne by done. apply Hm.
Qed.

Lemma scan_all_sound fs now (P : string -> string -> list string -> Prop) reg :
  (forall cid vars v l, (cid, ConfigDict vars) ∈ reg -> v ∈ vars.*1 -> l <> [] ->
     get_missing_dates fs now cid v None = Ok l -> P cid v l) ->
  forall m,
    (forall c v l, m !! (c, v) = Some l -> P c v l) ->
    forall c v l, (scan_all fs now reg m).1 !! (c, v) = Some l -> P c v l.
Proof.
  induction reg as [|[cid config] reg IH]; intros Hnew m Hm; cbn [scan_all]; [done|].
  destruct (scan_chokepoint fs now (cid, config) m) as [m1 errs] eqn:H1.
  destruct (scan_all fs now reg m1) as [m2 errs'] eqn:H2. cbn [fst].
  assert (Hm1 : forall c v l, m1 !! (c, v) = Some l -> P c v l).
  { unfold scan_chokepoint in H1. destruct config as [msg|vars].
    - by injection H1 as <- _.
    - pose proof (scan_variables_sound fs now cid vars.*1 P
                    (fun v l Hv =>
                       Hnew cid vars v l
                         (proj2 (elem_of_cons _ _ _) (or_introl eq_refl)) Hv)
                    m Hm) as Hsound.
      destruct (scan_variables fs now cid vars.*1 m) as [m' [e|]];
        injection H1 as <- _; exact Hsound. }
  pose proof (IH (fun cid vars v l Hin =>
                    Hnew cid vars v l (proj2 (elem_of_cons _ _ _) (or_intror Hin)))
                m1 Hm1) as Hrest.
  by rewrite H2 in Hrest.
Qed.

(** the default window of [get_missing_dates]: the last 31 days *)
Lemma get_missing_dates_default fs now c v start :
  fs !! (c, v) <> Some Denied ->
  valid_datetime (now + 1 * US_PER_DAY) = true ->
  add_days now (-30) = Some start ->
  get_missing_dates fs now c v None
  = Ok (format_ordinal
          <$> filter (fun o => stored fs c v (format_ordinal o) = None)
                (seqZ (toordinal now - 30) 31)).
Proof.
  intros Hdir Hnow Hstart.
  assert (Hstart' := Hstart). unfold add_days in Hstart'. cbv zeta in Hstart'.
  destruct (valid_datetime (now + -30 * US_PER_DAY)) eqn:Hv; [|done].
  apply (inj Some) in Hstart'. subst start.
  unfold valid_datetime, valid_ordinal in Hv. rewrite toordinal_add_days in Hv.
  apply andb_true_iff in Hv as [Hlo _]. apply Z.leb_le in Hlo.
  unfold get_missing_dates. rewrite Hstart. cbn [mbind result_bind].
  rewrite all_dates_spec; [|rewrite toordinal_add_days; lia|done|by right].
  cbn [mbind result_bind]. rewrite toordinal_add_days.
  replace (toordinal now - (toordinal now + -30) + 1) with 31 by lia.
  replace (toordinal now + -30) with (toordinal now - 30) by lia.
  unfold stored. destruct (fs !! (c, v)) as [[d|]|]; [|done|].
  - by rewrite filter_fmap_dates.
  - by rewrite filter_all.
Qed.

End BackfillFacts.

(** X13. Every entry of the mapping [get_all_missing_dates] returns is
    genuine: its key is a variable of a configuration that could be loaded,
    and its value is the non-empty list [get_missing_dates] gives for that
    variable. *)
Theorem missing_scan_is_sound (reg : registry) (fs : data_fs) (now : Z)
    (c v : string) (l : list string) :
  (BackfillManager.get_all_missing_dates reg fs now).1 !! (c, v) = Some l ->
  l <> []
  /\ BackfillManager.get_missing_dates fs now c v None = Ok l
  /\ exists vars, (c, ConfigDict vars) ∈ reg /\ v ∈ vars.*1.
Proof.
  unfold BackfillManager.get_all_missing_dates.
  apply (scan_all_sound fs now
           (fun c v l =>
              l <> [] /\ BackfillManager.get_missing_dates fs now c v None = Ok l
              /\ exists vars, (c, ConfigDict vars) ∈ reg /\ v ∈ vars.*1)).
  - intros cid vars x l' Hin Hx Hne Hget. by eauto.
  - intros c' v' l' H. by rewrite lookup_empty in H.
Qed.

Lemma missing_scan_is_sound_witness :
  BackfillManager.get_missing_dates Scenario.fs_denied Scenario.jan8
    "panama-canal" Scenario.var None = Ok Scenario.last_31_days.
Proof.
  destruct (missing_scan_is_sound Scenario.reg3 Scenario.fs_denied Scenario.jan8
              "panama-canal" Scenario.var Scenario.last_31_days) as (_ & H & _).
  - vm_compute. reflexivity.
  - exact H.
Defined.

(** X14. Collecting can only close gaps: after a [collect] that returns, the
    missing dates of its variable are those that were missing before
    without the dates of the files it wrote. *)
Theorem collect_closes_gaps (reg : registry) (up : IMFPortWatchCollector.upstream)
    (tz t1 t2 : Z) (fs : data_fs) (c v : string) (incr : bool) (fs' : data_fs)
    (data : collected) (rep : DataCollector.save_report) (now : Z)
    (start_date : option string) (l : list string) :
  DataCollector.collect reg up tz t1 t2 fs c v incr = Ok (fs', data, rep) ->
  BackfillManager.get_missing_dates fs now c v start_date = Ok l ->
  BackfillManager.get_missing_dates fs' now c v start_date
  = Ok (filter (fun d => d ∉ DataCollector.writes rep) l).
Proof.
  intros (url & sd & _ & _ & -> & Hsave)%collect_inv.
  pose proof (collect_per_day_only up tz t1 url c v sd) as Hpd.
  apply save_data_inv in Hsave as (dir & dir' & Hmk & Hinto & ->).
  destruct (save_into_spec _ _ _ _ _ _ _ Hinto Hpd) as (_ & Hnew & Hkeep & Hdom & _).
  assert (Hiff : forall k, files dir' !! k = None
                           <-> files dir !! k = None /\ k ∉ DataCollector.writes rep).
  { intros k. split.
    - intros Hnone. split.
      + destruct (files dir !! k) as [x|] eqn:E; [|done].
        apply Hkeep in E. congruence.
      + intros Hin. apply Hnew in Hin as [_ [x Hx]]. congruence.
    - intros [Hnone Hout]. destruct (files dir' !! k) as [x|] eqn:E; [|done].
      destruct (Hdom k) as [[y Hy]|Hin]; [by eauto|congruence|done]. }
  unfold BackfillManager.get_missing_dates. rewrite lookup_insert_eq.
  destruct (match start_date with
            | Some s => _
            | None => _
            end) as [start|e]; [|done].
  cbn [mbind result_bind].
  destruct (BackfillManager.all_dates start now) as [all|e]; [|done].
  cbn [mbind result_bind]. unfold DataCollector.mkdir in Hmk.
  destruct (fs !! (c, v)) as [[d0|]|]; try done.
  - injection Hmk as ->. intros [= <-]. f_equal.
    rewrite list_filter_filter. apply list_filter_iff. intros k.
    rewrite Hiff. tauto.
  - injection Hmk as <-. intros [= <-]. f_equal.
    apply list_filter_iff. intros k. rewrite Hiff. cbn. split; [tauto|].
    intros ?. split; [apply lookup_empty|done].
Qed.

Lemma collect_closes_gaps_witness :
  match DataCollector.collect Scenario.reg
          (Scenario.upstream_with [Scenario.feature_on 738888 5]) 0
          Scenario.jan3 Scenario.jan3
          (Scenario.fs_of [("2024-01-01", 3%Z)] (Some "2024-01-01"))
          Scenario.cp Scenario.var true with
  | Ok (fs', _, _) =>
      BackfillManager.get_missing_dates fs' Scenario.jan3 Scenario.cp Scenario.var
        (Some "2024-01-01") = Ok ["2024-01-02"]
  | Raise _ => False
  end.
Proof.
  assert (Hw : match DataCollector.collect Scenario.reg
                       (Scenario.upstream_with [Scenario.feature_on 738888 5]) 0
                       Scenario.jan3 Scenario.jan3
                       (Scenario.fs_of [("2024-01-01", 3%Z)] (Some "2024-01-01"))
                       Scenario.cp Scenario.var true with
               | Ok (_, _, rep) => DataCollector.writes rep = ["2024-01-03"]
               | Raise _ => False
               end)
    by (vm_compute; reflexivity).
  destruct (DataCollector.collect _ _ _ _ _ _ _ _ _) as [[[fs' data] rep]|e] eqn:Hc;
    [|done].
  rewrite (collect_closes_gaps _ _ _ _ _ _ _ _ _ _ _ _ Scenario.jan3
             (Some "2024-01-01") ["2024-01-02"; "2024-01-03"] Hc);
    [|vm_compute; reflexivity].
  rewrite Hw. vm_compute. reflexivity.
Defined.

(** X15. [needs_backfill] looks at the last 31 days: it answers true
    exactly when one of the days from 30 days before the clock reading to
    the day of the reading has no file. *)
Theorem needs_backfill_iff_gap (fs : data_fs) (now : Z) (c v : string) (start : Z) :
  fs !! (c, v) <> Some Denied ->
  Calendar.valid_datetime (now + 1 * Calendar.US_PER_DAY) = true ->
  Calendar.add_days now (-30) = Some start ->
  exists b,
    BackfillManager.needs_backfill fs now c v = Ok b
    /\ (b = true <->
        exists o, (Calendar.toordinal now - 30 <= o <= Calendar.toordinal now)%Z
                  /\ stored fs c v (Calendar.format_ordinal o) = None).
Proof.
  intros Hdir Hnow Hstart. unfold BackfillManager.needs_backfill.
  rewrite (get_missing_dates_default fs now c v start Hdir Hnow Hstart).
  cbn [mbind result_bind]. eexists. split; [done|].
  rewrite bool_decide_eq_true, length_fmap. split.
  - intros Hlen.
    destruct (filter _ (seqZ (Calendar.toordinal now - 30) 31)) as [|o rest] eqn:E;
      [cbn in Hlen; lia|].
    assert (Hin : o ∈ filter (fun o => stored fs c v (Calendar.format_ordinal o) = None)
                      (seqZ (Calendar.toordinal now - 30) 31)).
    { rewrite E. by left. }
    apply list_elem_of_filter in Hin as [Hnone Hin]. apply elem_of_seqZ in Hin.
    exists o. split; [lia|done].
  - intros (o & Ho & Hnone).
    assert (Hin : o ∈ filter (fun o => stored fs c v (Calendar.format_ordinal o) = None)
                      (seqZ (Calendar.toordinal now - 30) 31)).
    { apply list_elem_of_filter. split; [done|]. apply elem_of_seqZ. lia. }
    destruct (filter _ _); [by apply elem_of_nil in Hin|cbn; lia].
Qed.

Lemma needs_backfill_iff_gap_witness :
  exists b,
    BackfillManager.needs_backfill
      (Scenario.fs_of [("2024-01-01", 3%Z); ("2024-01-03", 5%Z)] None)
      Scenario.jan3 Scenario.cp Scenario.var = Ok b.
Proof.
  destruct (needs_backfill_iff_gap
              (Scenario.fs_of [("2024-01-01", 3%Z); ("2024-01-03", 5%Z)] None)
              Scenario.jan3 Scenario.cp Scenario.var
              (Scenario.jan3 + -30 * Calendar.US_PER_DAY)%Z)
    as (b & Hb & _).
  - vm_compute. discriminate.
  - vm_compute. reflexivity.
  - vm_compute. reflexivity.
  - exists b. exact Hb.
Defined.

(** ** The runs of the scheduler *)

Section RunFacts.
Import IMFPortWatchCollector DataCollector CollectionScheduler.

Lemma dict_get_elem_of {V} (d : list (string * V)) k x :
  NoDup d.*1 -> (k, x) ∈ d <-> dict_get k d = Some x.
Proof.
  induction d as [|[k' x'] d IH]; cbn [dict_get].
  - intros _. split; [by intros ?%elem_of_nil|done].
  - rewrite fmap_cons. intros [Hnotin Hnd]%NoDup_cons. cbn [fst] in Hnotin.
    rewrite elem_of_cons. destruct (String.eqb_spec k k') as [->|Hne].
    + split; [|intros [= ->]; by left].
      intros [[= ->]|Hin]; [done|].
      exfalso. apply Hnotin. by apply (list_elem_of_fmap_2 fst _ (k', x)).
    + rewrite <- (IH Hnd). split; [|by right].
      intros [[= -> ->]|Hin]; [done|done].
Qed.

(** [collect] reads and writes the directory of its variable only *)
Lemma collect_local (reg : registry) (up : upstream) (tz t1 t2 : Z)
    (fs1 fs2 : data_fs) (c v : string) (incr : bool) :
  fs1 !! (c, v) = fs2 !! (c, v) ->
  match DataCollector.collect reg up tz t1 t2 fs1 c v incr,
        DataCollector.collect reg up tz t1 t2 fs2 c v incr with
  | Ok (fs1', d1, r1), Ok (fs2', d2, r2) =>
      fs1' !! (c, v) = fs2' !! (c, v) /\ d1 = d2 /\ r1 = r2
  | Raise e1, Raise e2 => e1 = e2
  | _, _ => False
  end.
Proof.
  intros Heq. unfold DataCollector.collect.
  destruct (resolve reg c v) as [url|e]; [|done]. cbn [mbind result_bind].
  assert (start_date_of fs1 c v incr = start_date_of fs2 c v incr) as ->.
  { unfold start_date_of, _get_latest_date. by rewrite Heq. }
  destruct (start_date_of fs2 c v incr) as [sd|e]; [|done].
  cbn [mbind result_bind]. unfold save_data, mkdir. rewrite Heq.
  destruct (fs2 !! (c, v)) as [[dir|]|]; cbn [mbind result_bind]; try done.
  all: destruct (save_into _ t2 c v _) as [d' rep]; cbn [mbind result_bind].
  all: by rewrite !lookup_insert_eq.
Qed.

(** a job reads and writes the files of its variable only *)
Lemma collect_data_local (reg : registry) (tz : Z) (env : job_env)
    (w1 w2 : world) (c v : string) :
  raw w1 !! (c, v) = raw w2 !! (c, v) ->
  processed w1 !! (c, v) = processed w2 !! (c, v) ->
  raw (collect_data reg tz env w1 c v) !! (c, v)
  = raw (collect_data reg tz env w2 c v) !! (c, v)
  /\ processed (collect_data reg tz env w1 c v) !! (c, v)
     = processed (collect_data reg tz env w2 c v) !! (c, v).
Proof.
  intros Hraw Hproc. unfold collect_data.
  pose proof (collect_local reg (env_up env) tz (env_t_fetch env) (env_t_save env)
                (raw w1) (raw w2) c v true Hraw) as Hloc.
  destruct (DataCollector.collect _ _ _ _ _ (raw w1) _ _ _) as [[[fs1 d1] r1]|e1];
    destruct (DataCollector.collect _ _ _ _ _ (raw w2) _ _ _) as [[[fs2 d2] r2]|e2];
    try done.
  destruct Hloc as (Hfs & _ & _).
  assert (Hout : output_of (processed w1) c v = output_of (processed w2) c v).
  { unfold output_of. by rewrite Hproc. }
  rewrite Hout.
  assert (Hsame : Processed.process_to_csv (env_t_process env) fs1
                    (output_of (processed w2) c v) c v true
                  = Processed.process_to_csv (env_t_process env) fs2
                      (output_of (processed w2) c v) c v true).
  { unfold Processed.process_to_csv, DataProcessor.process_to_csv,
      DataProcessor.raw_files. by rewrite Hfs. }
  rewrite Hsame.
  destruct (Processed.process_to_csv _ fs2 _ _ _ _) as [p' r].
  cbn [raw processed]. by rewrite !lookup_insert_eq.
Qed.

Lemma collect_data_frame (reg : registry) (tz : Z) (env : job_env)
    (w : world) (c v c0 v0 : string) :
  (c0, v0) <> (c, v) ->
  raw (collect_data reg tz env w c v) !! (c0, v0) = raw w !! (c0, v0)
  /\ processed (collect_data reg tz env w c v) !! (c0, v0)
     = processed w !! (c0, v0).
Proof.
  intros Hne. unfold collect_data.
  destruct (DataCollector.collect _ _ _ _ _ _ _ _ _) as [[[fs' data] rep]|e] eqn:Hc;
    [|done].
  destruct (collect_frame _ _ _ _ _ _ _ _ _ _ _ _ Hc) as (_ & Hother & _).
  destruct (Processed.process_to_csv _ _ _ _ _ _) as [p' r]. cbn [raw processed].
  split; [by apply Hother|]. rewrite lookup_insert_ne; [done|congruence].
Qed.

Lemma run_jobs_frame reg tz env (jobs : list (string * string * var_config)) c v :
  (c, v) ∉ (fun j => (j.1.1, j.1.2)) <$> jobs ->
  forall w,
    let w' := foldl (fun w '(chokepoint, variable, _) =>
                       collect_data reg tz (env chokepoint variable) w
                         chokepoint variable) w jobs in
    raw w' !! (c, v) = raw w !! (c, v)
    /\ processed w' !! (c, v) = processed w !! (c, v).
Proof.
  induction jobs as [|[[c1 v1] cfg] jobs IH]; intros Hout w; [done|].
  rewrite fmap_cons in Hout. apply not_elem_of_cons in Hout as [Hne Hout].
  cbn [foldl]. cbn zeta in *.
  destruct (IH Hout (collect_data reg tz (env c1 v1) w c1 v1)) as [H1 H2].
  destruct (collect_data_frame reg tz (env c1 v1) w c1 v1 c v Hne) as [H3 H4].
  split; congruence.
Qed.

Lemma run_jobs_local reg tz env (jobs : list (string * string * var_config)) c v cfg :
  NoDup ((fun j => (j.1.1, j.1.2)) <$> jobs) ->
  (c, v, cfg) ∈ jobs ->
  forall w,
    let w' := foldl (fun w '(chokepoint, variable, _) =>
                       collect_data reg tz (env chokepoint variable) w
                         chokepoint variable) w jobs in
    raw w' !! (c, v) = raw (collect_data reg tz (env c v) w c v) !! (c, v)
    /\ processed w' !! (c, v)
       = processed (collect_data reg tz (env c v) w c v) !! (c, v).
Proof.
  induction jobs as [|[[c1 v1] cfg1] jobs IH]; intros Hnd Hin w.
  { by apply elem_of_nil in Hin. }
  rewrite fmap_cons in Hnd. apply NoDup_cons in Hnd as [Hnotin Hnd].
  cbn [fst snd] in Hnotin. cbn [foldl].
  destruct (decide ((c, v) = (c1, v1))) as [[= <- <-]|Hne].
  - apply (run_jobs_frame reg tz env jobs c v Hnotin).
  - apply elem_of_cons in Hin as [[= -> -> ->]|Hin]; [done|].
    destruct (IH Hnd Hin (collect_data reg tz (env c1 v1) w c1 v1)) as [H1 H2].
    cbn zeta in *. rewrite H1, H2.
    destruct (collect_data_frame reg tz (env c1 v1) w c1 v1 c v Hne) as [H3 H4].
    by apply collect_data_local.
Qed.

End RunFacts.

(** X16. The jobs of the scheduler are the configured variables:
    [load_all_configs] lists (chokepoint, variable, configuration) exactly
    when [load_config] loads the chokepoint's configuration and the
    variable is one of its entries; a configuration that does not load
    contributes nothing and hides no other chokepoint. *)
Theorem load_all_configs_lists_configured (reg : registry) (c v : string)
    (cfg : var_config) :
  NoDup reg.*1 ->
  (c, v, cfg) ∈ CollectionScheduler.load_all_configs reg
  <-> exists vars, DataCollector.load_config reg c = Ok vars /\ (v, cfg) ∈ vars.
Proof.
  intros Hnd. unfold CollectionScheduler.load_all_configs, DataCollector.load_config.
  rewrite list_elem_of_bind. split.
  - intros ([cid [msg|vars]] & Hin & Hreg); [by apply elem_of_nil in Hin|].
    apply list_elem_of_fmap in Hin as ([v' cfg'] & [= -> -> ->] & Hin).
    exists vars. split; [|done].
    by rewrite (proj1 (dict_get_elem_of reg cid (ConfigDict vars) Hnd) Hreg).
  - intros (vars & Hload & Hin).
    destruct (IMFPortWatchCollector.dict_get c reg) as [[msg|vars']|] eqn:Hget;
      try done.
    injection Hload as ->. exists (c, ConfigDict vars). split.
    + apply list_elem_of_fmap. by exists (v, cfg).
    + by apply (dict_get_elem_of reg c (ConfigDict vars) Hnd).
Qed.

Lemma load_all_configs_lists_configured_witness :
  (Scenario.cp, "wait_time", {| vc_source := Some Scenario.url |})
    ∈ CollectionScheduler.load_all_configs Scenario.reg3.
Proof.
  apply (load_all_configs_lists_configured Scenario.reg3).
  - vm_compute. repeat constructor; rewrite ?not_elem_of_cons;
      try (split_and!; try discriminate); apply not_elem_of_nil.
  - eexists. split; [vm_compute; reflexivity|]. do 2 right. left.
Defined.

(** X17. A job of the scheduler keeps the files consistent: if every stored
    file is an observation and every CSV that exists is in step with the
    files of its variable, the same holds after [collect_data], whatever
    the upstream returns and whether or not an exception is caught. When
    the collection succeeds and the variable has a stored file, the CSV
    exists afterwards and its date column is the set of the stored dates,
    without repetition. *)
Theorem collect_data_keeps_csv_in_step (reg : registry) (tz : Z) (env : job_env)
    (w : world) (c v : string) :
  consistent w ->
  let w' := CollectionScheduler.collect_data reg tz env w c v in
  consistent w'
  /\ (is_ok (DataCollector.collect reg (env_up env) tz (env_t_fetch env)
               (env_t_save env) (raw w) c v true) = true ->
      (exists k, is_Some (stored (raw w') c v k)) ->
      exists rows,
        csv_path (output_of (processed w') c v)
        = Some (DataProcessor.writeheader ++ DataProcessor.writerows rows)
        /\ NoDup (DataProcessor.r_date <$> rows)
        /\ forall d, d ∈ DataProcessor.r_date <$> rows
                     <-> is_Some (stored (raw w') c v d)).
Proof.
  intros Hw. cbv zeta.
  destruct (collect_data_consistent reg tz env w c v Hw) as [Hcons Hcsv].
  split; [done|]. intros Hok Hsome.
  destruct (Hcsv Hok Hsome) as [text Htext].
  destruct (Hcons c v) as [Hobs Hsync]. rewrite Htext in Hsync.
  destruct Hsync as (rows & -> & Hnd & Hrows).
  exists rows. split; [done|]. split; [done|].
  intros d. rewrite list_elem_of_fmap. split.
  - intros (r & -> & (sd & Hst & _)%Hrows). by eauto.
  - intros [x Hx]. destruct (Hobs _ _ Hx) as (_ & sd & [= ->] & Hd & _).
    exists (DataProcessor.lenient_row c v d sd). split; [done|].
    apply Hrows. exists sd. done.
Qed.

Lemma collect_data_keeps_csv_in_step_witness :
  consistent
    (CollectionScheduler.collect_data Scenario.reg 0
       (Scenario.env_with [Scenario.feature_on 738892 5; Scenario.feature_on 738891 4])
       Scenario.fresh Scenario.cp Scenario.var).
Proof.
  apply (collect_data_keeps_csv_in_step Scenario.reg 0
           (Scenario.env_with
              [Scenario.feature_on 738892 5; Scenario.feature_on 738891 4])
           Scenario.fresh Scenario.cp Scenario.var).
  intros c v. split.
  - intros d x. unfold stored. cbn. by rewrite lookup_empty.
  - unfold output_of. cbn. by rewrite lookup_empty.
Defined.

(** X18. Runs of the scheduler keep the files consistent: after any
    sequence of [run_once_now], each over all configured jobs and each
    meeting any upstream, every stored file is an observation and every
    CSV that exists is in step with the files of its variable. *)
Theorem run_once_now_keeps_csv_in_step (reg : registry) (tz : Z)
    (envs : list (string -> string -> job_env)) (w : world) :
  consistent w ->
  consistent
    (foldl (fun w env => CollectionScheduler.run_once_now reg tz env w) w envs).
Proof.
  revert w. induction envs as [|env envs IH]; intros w Hw; [done|].
  cbn [foldl]. apply IH. unfold CollectionScheduler.run_once_now.
  by apply run_jobs_consistent.
Qed.

Lemma run_once_now_keeps_csv_in_step_witness :
  consistent
    (foldl (fun w env => CollectionScheduler.run_once_now Scenario.reg3 0 env w)
       Scenario.fresh
       [fun _ _ => Scenario.env_with [Scenario.feature_on 738892 5];
        fun _ _ => Scenario.env_with []]).
Proof.
  apply (run_once_now_keeps_csv_in_step Scenario.reg3 0).
  intros c v. split.
  - intros d x. unfold stored. cbn. by rewrite lookup_empty.
  - unfold output_of. cbn. by rewrite lookup_empty.
Defined.

(** X19. The jobs of a run do not influence each other: when no variable is
    listed twice, the files of a variable after [run_once_now], raw and
    processed, are those its own job would leave if it ran alone; a job
    that fails changes nothing for the others. *)
Theorem run_once_now_jobs_independent (reg : registry) (tz : Z)
    (env : string -> string -> job_env) (w : world) (c v : string)
    (cfg : var_config) :
  NoDup ((fun j => (j.1.1, j.1.2)) <$> CollectionScheduler.load_all_configs reg) ->
  (c, v, cfg) ∈ CollectionScheduler.load_all_configs reg ->
  let alone := CollectionScheduler.collect_data reg tz (env c v) w c v in
  let w' := CollectionScheduler.run_once_now reg tz env w in
  raw w' !! (c, v) = raw alone !! (c, v)
  /\ processed w' !! (c, v) = processed alone !! (c, v).
Proof.
  intros Hnd Hin. unfold CollectionScheduler.run_once_now.
  by apply (run_jobs_local reg tz env _ c v cfg).
Qed.

Lemma run_once_now_jobs_independent_witness :
  raw (CollectionScheduler.run_once_now Scenario.reg3 0
         (fun _ _ => Scenario.env_with [Scenario.feature_on 738892 5])
         Scenario.fresh) !! ("panama-canal", Scenario.var)
  = raw (CollectionScheduler.collect_data Scenario.reg3 0
           (Scenario.env_with [Scenario.feature_on 738892 5])
           Scenario.fresh "panama-canal" Scenario.var)
      !! ("panama-canal", Scenario.var).
Proof.
  apply (run_once_now_jobs_independent Scenario.reg3 0
           (fun _ _ => Scenario.env_with [Scenario.feature_on 738892 5])
           Scenario.fresh "panama-canal" Scenario.var
           {| vc_source := Some Scenario.url |}).
  - vm_compute. repeat constructor; rewrite ?not_elem_of_cons;
      try (split_and!; try discriminate); apply not_elem_of_nil.
  - vm_compute. do 3 right. left.
Defined.

(** ** The command lines *)

(** X20. The exit status of [main.py] tells whether the collection could be
    set up, not whether data arrived: it is 1 exactly when the
    configuration cannot be resolved or the start date cannot be computed
    (then no file is touched), and 0 otherwise, whatever the upstream does,
    a failed fetch included. *)
Theorem main_exit_status (reg : registry) (up : IMFPortWatchCollector.upstream)
    (tz t1 t2 : Z) (fs : data_fs) (c v : string) :
  let out := Main.main reg up tz t1 t2 fs c v in
  (out.2 = 0%Z \/ out.2 = 1%Z)
  /\ (out.2 = 1%Z <->
      is_ok (DataCollector.resolve reg c v) = false
      \/ is_ok (DataCollector.start_date_of fs c v true) = false)
  /\ (out.2 = 1%Z -> out.1 = fs)
  /\ forall up', (Main.main reg up' tz t1 t2 fs c v).2 = out.2.
Proof.
  cbv zeta. unfold Main.main, DataCollector.collect.
  destruct (DataCollector.resolve reg c v) as [url|e]; cbn [mbind result_bind is_ok].
  2: { cbn. repeat split; auto. }
  destruct (DataCollector.start_date_of fs c v true) as [sd|e] eqn:Hsd;
    cbn [mbind result_bind is_ok].
  2: { cbn. repeat split; auto. }
  assert (Hmk : exists dir, DataCollector.mkdir fs c v = Ok dir).
  { unfold DataCollector.start_date_of, DataCollector._get_latest_date in Hsd.
    unfold DataCollector.mkdir. destruct (fs !! (c, v)) as [[dir|]|]; by eauto. }
  destruct Hmk as [dir Hmk]. unfold DataCollector.save_data. rewrite Hmk.
  cbn [mbind result_bind].
  assert (Hcode : forall up0,
            (let '(d', rep) :=
               DataCollector.save_into dir t2 c v
                 (IMFPortWatchCollector.collect up0 tz t1 url c v sd) in
             Ok (<[(c, v) := Dir d']> fs, rep))
            ≫= (fun '(fs', rep) =>
                  Ok (fs', IMFPortWatchCollector.collect up0 tz t1 url c v sd, rep))
            = Ok ((<[(c, v) :=
                      Dir (DataCollector.save_into dir t2 c v
                             (IMFPortWatchCollector.collect up0 tz t1 url c v sd)).1]> fs),
                  IMFPortWatchCollector.collect up0 tz t1 url c v sd,
                  (DataCollector.save_into dir t2 c v
                     (IMFPortWatchCollector.collect up0 tz t1 url c v sd)).2)).
  { intros up0. by destruct (DataCollector.save_into _ _ _ _ _). }
  rewrite Hcode. cbn [fst snd]. split_and!.
  - by left.
  - split; [done|]. by intros [?|?].
  - done.
  - intros up'. by rewrite Hcode.
Qed.

Section CommandFacts.
Import DataProcessor.

Lemma process_to_json_records fs c v fls :
  observation_store fs c v -> raw_files fs c v = Ok fls ->
  exists es,
    process_to_json fs c v "records"
    = Ok (Records (length fls) (head fls.*1, last fls.*1) es, length fls)
    /\ j_date <$> es = fls.*1.
Proof.
  intros Hobs Hraw.
  destruct (raw_files_inv _ _ _ _ Hraw) as (dir & Hdir & Hfls & _).
  assert (Hall : Forall observation_file fls).
  { subst fls. apply Forall_forall. intros [d x] Hin%elem_of_pickle_files.
    apply Hobs. by rewrite (stored_dir _ _ _ _ _ Hdir). }
  destruct (json_entries_observation fls Hall) as (es & Hes & Hdates & _).
  exists es. split; [|done].
  unfold process_to_json. rewrite Hraw. cbn [mbind result_bind].
  rewrite Hes. cbn [mbind result_bind].
  change (String.eqb "records" "records") with true. cbv iota.
  rewrite <- head_fmap, <- fmap_last, Hdates.
  by rewrite <- (length_fmap j_date), Hdates, length_fmap.
Qed.

Lemma update_usable now existing format n :
  (forall e, existing <> Some (MetadataUnusable e)) ->
  exists m,
    Processed._update_processing_metadata now existing format n
    = Ok (MetadataDict m)
    /\ pe_record_count <$> m !! format = Some n
    /\ forall k, k <> format ->
         m !! k = match existing with
                  | Some (MetadataDict m0) => m0 !! k
                  | _ => None
                  end.
Proof.
  intros Husable. unfold Processed._update_processing_metadata.
  destruct existing as [[e|m0]|]; cbn [mbind result_bind].
  - by destruct (Husable e).
  - eexists. split; [done|]. split; [by rewrite lookup_insert_eq|].
    intros k Hk. by rewrite lookup_insert_ne.
  - eexists. split; [done|]. split; [by rewrite lookup_insert_eq|].
    intros k Hk. by rewrite lookup_insert_ne, lookup_empty.
Qed.

End CommandFacts.

(** X21. Without raw data [process_data.py] writes nothing: when the raw
    directory is missing, cannot be entered or holds no pickle file, the
    exit status is 1 and the CSV, the JSON and the processing metadata are
    as they were, for every format and every mode. *)
Theorem process_data_main_without_raw_data (t1 t2 : Z) (fs : data_fs)
    (p : processed_dir) (a : ProcessData.args) (e : exn) :
  DataProcessor.raw_files fs (ProcessData.arg_chokepoint a)
    (ProcessData.arg_variable a) = Raise e ->
  ProcessData.main t1 t2 fs p a = (p, 1%Z).
Proof.
  intros Hraw. unfold ProcessData.main, Processed.process_to_csv,
    Processed.process_to_json, DataProcessor.process_to_csv,
    DataProcessor.process_to_json.
  rewrite Hraw. cbn [mbind result_bind]. by destruct (ProcessData.arg_format a).
Qed.

Lemma process_data_main_without_raw_data_witness :
  ProcessData.main Scenario.jan8 Scenario.jan8 ∅ no_output
    {| ProcessData.arg_chokepoint := "bab-el-mandeb";
       ProcessData.arg_variable := Scenario.var;
       ProcessData.arg_format := ProcessData.both;
       ProcessData.arg_incremental := false;
       ProcessData.arg_full := false |}
  = (no_output, 1%Z).
Proof.
  apply (process_data_main_without_raw_data _ _ _ _ _
           (FileNotFoundError "Raw data directory not found")).
  vm_compute. reflexivity.
Defined.

(** X22. With [--format both] in full mode (the default, or [--full]), on a
    directory that holds observations and with usable processing metadata,
    [process_data.py] exits with 0 and leaves a CSV and a JSON file with the
    same dates, those of the files in the order of their names; the
    metadata records the number of files for both formats. *)
Theorem process_data_main_renders_both (t1 t2 : Z) (fs : data_fs)
    (p : processed_dir) (a : ProcessData.args) (fls : list (string * pickled)) :
  observation_store fs (ProcessData.arg_chokepoint a) (ProcessData.arg_variable a) ->
  DataProcessor.raw_files fs (ProcessData.arg_chokepoint a)
    (ProcessData.arg_variable a) = Ok fls ->
  ProcessData.arg_format a = ProcessData.both ->
  ProcessData.arg_incremental a && negb (ProcessData.arg_full a) = false ->
  (forall e, metadata_path p <> Some (MetadataUnusable e)) ->
  exists rows es m,
    ProcessData.main t1 t2 fs p a
    = ({| csv_path := Some (DataProcessor.writeheader ++ DataProcessor.writerows rows);
          json_path := Some (DataProcessor.Records (length fls)
                               (head fls.*1, last fls.*1) es);
          metadata_path := Some (MetadataDict m) |}, 0%Z)
    /\ DataProcessor.r_date <$> rows = fls.*1
    /\ DataProcessor.j_date <$> es = fls.*1
    /\ pe_record_count <$> m !! "csv" = Some (length fls)
    /\ pe_record_count <$> m !! "json" = Some (length fls).
Proof.
  intros Hobs Hraw Hformat Hmode Husable.
  destruct (process_to_csv_full fs (csv_path p) _ _ false fls Hobs Hraw
              (or_intror eq_refl)) as [Hcsv Hdates].
  destruct (process_to_json_records fs _ _ fls Hobs Hraw) as (es & Hjson & Hjdates).
  set (rows := (DataProcessor.new_rows (ProcessData.arg_chokepoint a)
                  (ProcessData.arg_variable a) ∅ fls).1) in *.
  assert (Hlen : length rows = length fls).
  { by rewrite <- (length_fmap DataProcessor.r_date), Hdates, length_fmap. }
  destruct (update_usable t1 (metadata_path p) "csv" (length rows) Husable)
    as (m1 & Hm1 & Hcount1 & _).
  destruct (update_usable t2 (Some (MetadataDict m1)) "json" (length fls))
    as (m2 & Hm2 & Hcount2 & Hkeep); [done|].
  exists rows, es, m2.
  unfold ProcessData.main. rewrite Hformat, Hmode.
  unfold Processed.process_to_csv. rewrite Hcsv.
  cbn [DataProcessor.csv_file DataProcessor.record_count]. rewrite Hm1.
  cbn [mbind result_bind].
  unfold Processed.process_to_json. rewrite Hjson.
  cbn [csv_path json_path metadata_path]. rewrite Hm2.
  split; [done|]. split; [done|]. split; [done|].
  split; [|done]. rewrite Hkeep by done. by rewrite Hcount1, Hlen.
Qed.

Lemma process_data_main_renders_both_witness :
  exists rows es m,
    ProcessData.main Scenario.jan8 Scenario.jan8
      (Scenario.fs_of [("2024-01-06", 4%Z); ("2024-01-05", 3%Z)] None) no_output
      {| ProcessData.arg_chokepoint := Scenario.cp;
         ProcessData.arg_variable := Scenario.var;
         ProcessData.arg_format := ProcessData.both;
         ProcessData.arg_incremental := true;
         ProcessData.arg_full := true |}
    = ({| csv_path := Some (DataProcessor.writeheader ++ DataProcessor.writerows rows);
          json_path := Some (DataProcessor.Records 2
                               (Some "2024-01-05", Some "2024-01-06") es);
          metadata_path := Some (MetadataDict m) |}, 0%Z)
    /\ DataProcessor.r_date <$> rows = ["2024-01-05"; "2024-01-06"].
Proof.
  destruct (process_data_main_renders_both Scenario.jan8 Scenario.jan8
              (Scenario.fs_of [("2024-01-06", 4%Z); ("2024-01-05", 3%Z)] None)
              no_output
              {| ProcessData.arg_chokepoint := Scenario.cp;
                 ProcessData.arg_variable := Scenario.var;
                 ProcessData.arg_format := ProcessData.both;
                 ProcessData.arg_incremental := true;
                 ProcessData.arg_full := true |}
              [("2024-01-05", Scenario.observation "2024-01-05" 3);
               ("2024-01-06", Scenario.observation "2024-01-06" 4)])
    as (rows & es & m & Heq & Hdates & _).
  - apply observation_store_fs_of.
    repeat constructor;
      [by exists (Calendar.midnight 738891)|by exists (Calendar.midnight 738890)].
  - vm_compute. reflexivity.
  - reflexivity.
  - reflexivity.
  - intros e. discriminate.
  - exists rows, es, m. split; [exact Heq|exact Hdates].
Defined.

(** X23. The CSV is written before the processing metadata is read: when
    [_processing_metadata.json] cannot be used, a rendering to CSV that
    succeeds still replaces the CSV, then the exception ends
    [process_data.py] with status 1; the JSON file is not written and the
    metadata stay as they were. *)
Theorem process_data_main_unusable_metadata (t1 t2 : Z) (fs : data_fs)
    (p : processed_dir) (a : ProcessData.args) (e : exn)
    (out : DataProcessor.csv_outcome) :
  metadata_path p = Some (MetadataUnusable e) ->
  ProcessData.arg_format a <> ProcessData.json ->
  DataProcessor.process_to_csv fs (csv_path p) (ProcessData.arg_chokepoint a)
    (ProcessData.arg_variable a)
    (ProcessData.arg_incremental a && negb (ProcessData.arg_full a)) = Ok out ->
  ProcessData.main t1 t2 fs p a
  = ({| csv_path := DataProcessor.csv_file out;
        json_path := json_path p;
        metadata_path := metadata_path p |}, 1%Z).
Proof.
  intros Hmeta Hformat Hcsv. unfold ProcessData.main, Processed.process_to_csv.
  rewrite Hcsv, Hmeta. cbn [Processed._update_processing_metadata mbind result_bind].
  by destruct (ProcessData.arg_format a).
Qed.

Lemma process_data_main_unusable_metadata_witness :
  ProcessData.main Scenario.jan8 Scenario.jan8
    (Scenario.fs_of [("2024-01-05", 3%Z)] None)
    {| csv_path := None; json_path := None;
       metadata_path := Some (MetadataUnusable (ValueError "Expecting value")) |}
    {| ProcessData.arg_chokepoint := Scenario.cp;
       ProcessData.arg_variable := Scenario.var;
       ProcessData.arg_format := ProcessData.both;
       ProcessData.arg_incremental := false;
       ProcessData.arg_full := false |}
  = ({| csv_path := Some (DataProcessor.writeheader
                          ++ DataProcessor.writerows [Scenario.row_of "2024-01-05" 3]);
        json_path := None;
        metadata_path := Some (MetadataUnusable (ValueError "Expecting value")) |},
     1%Z).
Proof.
  apply (process_data_main_unusable_metadata Scenario.jan8 Scenario.jan8
           (Scenario.fs_of [("2024-01-05", 3%Z)] None)
           {| csv_path := None; json_path := None;
              metadata_path := Some (MetadataUnusable (ValueError "Expecting value")) |}
           {| ProcessData.arg_chokepoint := Scenario.cp;
              ProcessData.arg_variable := Scenario.var;
              ProcessData.arg_format := ProcessData.both;
              ProcessData.arg_incremental := false;
              ProcessData.arg_full := false |}
           (ValueError "Expecting value")
           {| DataProcessor.csv_file :=
                Some (DataProcessor.writeheader
                      ++ DataProcessor.writerows [Scenario.row_of "2024-01-05" 3]);
              DataProcessor.record_count := 1;
              DataProcessor.skipped := [] |}).
  - reflexivity.
  - discriminate.
  - vm_compute. reflexivity.
Defined.

(** ** From collecting to rendering *)

Lemma run_observation_store reg tz c v calls : forall st,
  observation_store st.1 c v ->
  observation_store (foldl (run_step reg tz) st calls).1 c v.
Proof.
  induction calls as [|cl calls IH]; intros st Hst; [done|].
  cbn [foldl]. apply IH. unfold run_step.
  destruct (DataCollector.collect _ _ _ _ _ _ _ _ _) as [[[fs' data] rep]|e] eqn:Hc;
    [|done].
  cbn [fst]. by eapply collect_observation_store.
Qed.

(** X24. What the collector stores, the processor can render: after any
    sequence of [collect] calls on a directory of observations (an empty
    one, for instance), whatever the upstreams return, the directory still
    holds observations only, so that a full or first rendering to CSV and a
    rendering to JSON do not raise as soon as there is a file. *)
Theorem collected_stores_render (reg : registry) (tz : Z) (fs : data_fs)
    (calls : list call) (c v : string) :
  observation_store fs c v ->
  let fs' := (run_collects reg tz fs calls).1 in
  observation_store fs' c v
  /\ forall fls csv,
       DataProcessor.raw_files fs' c v = Ok fls ->
       is_ok (DataProcessor.process_to_csv fs' csv c v false) = true
       /\ is_ok (DataProcessor.process_to_csv fs' None c v true) = true
       /\ is_ok (DataProcessor.process_to_json fs' c v "records") = true.
Proof.
  intros Hobs. cbv zeta.
  assert (Hobs' : observation_store (run_collects reg tz fs calls).1 c v).
  { unfold run_collects. by apply run_observation_store. }
  split; [done|]. intros fls csv Hraw. split_and!.
  - by destruct (process_to_csv_full _ csv c v false fls Hobs' Hraw
                   (or_intror eq_refl)) as [-> _].
  - by destruct (process_to_csv_full _ None c v true fls Hobs' Hraw
                   (or_introl eq_refl)) as [-> _].
  - by destruct (process_to_json_records _ c v fls Hobs' Hraw) as (es & -> & _).
Qed.

Lemma collected_stores_render_witness :
  observation_store
    (run_collects Scenario.reg 0 ∅
       [ {| call_up := Scenario.upstream_with
                         [Scenario.feature_on 738892 5; Scenario.feature_on 738891 4];
            call_t_fetch := Scenario.jan8; call_t_save := Scenario.jan8;
            call_chokepoint := Scenario.cp; call_variable := Scenario.var;
            call_incremental := true |} ]).1
    Scenario.cp Scenario.var.
Proof.
  apply (collected_stores_render Scenario.reg 0 ∅).
  intros d x. unfold stored. by rewrite lookup_empty.
Defined.
